(** * pg_search_benchmark: relevance scoring, query dispatch and batch ingestion

    A shallow embedding of the parts of the repository that carry its
    algorithmic content:

    - [server.js]: [calculateRelevanceScore], [calculateNDCG],
      [runVanillaSearch], [runParadeSearch] and the [/api/benchmark] handler;
    - the benchmark script: [runVanillaQuery], [runParadeQuery],
      [calculateRelevance] and the read loop of [runBenchmark];
    - [ingest-amazon-data.go]: [insertBatch] and the producer loop of
      [processAmazonData].

    Conventions.  JavaScript strings are modelled as [string] (sequences of
    8-bit characters); [toLowerCase] and the regular-expression classes [\s]
    and [\w] are the ASCII ones.  JavaScript numbers are modelled exactly:
    integers as [Z], the term-overlap score as a rational [Q], and the NDCG
    value, which goes through [Math.pow] and [Math.log2], as a real [R].
    Rounding of IEEE doubles is therefore not part of the model.

    What lies outside the repository is a parameter: the two connection
    pools ([Runtime.Pool]), the regular-expression rewrites that prepare
    the parameter of a boolean or field query ([Runtime.Rewrites]), Go's
    [encoding/json] ([Ingest.Json]) and the store behind [*sql.DB]
    ([Ingest.Store]).

    Layout: the modules [JS], [Scorer], [ServerSql], [BenchSql], [Runtime],
    [Server], [Bench] and [Ingest] hold the embedding; the sections after
    them hold the properties. *)

From Stdlib Require Import String Ascii List Bool Arith ZArith QArith Qround Qreals.
From Stdlib Require Import Reals Lia Psatz Permutation Sorted.
From Stdlib Require DecimalString.
Import ListNotations.

Close Scope R_scope.
Close Scope Q_scope.

(* ================================================================== *)
(** ** JavaScript string primitives *)
(* ================================================================== *)

Module JS.

Local Open Scope string_scope.

Definition charCode (c : ascii) : nat := nat_of_ascii c.

Definition isUpper (c : ascii) : bool :=
  (65 <=? charCode c)%nat && (charCode c <=? 90)%nat.

Definition isLower (c : ascii) : bool :=
  (97 <=? charCode c)%nat && (charCode c <=? 122)%nat.

Definition isDigit (c : ascii) : bool :=
  (48 <=? charCode c)%nat && (charCode c <=? 57)%nat.

(** [\w]: ASCII letters, digits and underscore. *)
Definition isWordChar (c : ascii) : bool :=
  isUpper c || isLower c || isDigit c || (charCode c =? 95)%nat.

(** [\s], restricted to ASCII: tab, line feed, vertical tab, form feed,
    carriage return and space. *)
Definition isWhiteSpace (c : ascii) : bool :=
  ((9 <=? charCode c)%nat && (charCode c <=? 13)%nat) || (charCode c =? 32)%nat.

Definition toLowerChar (c : ascii) : ascii :=
  if isUpper c then ascii_of_nat (charCode c + 32) else c.

(** [s.toLowerCase()] *)
Fixpoint toLowerCase (s : string) : string :=
  match s with
  | EmptyString => EmptyString
  | String c s' => String (toLowerChar c) (toLowerCase s')
  end.

(** [s.includes(t)] *)
Fixpoint includes (s t : string) : bool :=
  prefix t s ||
  match s with
  | EmptyString => false
  | String _ s' => includes s' t
  end.

(** [s.split(/\s+/)]: the pieces between maximal runs of white space.  A
    leading or trailing run yields an empty first or last piece, and the
    result always has at least one element. *)
Fixpoint splitWsFrom (cur : string) (inRun : bool) (s : string) : list string :=
  match s with
  | EmptyString => [cur]
  | String c s' =>
      if isWhiteSpace c
      then if inRun then splitWsFrom "" true s'
           else cur :: splitWsFrom "" true s'
      else splitWsFrom (cur ++ String c "") false s'
  end.

Definition splitWhitespace (s : string) : list string := splitWsFrom "" false s.

(** [s.split(sep)] for a one-character separator. *)
Fixpoint splitCharFrom (sep : ascii) (cur : string) (s : string) : list string :=
  match s with
  | EmptyString => [cur]
  | String c s' =>
      if Ascii.eqb c sep then cur :: splitCharFrom sep "" s'
      else splitCharFrom sep (cur ++ String c "") s'
  end.

Definition splitChar (sep : ascii) (s : string) : list string :=
  splitCharFrom sep "" s.

(** [s.replace(/[^\w\s]/g, '')] *)
Fixpoint stripPunctuation (s : string) : string :=
  match s with
  | EmptyString => EmptyString
  | String c s' =>
      if isWordChar c || isWhiteSpace c
      then String c (stripPunctuation s')
      else stripPunctuation s'
  end.

(** [s.trim()] *)
Fixpoint trimStart (s : string) : string :=
  match s with
  | EmptyString => EmptyString
  | String c s' => if isWhiteSpace c then trimStart s' else s
  end.

Fixpoint allWhiteSpace (s : string) : bool :=
  match s with
  | EmptyString => true
  | String c s' => isWhiteSpace c && allWhiteSpace s'
  end.

Fixpoint trimEnd (s : string) : string :=
  match s with
  | EmptyString => EmptyString
  | String c s' => if allWhiteSpace s then EmptyString else String c (trimEnd s')
  end.

Definition trim (s : string) : string := trimEnd (trimStart s).

(** *** [new RegExp(`\\b${term}\\b`, 'i').test(text)]

    The term is spliced into the pattern unescaped.  When it contains none
    of the syntax characters of the pattern grammar every character of it is
    a literal, and the test succeeds exactly when some occurrence of the
    term (compared without regard to case) starts and ends at a word
    boundary.  For any other term the pattern means something else, or does
    not compile at all; the model leaves that case undefined. *)

Definition isSyntaxChar (c : ascii) : bool :=
  existsb (Ascii.eqb c)
    ["\"; "^"; "$"; "."; "*"; "+"; "?"; "("; ")"; "["; "]"; "{"; "}"; "|"]%char.

Fixpoint regexSafe (term : string) : bool :=
  match term with
  | EmptyString => true
  | String c t' => negb (isSyntaxChar c) && regexSafe t'
  end.

Definition headIsWord (s : string) : bool :=
  match s with
  | EmptyString => false
  | String c _ => isWordChar c
  end.

(** [\b] between a character whose word-ness is [prevWord] and the rest
    [s] of the subject. *)
Definition boundaryAt (prevWord : bool) (s : string) : bool :=
  xorb prevWord (headIsWord s).

(** Match the literal [term] at the head of [s], ignoring case; on success
    give the word-ness of the last character consumed ([prevWord] when the
    term is empty) and what is left of [s]. *)
Fixpoint matchLiteral (term s : string) (prevWord : bool) : option (bool * string) :=
  match term with
  | EmptyString => Some (prevWord, s)
  | String a term' =>
      match s with
      | EmptyString => None
      | String c s' =>
          if Ascii.eqb (toLowerChar a) (toLowerChar c)
          then matchLiteral term' s' (isWordChar c)
          else None
      end
  end.

Definition matchWordAt (term : string) (prevWord : bool) (s : string) : bool :=
  boundaryAt prevWord s &&
  match matchLiteral term s prevWord with
  | Some (lastWord, rest) => boundaryAt lastWord rest
  | None => false
  end.

Fixpoint wordScan (term : string) (prevWord : bool) (s : string) : bool :=
  matchWordAt term prevWord s ||
  match s with
  | EmptyString => false
  | String c s' => wordScan term (isWordChar c) s'
  end.

Definition wordBoundaryTest (term text : string) : option bool :=
  if regexSafe term then Some (wordScan term false text) else None.

(** [arr.forEach((x, i) => ...)] updating local accumulators: a left fold
    that also passes the index. *)
Fixpoint forEachFrom {A St : Type} (f : St -> A -> nat -> St)
         (i : nat) (l : list A) (acc : St) : St :=
  match l with
  | [] => acc
  | x :: l' => forEachFrom f (S i) l' (f acc x i)
  end.

Definition forEach {A St : Type} (f : St -> A -> nat -> St)
           (l : list A) (acc : St) : St :=
  forEachFrom f 0 l acc.

End JS.

Import JS.
Local Open Scope string_scope.


(* ================================================================== *)
(** ** Relevance scoring: [server.js] and the benchmark script *)
(* ================================================================== *)

Module Scorer.

Import JS.
Local Open Scope string_scope.

(** A result row, reduced to the three columns the scorers read.  [None]
    stands for a column that is [null] or missing from the row. *)
Record Row : Type := mkRow {
  title : option string;
  description : option string;
  brand : option string }.

(** [x || ''] for a string-or-null [x]. *)
Definition orEmpty (x : option string) : string :=
  match x with
  | Some s => s
  | None => ""
  end.

(** The [results] argument of the scorers; [None] is [null] or
    [undefined]. *)
Definition Results : Type := option (list Row).

(** [Math.min(a, b)] on exact numbers. *)
Definition Math_min (a b : Q) : Q := if Qle_bool a b then a else b.

(** [Math.round(x)]: the nearest integer, halves upwards. *)
Definition Math_round (x : Q) : Z := Qfloor (x + (1 # 2))%Q.

(** *** [calculateRelevanceScore] (server.js) *)

(** [query.toLowerCase().split(/\s+/)] *)
Definition queryTermsOf (query : string) : list string :=
  splitWhitespace (toLowerCase query).

(** The two counters updated by the first [queryTerms.forEach]. *)
Record TermTally : Type := mkTally {
  matchScore : Z;
  termMatches : Z }.

(** One iteration of that loop.  [None] propagates a term whose word
    pattern is outside the model of [RegExp]. *)
Definition tallyTerm (text : string) (acc : option TermTally) (term : string)
  : option TermTally :=
  match acc with
  | None => None
  | Some t =>
      if includes text term then
        match wordBoundaryTest term text with
        | Some true =>
            Some (mkTally (matchScore t + 2)%Z (termMatches t + 1)%Z)
        | Some false =>
            Some (mkTally (matchScore t + 1)%Z (termMatches t + 1)%Z)
        | None => None
        end
      else Some t
  end.

(** The second [queryTerms.forEach]: 3 points per term found in the title. *)
Definition titleBonusOf (lowTitle : string) (queryTerms : list string) : Z :=
  fold_left
    (fun titleBonus term =>
       if includes lowTitle term then (titleBonus + 3)%Z else titleBonus)
    queryTerms 0%Z.

(** [`${result.title || ''} ${result.description || ''} ${result.brand || ''}`.toLowerCase()] *)
Definition textOf (result : Row) : string :=
  toLowerCase (orEmpty (title result) ++ " " ++
               orEmpty (description result) ++ " " ++
               orEmpty (brand result)).

(** The body of [results.forEach((result, position) => ...)]: the value
    added to [totalScore]. *)
Definition resultScore (queryTerms : list string) (result : Row) (position : nat)
  : option Q :=
  let text := textOf result in
  match fold_left (tallyTerm text) queryTerms (Some (mkTally 0 0)) with
  | None => None
  | Some t =>
      let termCoverage :=
        (inject_Z (termMatches t) / inject_Z (Z.of_nat (length queryTerms)))%Q in
      let positionWeight := (1 / inject_Z (Z.of_nat position + 1))%Q in
      let lowTitle := toLowerCase (orEmpty (title result)) in
      let titleBonus := titleBonusOf lowTitle queryTerms in
      Some (inject_Z (matchScore t + titleBonus) * termCoverage * positionWeight)%Q
  end.

Definition addResultScore (queryTerms : list string)
           (totalScore : option Q) (result : Row) (position : nat) : option Q :=
  match totalScore, resultScore queryTerms result position with
  | Some total, Some r => Some (total + r)%Q
  | _, _ => None
  end.

Definition calculateRelevanceScore (results : Results) (query : string)
  : option Q :=
  match results with
  | None => Some 0%Q
  | Some [] => Some 0%Q
  | Some rs =>
      let queryTerms := queryTermsOf query in
      match forEach (addResultScore queryTerms) rs (Some 0%Q) with
      | None => None
      | Some totalScore =>
          let maxPossibleScore :=
            inject_Z (Z.of_nat (length rs) * Z.of_nat (length queryTerms) * 5) in
          Some (Math_min 100 (totalScore / maxPossibleScore * 100))%Q
      end
  end.

(** *** [calculateNDCG] (server.js) *)

(** One iteration of the [queryTerms.forEach] inside [topK.map]. *)
Definition gradeTerm (result : Row) (score : Z) (term : string) : Z :=
  let score :=
    if includes (toLowerCase (orEmpty (title result))) term
    then (score + 3)%Z else score in
  let score :=
    if includes (toLowerCase (orEmpty (description result))) term
    then (score + 1)%Z else score in
  let score :=
    if includes (toLowerCase (orEmpty (brand result))) term
    then (score + 2)%Z else score in
  score.

(** The callback of [topK.map]: [score / (queryTerms.length * 6)]. *)
Definition relevanceOf (queryTerms : list string) (result : Row) : Q :=
  (inject_Z (fold_left (gradeTerm result) queryTerms 0%Z)
   / inject_Z (Z.of_nat (length queryTerms) * 6))%Q.

(** [Math.log2] *)
Definition Math_log2 (x : R) : R := (ln x / ln 2)%R.

(** [Math.pow(2, y)] *)
Definition Math_pow2 (y : R) : R := Rpower 2%R y.

(** The body shared by the two [forEach((score, i) => ...)] loops that
    accumulate [dcg] and [idcg]. *)
Definition addGain (acc : R) (score : Q) (i : nat) : R :=
  let position := (i + 1)%nat in
  (acc + (Math_pow2 (Q2R score) - 1) / Math_log2 (INR (position + 1)))%R.

Definition dcgOf (scores : list Q) : R := forEach addGain scores 0%R.

(** [arr.sort(cmp)].  The language requires the sort to be stable, and for
    a consistent comparator the outcome is the one sorted arrangement that
    keeps equal elements in their original order; a stable insertion sort
    computes it.  [x] goes in front of [y] when [cmp x y <= 0]. *)
Fixpoint insertBy (cmp : Q -> Q -> Q) (x : Q) (l : list Q) : list Q :=
  match l with
  | [] => [x]
  | y :: l' => if Qle_bool (cmp x y) 0%Q then x :: l else y :: insertBy cmp x l'
  end.

Definition sortBy (cmp : Q -> Q -> Q) (l : list Q) : list Q :=
  fold_right (insertBy cmp) [] l.

(** The comparator [(a, b) => b - a]. *)
Definition descending (a b : Q) : Q := (b - a)%Q.

(** The relevance grades of the first [k] results. *)
Definition relevanceScoresOf (rs : list Row) (query : string) (k : nat) : list Q :=
  map (relevanceOf (queryTermsOf query)) (firstn k rs).

(** [calculateNDCG(results, query, k)]; [k] defaults to 10 and no caller
    passes another value. *)
Definition calculateNDCG (results : Results) (query : string) (k : nat) : R :=
  match results with
  | None => 0%R
  | Some [] => 0%R
  | Some rs =>
      let relevanceScores := relevanceScoresOf rs query k in
      let dcg := dcgOf relevanceScores in
      let sortedScores := sortBy descending relevanceScores in
      let idcg := dcgOf sortedScores in
      if Req_dec_T idcg 0%R then 0%R else (dcg / idcg * 100)%R
  end.

Definition defaultK : nat := 10.

(** *** [calculateRelevance] (benchmark script) *)

(** The search terms: the text after the colon for a [field:term] query,
    otherwise the lower-cased query without punctuation, split at white
    space. *)
Definition searchTermsOf (query : string) : list string :=
  if includes query ":" then
    let fieldQuery := splitChar ":" query in
    if (length fieldQuery =? 2)%nat
    then [toLowerCase (nth 1 fieldQuery "")]
    else splitWhitespace (stripPunctuation (toLowerCase query))
  else splitWhitespace (stripPunctuation (toLowerCase query)).

(** One iteration of [searchTerms.forEach]. *)
Definition matchTerm (text : string) (acc : option Z) (term : string) : option Z :=
  match acc with
  | None => None
  | Some matchScore =>
      if includes text term then
        let matchScore := (matchScore + 2)%Z in
        match wordBoundaryTest term text with
        | Some true => Some (matchScore + 3)%Z
        | Some false => Some matchScore
        | None => None
        end
      else Some matchScore
  end.

(** [`${result.title || ''} ${result.brand || ''} ${result.description || ''}`.toLowerCase()] *)
Definition benchTextOf (result : Row) : string :=
  toLowerCase (orEmpty (title result) ++ " " ++
               orEmpty (brand result) ++ " " ++
               orEmpty (description result)).

Definition addMatchScore (searchTerms : list string)
           (totalScore : option Q) (result : Row) (position : nat) : option Q :=
  match totalScore, fold_left (matchTerm (benchTextOf result)) searchTerms (Some 0%Z) with
  | Some total, Some matchScore =>
      let positionWeight := (1 / inject_Z (Z.of_nat position + 1))%Q in
      Some (total + inject_Z matchScore * positionWeight)%Q
  | _, _ => None
  end.

Definition calculateRelevance (results : Results) (query : string) : option Z :=
  match results with
  | None => Some 0%Z
  | Some [] => Some 0%Z
  | Some rs =>
      let searchTerms := searchTermsOf query in
      match forEach (addMatchScore searchTerms) rs (Some 0%Q) with
      | None => None
      | Some totalScore => Some (Math_round totalScore)
      end
  end.

(** *** Notions used to state the properties of the scorers *)

(** The relevance grades are in descending order. *)
Fixpoint isDescending (l : list Q) : bool :=
  match l with
  | [] => true
  | x :: l' =>
      match l' with
      | [] => true
      | y :: _ => Qle_bool y x && isDescending l'
      end
  end.

(** The gain [2^score - 1] of a relevance grade. *)
Definition gain (s : Q) : R := (Math_pow2 (Q2R s) - 1)%R.

(** The summand of [dcg] and [idcg] for the score at index [i]. *)
Definition gainAt (i : nat) (score : Q) : R :=
  ((Math_pow2 (Q2R score) - 1) / Math_log2 (INR (i + 1 + 1)))%R.

(** The sum the [forEach] loop adds to its accumulator when it starts at
    index [i]. *)
Fixpoint dcgFrom (i : nat) (scores : list Q) : R :=
  match scores with
  | [] => 0%R
  | s :: rest => (gainAt i s + dcgFrom (S i) rest)%R
  end.

(** [idcg] as [calculateNDCG] computes it from the result set. *)
Definition idcgOf (rs : list Row) (query : string) (k : nat) : R :=
  dcgOf (sortBy descending (relevanceScoresOf rs query k)).

(** Some grade is positive. *)
Definition somePositive (l : list Q) : bool :=
  existsb (fun s => negb (Qle_bool s 0%Q)) l.

(** How many of the terms occur in [text] only inside longer words, and
    how many occur as whole words. *)
Definition isSubstringOnly (text term : string) : bool :=
  includes text term &&
  match wordBoundaryTest term text with
  | Some false => true
  | _ => false
  end.

Definition isWholeWord (text term : string) : bool :=
  includes text term &&
  match wordBoundaryTest term text with
  | Some true => true
  | _ => false
  end.

Definition countZ {A : Type} (p : A -> bool) (l : list A) : Z :=
  Z.of_nat (length (filter p l)).

(** *** Concrete result sets used in the examples *)

Definition samsungPhone : Row := mkRow (Some "Samsung Galaxy Phone") None None.
Definition appleWatch : Row := mkRow (Some "Apple Watch") None None.

(** For the query "apple": grade 1, grade 1/2 and grade 0. *)
Definition appleFull : Row := mkRow (Some "Apple") (Some "apple") (Some "Apple").
Definition sonyRadio : Row := mkRow (Some "Sony Radio") None None.

(** Eleven results in ideal order, and the same results with the
    second-best one moved behind the top-10 cut. *)
Definition elevenIdeal : list Row :=
  appleFull :: appleWatch :: repeat sonyRadio 9.
Definition elevenReordered : list Row :=
  appleFull :: repeat sonyRadio 9 ++ [appleWatch].

End Scorer.

(* ================================================================== *)
(** ** The statements sent to the two engines *)
(* ================================================================== *)

(** The statement texts of [runVanillaSearch] and [runParadeSearch]
    (server.js), character for character; an interpolated value is a
    parameter of the definition. *)
Module ServerSql.

Local Open Scope string_scope.

Definition vanillaFulltextSQL : string :=
  "
        SELECT id, asin, title, description, price, brand, categories,
               ts_rank(to_tsvector('english', COALESCE(title, '') || ' ' || COALESCE(description, '') || ' ' || COALESCE(brand, '')), 
                      plainto_tsquery('english', $1)) as rank_score
        FROM products
        WHERE to_tsvector('english', COALESCE(title, '') || ' ' || COALESCE(description, '') || ' ' || COALESCE(brand, '')) 
              @@ plainto_tsquery('english', $1)
        ORDER BY ts_rank(to_tsvector('english', COALESCE(title, '') || ' ' || COALESCE(description, '') || ' ' || COALESCE(brand, '')), 
                         plainto_tsquery('english', $1)) DESC
        LIMIT 10
        -- Uses: GIN indexes (idx_title_gin, idx_description_gin) + ts_vector + ts_rank".

Definition vanillaBooleanSQL (query pgBoolQuery : string) : string :=
  "
        SELECT id, asin, title, description, price, brand, categories,
               ts_rank(to_tsvector('english', COALESCE(title, '') || ' ' || COALESCE(description, '') || ' ' || COALESCE(brand, '')), 
                      to_tsquery('english', $1)) as rank_score
        FROM products
        WHERE to_tsvector('english', COALESCE(title, '') || ' ' || COALESCE(description, '') || ' ' || COALESCE(brand, '')) 
              @@ to_tsquery('english', $1)
        ORDER BY ts_rank(to_tsvector('english', COALESCE(title, '') || ' ' || COALESCE(description, '') || ' ' || COALESCE(brand, '')), 
                         to_tsquery('english', $1)) DESC
        LIMIT 10
        -- Uses: GIN indexes + ts_query boolean operators (&, |, !)
        -- Original: " ++
  query ++
  " -> PostgreSQL: " ++
  pgBoolQuery.

Definition vanillaFieldSQL (field : string) : string :=
  "
        SELECT id, asin, title, description, price, brand, categories,
               similarity(" ++
  field ++
  ", $1) as similarity_score
        FROM products
        WHERE " ++
  field ++
  " % $1
        ORDER BY similarity(" ++
  field ++
  ", $1) DESC
        LIMIT 10
        -- Uses: pg_trgm GIN index (idx_" ++
  field ++
  "_trgm) + similarity operator
        -- Field-specific search on: " ++
  field.

Definition vanillaLikeSQL : string :=
  "
        SELECT id, asin, title, description, price, brand, categories,
               GREATEST(
                 similarity(title, $1),
                 similarity(description, $1), 
                 similarity(brand, $1)
               ) as max_similarity
        FROM products
        WHERE title % $1 OR description % $1 OR brand % $1
        ORDER BY max_similarity DESC
        LIMIT 10
        -- Uses: pg_trgm GIN indexes for similarity-based pattern matching
        -- Optimized replacement for ILIKE %pattern% queries".

Definition vanillaExactSQL : string :=
  "
        SELECT id, asin, title, description, price, brand, categories,
               ts_rank(to_tsvector('english', COALESCE(title, '') || ' ' || COALESCE(description, '') || ' ' || COALESCE(brand, '')), 
                      phraseto_tsquery('english', $1)) as rank_score
        FROM products
        WHERE to_tsvector('english', COALESCE(title, '') || ' ' || COALESCE(description, '') || ' ' || COALESCE(brand, '')) 
              @@ phraseto_tsquery('english', $1)
        ORDER BY ts_rank(to_tsvector('english', COALESCE(title, '') || ' ' || COALESCE(description, '') || ' ' || COALESCE(brand, '')), 
                         phraseto_tsquery('english', $1)) DESC
        LIMIT 10
        -- Uses: phraseto_tsquery for exact phrase matching with ts_vector".

Definition vanillaDefaultSQL : string :=
  "
        SELECT id, asin, title, description, price, brand, categories,
               ts_rank(to_tsvector('english', COALESCE(title, '') || ' ' || COALESCE(description, '') || ' ' || COALESCE(brand, '')), 
                      plainto_tsquery('english', $1)) as rank_score
        FROM products
        WHERE to_tsvector('english', COALESCE(title, '') || ' ' || COALESCE(description, '') || ' ' || COALESCE(brand, '')) 
              @@ plainto_tsquery('english', $1)
        ORDER BY ts_rank(to_tsvector('english', COALESCE(title, '') || ' ' || COALESCE(description, '') || ' ' || COALESCE(brand, '')), 
                         plainto_tsquery('english', $1)) DESC
        LIMIT 10
        -- Uses: GIN indexes + ts_vector + ts_rank (default full-text)".

Definition paradeFulltextSQL : string :=
  "
        SELECT id, asin, title, description, price, brand, categories,
               paradedb.score(id) as bm25_score
        FROM products
        WHERE products @@@ $1
        ORDER BY bm25_score DESC
        LIMIT 10
        -- BM25 Query with field boosting and scoring".

Definition paradeBooleanSQL (searchQuery : string) : string :=
  "
        SELECT id, asin, title, description, price, brand, categories
        FROM products
        WHERE products @@@ $1
        LIMIT 10
        -- BM25 Boolean Query: " ++
  searchQuery.

Definition paradeFieldSQL : string :=
  "
        SELECT id, asin, title, description, price, brand, categories,
               paradedb.score(id) as bm25_score
        FROM products
        WHERE products @@@ $1
        ORDER BY bm25_score DESC
        LIMIT 10
        -- BM25 Field-specific query with scoring".

Definition paradeFuzzyTermSQL : string :=
  "
          SELECT id, asin, title, description, price, brand, categories
          FROM products
          WHERE id @@@ paradedb.boolean(
            should => ARRAY[
              paradedb.fuzzy_term(field => 'title', value => $1),
              paradedb.fuzzy_term(field => 'description', value => $1),
              paradedb.fuzzy_term(field => 'brand', value => $1)
            ]
          )
          LIMIT 10
          -- ParadeDB: Using fuzzy_term for single word typo correction".

Definition paradeFuzzyMatchSQL : string :=
  "
          SELECT id, asin, title, description, price, brand, categories,
                 CASE WHEN id @@@ paradedb.match(field => 'title', value => $1, distance => 2, conjunction_mode => true) 
                      THEN 'TITLE' ELSE '' END ||
                 CASE WHEN id @@@ paradedb.match(field => 'description', value => $1, distance => 2, conjunction_mode => true) 
                      THEN ' DESC' ELSE '' END ||
                 CASE WHEN id @@@ paradedb.match(field => 'brand', value => $1, distance => 2, conjunction_mode => true) 
                      THEN ' BRAND' ELSE '' END AS match_fields
          FROM products
          WHERE id @@@ paradedb.boolean(
            should => ARRAY[
              paradedb.match(field => 'title', value => $1, distance => 2, conjunction_mode => true),
              paradedb.match(field => 'description', value => $1, distance => 2, conjunction_mode => true),
              paradedb.match(field => 'brand', value => $1, distance => 2, conjunction_mode => true)
            ]
          )
          LIMIT 10
          -- ParadeDB: Multi-word fuzzy search with match field indicators".

Definition paradeExactSQL : string :=
  "
        SELECT id, asin, title, description, price, brand, categories,
               paradedb.score(id) as bm25_score
        FROM products
        WHERE products @@@ $1
        ORDER BY bm25_score DESC
        LIMIT 10
        -- BM25 Phrase Query with boosting and scoring".

Definition paradeDefaultSQL (searchQuery : string) : string :=
  "
        SELECT id, asin, title, description, price, brand, categories
        FROM products
        WHERE products @@@ $1
        LIMIT 10
        -- BM25 Multi-field Phrase Query: " ++
  searchQuery.

End ServerSql.

(** The statement texts of [runVanillaQuery] and [runParadeQuery]
    (benchmark script). *)
Module BenchSql.

Local Open Scope string_scope.

Definition vanillaFulltextSQL : string :=
  "
          SELECT id, title, brand, price,
                 ts_rank(to_tsvector('english', COALESCE(title, '') || ' ' || COALESCE(description, '') || ' ' || COALESCE(brand, '')), 
                        plainto_tsquery('english', $1)) as rank_score
          FROM products
          WHERE to_tsvector('english', COALESCE(title, '') || ' ' || COALESCE(description, '') || ' ' || COALESCE(brand, '')) 
                @@ plainto_tsquery('english', $1)
          ORDER BY rank_score DESC
          LIMIT 10
        ".

Definition vanillaBooleanSQL : string :=
  "
          SELECT id, title, brand, price
          FROM products
          WHERE to_tsvector('english', COALESCE(title, '') || ' ' || COALESCE(description, '') || ' ' || COALESCE(brand, '')) 
                @@ to_tsquery('english', $1)
          LIMIT 10
        ".

Definition vanillaFieldSQL (field : string) : string :=
  "
          SELECT id, title, brand, price,
                 similarity(" ++
  field ++
  ", $1) as sim_score
          FROM products
          WHERE " ++
  field ++
  " % $1
          ORDER BY sim_score DESC
          LIMIT 10
        ".

Definition vanillaFuzzySQL : string :=
  "
          SELECT id, title, brand, price,
                 GREATEST(
                   similarity(title, $1),
                   similarity(description, $1), 
                   similarity(brand, $1)
                 ) as max_similarity
          FROM products
          WHERE title % $1 OR description % $1 OR brand % $1
          ORDER BY max_similarity DESC
          LIMIT 10
        ".

Definition vanillaExactSQL : string :=
  "
          SELECT id, title, brand, price
          FROM products
          WHERE to_tsvector('english', COALESCE(title, '') || ' ' || COALESCE(description, '') || ' ' || COALESCE(brand, '')) 
                @@ phraseto_tsquery('english', $1)
          LIMIT 10
        ".

Definition paradeFulltextSQL : string :=
  "
          SELECT id, title, brand, price,
                 paradedb.score(id) as bm25_score
          FROM products
          WHERE products @@@ $1
          ORDER BY bm25_score DESC
          LIMIT 10
        ".

Definition paradeBooleanSQL : string :=
  "
          SELECT id, title, brand, price
          FROM products
          WHERE products @@@ $1
          LIMIT 10
        ".

Definition paradeFieldSQL : string :=
  "
          SELECT id, title, brand, price,
                 paradedb.score(id) as bm25_score
          FROM products
          WHERE products @@@ $1
          ORDER BY bm25_score DESC
          LIMIT 10
        ".

Definition paradeFuzzyTermSQL : string :=
  "
            SELECT id, title, brand, price
            FROM products
            WHERE id @@@ paradedb.boolean(
              should => ARRAY[
                paradedb.fuzzy_term(field => 'title', value => $1),
                paradedb.fuzzy_term(field => 'description', value => $1),
                paradedb.fuzzy_term(field => 'brand', value => $1)
              ]
            )
            LIMIT 10
          ".

Definition paradeFuzzyMatchSQL : string :=
  "
            SELECT id, title, brand, price
            FROM products
            WHERE id @@@ paradedb.boolean(
              should => ARRAY[
                paradedb.match(field => 'title', value => $1, distance => 2, conjunction_mode => true),
                paradedb.match(field => 'description', value => $1, distance => 2, conjunction_mode => true),
                paradedb.match(field => 'brand', value => $1, distance => 2, conjunction_mode => true)
              ]
            )
            LIMIT 10
          ".

Definition paradeExactSQL : string :=
  "
          SELECT id, title, brand, price,
                 paradedb.score(id) as bm25_score
          FROM products
          WHERE products @@@ $1
          ORDER BY bm25_score DESC
          LIMIT 10
        ".

End BenchSql.

(* ================================================================== *)
(** ** Query dispatch *)
(* ================================================================== *)

(** What the dispatchers of both scripts share: exceptions, the connection
    pools, and the regular-expression rewrites that prepare a parameter. *)
Module Runtime.

Import JS Scorer.
Local Open Scope string_scope.

(** A JavaScript [Error]; only [err.message] is ever read. *)
Record Error : Type := mkError { message : string }.

(** How an awaited call ends: it returns a value, or an exception
    propagates to the caller, or it reached a step the model leaves
    undefined (a query term with pattern syntax given to [new RegExp]). *)
Inductive Outcome (A : Type) : Type :=
| Returned (a : A)
| Thrown (err : Error)
| OutsideModel.

Arguments Returned {A} a.
Arguments Thrown {A} err.
Arguments OutsideModel {A}.

Definition bind {A B : Type} (m : Outcome A) (k : A -> Outcome B) : Outcome B :=
  match m with
  | Returned a => k a
  | Thrown err => Thrown err
  | OutsideModel => OutsideModel
  end.

Notation "x <- m ;; k" := (bind m (fun x => k))
  (at level 61, m at next level, right associativity).

(** [try { body } catch (err) { handler }] *)
Definition tryCatch {A : Type} (body : Outcome A) (handler : Error -> Outcome A)
  : Outcome A :=
  match body with
  | Thrown err => handler err
  | _ => body
  end.

(** A scorer result inside a computation. *)
Definition scored {A : Type} (x : option A) : Outcome A :=
  match x with
  | Some a => Returned a
  | None => OutsideModel
  end.

(** What [pool.query] resolves to: the rows, [rowCount], and the wall-clock
    time in milliseconds that passes between the two readings of the clock
    that bracket the call. *)
Record Reply : Type := mkReply {
  rows : list Row;
  rowCount : Z;
  elapsed : Q }.

Inductive Answer : Type :=
| Resolved (result : Reply)
| Rejected (err : Error).

(** A bound parameter; [None] is [undefined]. *)
Definition Param : Type := option string.

(** [pool.query(text, params)]: an engine is any function from the
    statement and its parameters to an answer. *)
Definition Pool : Type := string -> list Param -> Answer.

(** The regular-expression rewrites of the boolean and field branches:
    [toPgBool] is the chain of [replace] calls of [runVanillaSearch] that
    turns AND, OR and NOT into ts_query operators, [benchToPgBool] the
    shorter chain of [runVanillaQuery], [toParadeBool] the
    [replace(/(\w+)(?!:)/g, ...)] of both parade dispatchers, and
    [dropFieldPrefix] is [query.replace(/\w+:/, '')].  Each only prepares
    the text bound to [$1]; they are parameters of the model. *)
Record Rewrites : Type := mkRewrites {
  toPgBool : string -> string;
  benchToPgBool : string -> string;
  toParadeBool : string -> string;
  dropFieldPrefix : string -> string }.

(** The double-quote character of the phrase queries. *)
Definition dq : string := String (ascii_of_nat 34) EmptyString.

(** [!x] for a string-or-undefined [x]: the empty string is falsy too. *)
Definition falsy (x : option string) : bool :=
  match x with
  | None => true
  | Some s => s =? ""
  end.

End Runtime.

(** *** [server.js]: [runVanillaSearch], [runParadeSearch], [/api/benchmark] *)

Module Server.

Import JS Scorer Runtime ServerSql.
Local Open Scope string_scope.

(** The object a dispatcher returns, and the one the handler builds in its
    [catch] blocks; [None] is a property the object does not have. *)
Record SearchResult : Type := mkSearchResult {
  results : list Row;
  duration : Q;
  count : Z;
  actualQuery : option string;
  params : option (list Param);
  searchQuery : option string;
  engine : option string;
  error : option string }.

(** [{ results: [], duration: 0, count: 0, error: err.message }] *)
Definition errorResult (err : Error) : SearchResult :=
  mkSearchResult [] 0%Q 0%Z None None None None (Some (message err)).

(** The [switch] of [runVanillaSearch].  Every case assigns [actualQuery]
    and [params] and then awaits [vanillaPool.query(actualQuery, params)];
    the model computes the pair here and makes the call once, below. *)
Definition vanillaSwitch (rw : Rewrites) (query searchType : string)
  : string * list Param :=
  if searchType =? "fulltext" then
    (vanillaFulltextSQL, [Some query])
  else if searchType =? "boolean" then
    let pgBoolQuery := toPgBool rw query in
    (vanillaBooleanSQL query pgBoolQuery, [Some pgBoolQuery])
  else if searchType =? "field" then
    let field :=
      if includes query "title:" then "title"
      else if includes query "description:" then "description"
      else if includes query "brand:" then "brand"
      else "title" in
    let searchTerm := dropFieldPrefix rw query in
    (vanillaFieldSQL field, [Some searchTerm])
  else if searchType =? "like" then
    (vanillaLikeSQL, [Some query])
  else if searchType =? "exact" then
    (vanillaExactSQL, [Some query])
  else
    (* default: *)
    (vanillaDefaultSQL, [Some query]).

Definition runVanillaSearch (rw : Rewrites) (vanillaPool : Pool)
           (query searchType : string) : Outcome SearchResult :=
  let '(actualQuery, params) := vanillaSwitch rw query searchType in
  match vanillaPool actualQuery params with
  | Rejected err => Thrown err
  | Resolved result =>
      Returned
        (mkSearchResult (rows result) (elapsed result) (rowCount result)
           (Some (trim actualQuery)) (Some params) None
           (Some "PostgreSQL Full-Text Search") None)
  end.

(** The [switch] of [runParadeSearch]: [searchQuery], [actualQuery] and
    [params] as each case leaves them. *)
Definition paradeSwitch (rw : Rewrites) (query searchType : string)
  : string * string * list Param :=
  if searchType =? "fulltext" then
    let searchQuery :=
      "title:" ++ query ++ "^2 OR description:" ++ query ++
      " OR brand:" ++ query ++ "^1.5" in
    (searchQuery, paradeFulltextSQL, [Some searchQuery])
  else if searchType =? "boolean" then
    let paradeQuery := toParadeBool rw query in
    let searchQuery := paradeQuery in
    (searchQuery, paradeBooleanSQL searchQuery, [Some paradeQuery])
  else if searchType =? "field" then
    let searchQuery := query in
    (searchQuery, paradeFieldSQL, [Some query])
  else if searchType =? "like" then
    let isSingleWord := negb (includes query " ") in
    let actualQuery :=
      if isSingleWord then paradeFuzzyTermSQL else paradeFuzzyMatchSQL in
    let searchQuery :=
      if isSingleWord then "fuzzy_term: " ++ query
      else "fuzzy match: " ++ query in
    (searchQuery, actualQuery, [Some query])
  else if searchType =? "exact" then
    let searchQuery :=
      "title:" ++ dq ++ query ++ dq ++ "^2 OR description:" ++ dq ++ query ++ dq ++
      " OR brand:" ++ dq ++ query ++ dq ++ "^1.5" in
    (searchQuery, paradeExactSQL, [Some searchQuery])
  else
    (* default: *)
    let searchQuery :=
      "title:" ++ dq ++ query ++ dq ++ " OR description:" ++ dq ++ query ++ dq ++
      " OR brand:" ++ dq ++ query ++ dq in
    (searchQuery, paradeDefaultSQL searchQuery, [Some searchQuery]).

Definition runParadeSearch (rw : Rewrites) (paradePool : Pool)
           (query searchType : string) : Outcome SearchResult :=
  let '(searchQuery, actualQuery, params) := paradeSwitch rw query searchType in
  match paradePool actualQuery params with
  | Rejected err => Thrown err
  | Resolved result =>
      Returned
        (mkSearchResult (rows result) (elapsed result) (rowCount result)
           (Some (trim actualQuery)) (Some params)
           (Some (if searchQuery =? "" then query else searchQuery))
           (Some "ParadeDB BM25 Search") None)
  end.

(** The JSON body of a request to [/api/benchmark]. *)
Record RequestBody : Type := mkRequestBody {
  bodyQuery : option string;
  bodySearchType : option string }.

(** One engine's entry of the response.  The scores are kept as numbers;
    their rendering with [toFixed(1)] is not modelled. *)
Record EngineReport : Type := mkEngineReport {
  searchResult : SearchResult;
  relevanceScore : Q;
  ndcgScore : R }.

Record BenchmarkReport : Type := mkBenchmarkReport {
  reportQuery : string;
  reportSearchType : string;
  vanilla : EngineReport;
  parade : EngineReport;
  speedup : option Q;
  accuracyWinner : string;
  accuracyDiff : R }.

Inductive Response : Type :=
| Status400 (msg : string)
| Status200 (body : BenchmarkReport).

(** The comparison of the two NDCG scores. *)
Definition accuracyOf (vanillaNDCG paradeNDCG : R) : string * R :=
  if Rlt_dec (paradeNDCG + 5)%R vanillaNDCG then
    ("vanilla", (vanillaNDCG - paradeNDCG)%R)
  else if Rlt_dec (vanillaNDCG + 5)%R paradeNDCG then
    ("parade", (paradeNDCG - vanillaNDCG)%R)
  else ("tie", 0%R).

Definition speedupOf (vanillaDuration paradeDuration : Q) : option Q :=
  if negb (Qle_bool vanillaDuration 0%Q) && negb (Qle_bool paradeDuration 0%Q)
  then Some (vanillaDuration / paradeDuration)%Q
  else None.

(** [app.post('/api/benchmark', ...)].  The outer [try] turns whatever
    still propagates into a 500 answer; in the model nothing propagates
    past the two inner [catch] blocks, so the only other way out is
    [OutsideModel]. *)
Definition benchmarkHandler (rw : Rewrites) (vanillaPool paradePool : Pool)
           (body : RequestBody) : Outcome Response :=
  let searchType :=
    match bodySearchType body with
    | Some st => st
    | None => "fulltext"
    end in
  if falsy (bodyQuery body) then Returned (Status400 "Query is required")
  else
    let query := orEmpty (bodyQuery body) in
    vanilla <- tryCatch (runVanillaSearch rw vanillaPool query searchType)
                 (fun err => Returned (errorResult err)) ;;
    parade <- tryCatch (runParadeSearch rw paradePool query searchType)
                (fun err => Returned (errorResult err)) ;;
    vanillaRelevance <- scored (calculateRelevanceScore (Some (results vanilla)) query) ;;
    paradeRelevance <- scored (calculateRelevanceScore (Some (results parade)) query) ;;
    let vanillaNDCG := calculateNDCG (Some (results vanilla)) query defaultK in
    let paradeNDCG := calculateNDCG (Some (results parade)) query defaultK in
    let '(accuracyWinner, accuracyDiff) := accuracyOf vanillaNDCG paradeNDCG in
    Returned
      (Status200
         (mkBenchmarkReport query searchType
            (mkEngineReport vanilla vanillaRelevance vanillaNDCG)
            (mkEngineReport parade paradeRelevance paradeNDCG)
            (speedupOf (duration vanilla) (duration parade))
            accuracyWinner accuracyDiff)).

(** The search types for which the two dispatchers have a [case]. *)
Definition handled (searchType : string) : bool :=
  existsb (String.eqb searchType) ["fulltext"; "boolean"; "field"; "like"; "exact"].

(** A statement without its last line, which in every statement of the
    dispatchers is a comment. *)
Definition newline : ascii := ascii_of_nat 10.

Definition dropLastLine (s : string) : string :=
  String.concat (String newline EmptyString) (removelast (splitChar newline s)).

(** The phrase query of the [default] case of [runParadeSearch]. *)
Definition phraseQuery (query : string) : string :=
  "title:" ++ dq ++ query ++ dq ++ " OR description:" ++ dq ++ query ++ dq ++
  " OR brand:" ++ dq ++ query ++ dq.

(** Pools used in the examples: one that is down, one that answers every
    statement with a single row. *)
Definition downPool : Pool := fun _ _ => Rejected (mkError "connection refused").
Definition oneRowPool : Pool :=
  fun _ _ => Resolved (mkReply [appleWatch] 1 (7 # 2)).
Definition noRewrites : Rewrites :=
  mkRewrites (fun q => q) (fun q => q) (fun q => q) (fun q => q).

End Server.

(** *** The benchmark script: [runVanillaQuery], [runParadeQuery], the read
    loop of [runBenchmark] *)

Module Bench.

Import JS Scorer Runtime BenchSql.
Local Open Scope string_scope.

Record QueryResult : Type := mkQueryResult {
  duration : Z;
  count : Z;
  results : list Row;
  error : option string }.

(** [{ duration: 0, count: 0, results: [], error: err.message }] *)
Definition errorResult (err : Error) : QueryResult :=
  mkQueryResult 0 0 [] (Some (message err)).

(** Reading [result.rowCount] while [result] is still [undefined]. *)
Definition undefinedResult : Error :=
  mkError "Cannot read properties of undefined (reading 'rowCount')".

(** The part of a dispatcher after its [switch]: the call is awaited inside
    the [try], so a rejection is answered by the [catch] block; when no
    case matched, no call was made and [result] is [undefined]. *)
Definition execute (pool : Pool) (request : option (string * list Param))
  : Outcome QueryResult :=
  match request with
  | Some (text, params) =>
      match pool text params with
      | Rejected err => Returned (errorResult err)
      | Resolved result =>
          Returned
            (mkQueryResult (Math_round (elapsed result)) (rowCount result)
               (rows result) None)
      end
  | None => Thrown undefinedResult
  end.

(** The [switch] of [runVanillaQuery]: the statement and parameters of the
    case that matches, if any.  There is no [default]. *)
Definition vanillaSwitch (rw : Rewrites) (query searchType : string)
  : option (string * list Param) :=
  if searchType =? "fulltext" then
    Some (vanillaFulltextSQL, [Some query])
  else if searchType =? "boolean" then
    let pgBoolQuery := benchToPgBool rw query in
    Some (vanillaBooleanSQL, [Some pgBoolQuery])
  else if searchType =? "field" then
    let parts := splitChar ":" query in
    let field := nth 0 parts "" in
    let term := nth_error parts 1 in
    Some (vanillaFieldSQL field, [term])
  else if searchType =? "fuzzy" then
    Some (vanillaFuzzySQL, [Some query])
  else if searchType =? "exact" then
    Some (vanillaExactSQL, [Some query])
  else None.

Definition runVanillaQuery (rw : Rewrites) (vanillaPool : Pool)
           (query searchType : string) : Outcome QueryResult :=
  execute vanillaPool (vanillaSwitch rw query searchType).

Definition paradeSwitch (rw : Rewrites) (query searchType : string)
  : option (string * list Param) :=
  if searchType =? "fulltext" then
    let terms := splitChar " " query in
    let searchQuery :=
      if (length terms =? 1)%nat then
        "title:" ++ query ++ "^2 OR description:" ++ query ++
        " OR brand:" ++ query ++ "^1.5"
      else
        "(title:" ++ dq ++ query ++ dq ++ ")^2 OR (description:" ++ dq ++ query ++ dq ++
        ") OR (brand:" ++ dq ++ query ++ dq ++ ")^1.5" in
    Some (paradeFulltextSQL, [Some searchQuery])
  else if searchType =? "boolean" then
    let paradeQuery := toParadeBool rw query in
    Some (paradeBooleanSQL, [Some paradeQuery])
  else if searchType =? "field" then
    Some (paradeFieldSQL, [Some query])
  else if searchType =? "fuzzy" then
    let isSingleWord := negb (includes query " ") in
    if isSingleWord then Some (paradeFuzzyTermSQL, [Some query])
    else Some (paradeFuzzyMatchSQL, [Some query])
  else if searchType =? "exact" then
    let exactQuery :=
      "title:" ++ dq ++ query ++ dq ++ "^2 OR description:" ++ dq ++ query ++ dq ++
      " OR brand:" ++ dq ++ query ++ dq ++ "^1.5" in
    Some (paradeExactSQL, [Some exactQuery])
  else None.

Definition runParadeQuery (rw : Rewrites) (paradePool : Pool)
           (query searchType : string) : Outcome QueryResult :=
  execute paradePool (paradeSwitch rw query searchType).

Definition testQueries : list (string * list string) :=
  [ ("fulltext",
     ["wireless headphones"; "apple iphone"; "samsung galaxy"; "laptop computer";
      "digital camera"; "bluetooth speaker"; "gaming mouse"; "mechanical keyboard";
      "smart watch"; "4k monitor"; "coffee maker"; "air fryer"]);
    ("boolean",
     ["laptop AND gaming"; "phone OR tablet"; "camera NOT digital";
      "wireless AND (headphones OR earbuds)"; "apple OR microsoft OR google";
      "laptop AND (dell OR hp OR lenovo)"; "gaming AND keyboard AND mechanical";
      "speaker AND bluetooth AND waterproof"]);
    ("field",
     ["title:iphone"; "brand:samsung"; "title:laptop"; "brand:apple";
      "description:wireless"; "title:camera"; "brand:sony"; "title:headphones";
      "description:gaming"; "brand:microsoft"]);
    ("fuzzy",
     ["samsu"; "iphon"; "wireles heaphones"; "blutooth speker"; "mechenical keybord";
      "digtal camra"; "cofee makr"; "laptp computr"; "gamng mous"; "smart wach"]);
    ("exact",
     ["wireless headphones"; "apple iphone"; "samsung galaxy"; "digital camera";
      "bluetooth speaker"; "gaming keyboard"; "4k monitor"; "coffee maker";
      "smart watch"; "air fryer"]) ].

(** [{ totalTime: 0, totalRelevance: 0, queries: 0 }] and its updates. *)
Record Tally : Type := mkTally {
  totalTime : Z;
  totalRelevance : Z;
  queries : Z }.

Record ReadResult : Type := mkReadResult {
  vanilla : Tally;
  parade : Tally }.

(** The line printed for one query. *)
Record LogLine : Type := mkLogLine {
  logQuery : string;
  vanillaMs : Z;
  vanillaRel : Z;
  paradeMs : Z;
  paradeRel : Z }.

(** [if (!result.error) { ... }] *)
Definition tally (t : Tally) (result : QueryResult) (relevance : Z) : Tally :=
  if falsy (error result)
  then mkTally (totalTime t + duration result) (totalRelevance t + relevance)
               (queries t + 1)
  else t.

(** The body of [for (const query of queries.slice(0, 5))]. *)
Definition runQuery (rw : Rewrites) (vanillaPool paradePool : Pool)
           (searchType : string)
           (state : Outcome (ReadResult * list LogLine)) (query : string)
  : Outcome (ReadResult * list LogLine) :=
  st <- state ;;
  vanillaResult <- runVanillaQuery rw vanillaPool query searchType ;;
  paradeResult <- runParadeQuery rw paradePool query searchType ;;
  vanillaRelevance <- scored (calculateRelevance (Some (results vanillaResult)) query) ;;
  paradeRelevance <- scored (calculateRelevance (Some (results paradeResult)) query) ;;
  let line :=
    mkLogLine query (duration vanillaResult) vanillaRelevance
              (duration paradeResult) paradeRelevance in
  Returned
    (mkReadResult (tally (vanilla (fst st)) vanillaResult vanillaRelevance)
                  (tally (parade (fst st)) paradeResult paradeRelevance),
     (snd st ++ [line])%list).

(** The body of [for (const [searchType, queries] of Object.entries(...))]. *)
Definition runSearchType (rw : Rewrites) (vanillaPool paradePool : Pool)
           (state : Outcome (list (string * ReadResult) * list LogLine))
           (entry : string * list string)
  : Outcome (list (string * ReadResult) * list LogLine) :=
  st <- state ;;
  let '(searchType, queries) := entry in
  let fresh := mkReadResult (mkTally 0 0 0) (mkTally 0 0 0) in
  done <- fold_left (runQuery rw vanillaPool paradePool searchType)
            (firstn 5 queries) (Returned (fresh, snd st)) ;;
  Returned ((fst st ++ [(searchType, fst done)])%list, snd done).

(** The read-performance part of [runBenchmark], run over a table of
    queries; the script runs it over [testQueries]. *)
Definition readLoop (rw : Rewrites) (vanillaPool paradePool : Pool)
           (table : list (string * list string))
  : Outcome (list (string * ReadResult) * list LogLine) :=
  fold_left (runSearchType rw vanillaPool paradePool) table (Returned ([], [])).

Definition readBenchmark (rw : Rewrites) (vanillaPool paradePool : Pool)
  : Outcome (list (string * ReadResult) * list LogLine) :=
  readLoop rw vanillaPool paradePool testQueries.

(** The search types for which the dispatchers of the script have a case. *)
Definition handled (searchType : string) : bool :=
  existsb (String.eqb searchType) ["fulltext"; "boolean"; "field"; "fuzzy"; "exact"].

(** The queries of the run, in the order they are sent. *)
Definition queriesRun (table : list (string * list string)) : list string :=
  flat_map (fun entry => firstn 5 (snd entry)) table.

(** Every search term of the query is free of pattern syntax. *)
Definition safeQuery (query : string) : bool :=
  forallb regexSafe (searchTermsOf query).

(** An entry of the table whose search type has a case and whose first
    five queries are safe in that sense. *)
Definition safeEntry (entry : string * list string) : bool :=
  handled (fst entry) && forallb safeQuery (firstn 5 (snd entry)).

End Bench.

(* ================================================================== *)
(** ** Batch ingestion: [ingest-amazon-data.go] *)
(* ================================================================== *)

Module Ingest.

Local Open Scope string_scope.

(** The double-quote character. *)
Definition dq : string := String (ascii_of_nat 34) EmptyString.

(** [strings.ReplaceAll(s, old, new)] for a non-empty [old], which is what
    every call in the file passes: non-overlapping occurrences, left to
    right.  [skip] counts the characters of a replaced occurrence that are
    still to be passed over. *)
Fixpoint replaceFrom (old new : string) (skip : nat) (s : string) : string :=
  match s with
  | EmptyString => EmptyString
  | String c s' =>
      match skip with
      | S k => replaceFrom old new k s'
      | O =>
          if prefix old s
          then new ++ replaceFrom old new (String.length old - 1) s'
          else String c (replaceFrom old new 0 s')
      end
  end.

Definition ReplaceAll (s old new : string) : string := replaceFrom old new 0 s.

(** [strings.Join(elems, sep)] *)
Definition Join (elems : list string) (sep : string) : string :=
  String.concat sep elems.

(** A decoded [interface{}] as the file inspects it.  An element of a
    category list, or a sales rank, is a string, a number, or something
    else; a category is a string, a list of such elements, or something
    else. *)
Inductive Scalar : Type :=
| SString (s : string)
| SNumber (n : Z)
| SOther.

Inductive Category : Type :=
| CString (s : string)
| CList (items : list Scalar)
| COther.

Record Product : Type := mkProduct {
  ASIN : string;
  Title : string;
  Description : string;
  Price : string;
  Brand : string;
  Categories : list Category;
  SalesRank : list (string * Scalar);
  ImageURL : string }.

(** [encoding/json]: the two functions the file calls.  [Unmarshal] gives
    [None] when it returns an error. *)
Record Json : Type := mkJson {
  Marshal : list (string * Scalar) -> string;
  Unmarshal : string -> option Product }.

(** The eight values bound by [stmt.Exec]. *)
Record Row : Type := mkRow {
  asin : string;
  title : string;
  description : string;
  price : string;
  brand : string;
  categories : string;
  sales_rank : string;
  image_url : string }.

(** The store behind [*sql.DB], as far as [insertBatch] can tell: each call
    returns an error or [nil] ([None]).  Whether [stmt.Exec] fails depends
    on the row it is given; a transaction collects the rows whose [Exec]
    succeeded and [Commit] makes them part of the table.  These are the
    stores that do not look at what the transaction has seen before;
    [IngestTx] has the others, PostgreSQL among them. *)
Record Store : Type := mkStore {
  beginErr : option string;
  prepareErr : option string;
  execErr : Row -> option string;
  commitErr : option string }.

(** *** [insertBatch] *)

Definition escapeCategory (str : string) : string :=
  let str := ReplaceAll str "\" "\\" in
  let str := ReplaceAll str dq ("\" ++ dq) in
  str.

Definition categoryStringsOf (cats : list Category) : list string :=
  flat_map
    (fun cat =>
       match cat with
       | CList catList =>
           flat_map
             (fun subCat =>
                match subCat with
                | SString str => [escapeCategory str]
                | _ => []
                end)
             catList
       | CString str => [escapeCategory str]
       | COther => []
       end)
    cats.

Definition categoriesArrayOf (cats : list Category) : string :=
  if (0 <? List.length cats)%nat then
    let categoryStrings := categoryStringsOf cats in
    if (0 <? List.length categoryStrings)%nat
    then "{" ++ dq ++ Join categoryStrings (dq ++ "," ++ dq) ++ dq ++ "}"
    else "{}"
  else "{}".

(** The row [stmt.Exec] receives for product [p]. *)
Definition rowOf (json : Json) (p : Product) : Row :=
  let categoriesArray := categoriesArrayOf (Categories p) in
  let salesRankJSON := Marshal json (SalesRank p) in
  let brand := if Brand p =? "" then "Unknown" else Brand p in
  let price :=
    if (Price p =? "") || (Price p =? "null") then "0" else Price p in
  mkRow (ASIN p) (Title p) (Description p) price brand
        categoriesArray salesRankJSON (ImageURL p).

(** The open transaction: the rows written so far, and what was logged. *)
Record Tx : Type := mkTx {
  written : list Row;
  logged : list string }.

(** The body of [for _, p := range products]. *)
Definition insertProduct (json : Json) (store : Store) (tx : Tx) (p : Product) : Tx :=
  let row := rowOf json p in
  match execErr store row with
  | Some err =>
      (* Log error but continue with other products *)
      let line := "Error inserting product " ++ ASIN p ++ ": " ++ err in
      mkTx (written tx) (logged tx ++ [line])%list
  | None => mkTx (written tx ++ [row])%list (logged tx)
  end.

(** What a call leaves behind: the table, the lines logged, and the error
    returned. *)
Record BatchResult : Type := mkBatchResult {
  table : list Row;
  logLines : list string;
  returned : option string }.

Definition insertBatch (json : Json) (store : Store)
           (db : list Row) (products : list Product) : BatchResult :=
  if (List.length products =? 0)%nat then mkBatchResult db [] None
  else
    match beginErr store with
    | Some err => mkBatchResult db [] (Some err)
    | None =>
        match prepareErr store with
        | Some err => mkBatchResult db [] (Some err)
        | None =>
            let tx := fold_left (insertProduct json store) products (mkTx [] []) in
            match commitErr store with
            | Some err => mkBatchResult db (logged tx) (Some err)
            | None => mkBatchResult (db ++ written tx)%list (logged tx) None
            end
        end
    end.

(** *** [processAmazonData] *)

(** The constants of the file.  [SampleSize = 0] means "process all
    records".  [MaxWorkers] is the size of the pool; the model of the pool,
    [drain] below, covers every number of workers at once. *)
Definition SampleSize : Z := 0.
Definition BatchSize : Z := 5000.
Definition MaxWorkers : Z := 20.

(** The value of a 32-bit signed integer after wrap-around. *)
Definition int32 (z : Z) : Z := ((z + 2 ^ 31) mod 2 ^ 32 - 2 ^ 31)%Z.

(** [atomic.AddInt32(&c, delta)] *)
Definition AddInt32 (c delta : Z) : Z := int32 (c + delta).

(** The producer's variables: the batch being filled, the batches sent on
    [batchChan] so far (oldest first), and the counter. *)
Record Producer : Type := mkProducer {
  batch : list Product;
  batchChan : list (list Product);
  processedCount : Z }.

(** "Convert Python dict format to JSON" *)
Definition jsonLineOf (line : string) : string :=
  let jsonLine := ReplaceAll line "'" dq in
  let jsonLine := ReplaceAll jsonLine "True" "true" in
  let jsonLine := ReplaceAll jsonLine "False" "false" in
  let jsonLine := ReplaceAll jsonLine "None" "null" in
  jsonLine.

(** [product.ASIN != "" && product.Title != ""] *)
Definition forwardable (product : Product) : bool :=
  negb (ASIN product =? "") && negb (Title product =? "").

(** The statements guarded by that test: append, count, and send the batch
    once it is full.  (The progress line printed every 50000 records
    changes no variable.) *)
Definition forward (st : Producer) (product : Product) : Producer :=
  let batch := (batch st ++ [product])%list in
  let processedCount := AddInt32 (processedCount st) 1 in
  if (Z.of_nat (List.length batch) >=? BatchSize)%Z
  then mkProducer [] (batchChan st ++ [batch])%list processedCount
  else mkProducer batch (batchChan st) processedCount.

(** The [for scanner.Scan() && (...)] loop over the lines of the file. *)
Fixpoint scanLoop (json : Json) (lines : list string) (st : Producer) : Producer :=
  match lines with
  | [] => st
  | line :: rest =>
      if negb ((SampleSize =? 0)%Z || (processedCount st <? SampleSize)%Z)
      then st
      else if line =? "" then scanLoop json rest st
      else
        match Unmarshal json (jsonLineOf line) with
        | None => scanLoop json rest st (* Skip malformed lines *)
        | Some product =>
            let st :=
              if forwardable product then forward st product else st in
            if (SampleSize >? 0)%Z && (processedCount st >=? SampleSize)%Z
            then st
            else scanLoop json rest st
        end
  end.

(** The loop, then "Process remaining batch". *)
Definition produce (json : Json) (lines : list string) : Producer :=
  let st := scanLoop json lines (mkProducer [] [] 0) in
  if (0 <? List.length (batch st))%nat
  then mkProducer (batch st) (batchChan st ++ [batch st])%list (processedCount st)
  else st.

(** One worker receiving one batch: [insertBatch], and a log line when it
    returns an error (without the [dbType] the program puts in front of
    it). *)
Definition work (json : Json) (store : Store)
           (db : list Row * list string) (products : list Product)
  : list Row * list string :=
  let r := insertBatch json store (fst db) products in
  let failure :=
    match returned r with
    | Some err => ["Error inserting batch: " ++ err]
    | None => []
    end in
  (table r, (snd db ++ logLines r ++ failure)%list).

(** The worker pool.  Each batch is one transaction, so whatever the
    number of workers and their interleaving, the table they leave is the
    one obtained by committing the batches one after another in some
    order; [order] is that order, a permutation of what was sent. *)
Definition drain (json : Json) (store : Store)
           (order : list (list Product)) (db : list Row) : list Row * list string :=
  fold_left (work json store) order (db, []).

(** The records read from the file: one per non-empty line that decodes. *)
Definition decoded (json : Json) (lines : list string) : list Product :=
  flat_map
    (fun line =>
       if line =? "" then []
       else match Unmarshal json (jsonLineOf line) with
            | Some product => [product]
            | None => []
            end)
    lines.

(** The success of every call on the store. *)
Definition neverFails (store : Store) : Prop :=
  beginErr store = None /\ prepareErr store = None /\
  commitErr store = None /\ forall row, execErr store row = None.

(** [stmt.Exec] succeeds on the row of this product. *)
Definition accepts (json : Json) (store : Store) (p : Product) : bool :=
  match execErr store (rowOf json p) with
  | None => true
  | Some _ => false
  end.

(** The line logged for this product, if its [Exec] fails. *)
Definition failureLine (json : Json) (store : Store) (p : Product) : list string :=
  match execErr store (rowOf json p) with
  | Some err => ["Error inserting product " ++ ASIN p ++ ": " ++ err]
  | None => []
  end.

(** Everything the producer has handed on or is about to. *)
Definition forwarded (st : Producer) : list Product :=
  (concat (batchChan st) ++ batch st)%list.

(** *** Concrete inputs used in the examples *)

Definition book : Product :=
  mkProduct "B000000001" "A Book" "" "" "" [] [] "".
Definition lamp : Product :=
  mkProduct "B000000002" "A Lamp" "" "9.99" "Acme" [CList [SString "Home"]] [] "".
Definition desk : Product :=
  mkProduct "B000000003" "A Desk" "" "null" "" [CString "Home"] [] "".
Definition untitled : Product :=
  mkProduct "B000000004" "" "" "" "" [] [] "".

(** A decoder for lines that are just a product number, and an encoder
    that is never looked at. *)
Definition toyJson : Json :=
  mkJson (fun _ => "null")
         (fun text =>
            if text =? "1" then Some book
            else if text =? "2" then Some lamp
            else if text =? "3" then Some desk
            else if text =? "4" then Some untitled
            else None).

(** A store that takes everything, and one that refuses the lamp. *)
Definition goodStore : Store := mkStore None None (fun _ => None) None.
Definition pickyStore : Store :=
  mkStore None None
          (fun row => if asin row =? "B000000002" then Some "value too long" else None)
          None.

End Ingest.

(* ================================================================== *)
(** ** Notions used to state further properties *)
(* ================================================================== *)

Module ScorerNotions.

Import JS Scorer.
Local Open Scope string_scope.

(** The row with its three columns in lower case. *)
Definition lowerRow (r : Row) : Row :=
  mkRow (option_map toLowerCase (title r))
        (option_map toLowerCase (description r))
        (option_map toLowerCase (brand r)).

(** The term occurs in none, or in each, of title, description and brand
    (all taken in lower case, as [calculateNDCG] does). *)
Definition inNoField (r : Row) (term : string) : bool :=
  negb (includes (toLowerCase (orEmpty (title r))) term) &&
  negb (includes (toLowerCase (orEmpty (description r))) term) &&
  negb (includes (toLowerCase (orEmpty (brand r))) term).

Definition inEveryField (r : Row) (term : string) : bool :=
  includes (toLowerCase (orEmpty (title r))) term &&
  includes (toLowerCase (orEmpty (description r))) term &&
  includes (toLowerCase (orEmpty (brand r))) term.

End ScorerNotions.

Module DispatchNotions.

Import JS Scorer Runtime.
Local Open Scope string_scope.

(** The verdict with the two engines exchanged. *)
Definition swapWinner (winner : string) : string :=
  if winner =? "vanilla" then "parade"
  else if winner =? "parade" then "vanilla"
  else winner.

(** The statements of [runVanillaSearch] and [runParadeSearch] whose text
    is fixed in the source: the query reaches them through [$1] only. *)
Definition fixedVanillaStatements : list string :=
  [ ServerSql.vanillaFulltextSQL;
    ServerSql.vanillaFieldSQL "title";
    ServerSql.vanillaFieldSQL "description";
    ServerSql.vanillaFieldSQL "brand";
    ServerSql.vanillaLikeSQL;
    ServerSql.vanillaExactSQL;
    ServerSql.vanillaDefaultSQL ].

Definition fixedParadeStatements : list string :=
  [ ServerSql.paradeFulltextSQL;
    ServerSql.paradeFieldSQL;
    ServerSql.paradeFuzzyTermSQL;
    ServerSql.paradeFuzzyMatchSQL;
    ServerSql.paradeExactSQL ].

(** Every character of the string satisfies [p]. *)
Fixpoint forallChars (p : ascii -> bool) (s : string) : bool :=
  match s with
  | EmptyString => true
  | String c s' => p c && forallChars p s'
  end.

(** A pool that rejects every statement with the same error, and the
    property of a pool that never rejects. *)
Definition rejecting (err : Error) : Pool := fun _ _ => Rejected err.

Definition neverRejects (pool : Pool) : Prop :=
  forall text params, exists reply, pool text params = Resolved reply.

(** What the two dispatchers and the scorer give for one query of the
    read loop. *)
Record Answers : Type := mkAnswers {
  vanillaAnswer : Bench.QueryResult;
  vanillaScore : Z;
  paradeAnswer : Bench.QueryResult;
  paradeScore : Z }.

Definition answersOf (rw : Rewrites) (vanillaPool paradePool : Pool)
           (searchType query : string) (a : Answers) : Prop :=
  Bench.runVanillaQuery rw vanillaPool query searchType
  = Returned (vanillaAnswer a) /\
  Bench.runParadeQuery rw paradePool query searchType
  = Returned (paradeAnswer a) /\
  calculateRelevance (Some (Bench.results (vanillaAnswer a))) query
  = Some (vanillaScore a) /\
  calculateRelevance (Some (Bench.results (paradeAnswer a))) query
  = Some (paradeScore a).

(** The calls of a run, in order: the search type and the query. *)
Definition callsOf (table : list (string * list string)) : list (string * string) :=
  flat_map (fun entry => map (pair (fst entry)) (firstn 5 (snd entry))) table.

(** The line printed for a call shows what each engine answered to it. *)
Definition recorded (rw : Rewrites) (vanillaPool paradePool : Pool)
           (call : string * string) (line : Bench.LogLine) : Prop :=
  exists a,
    answersOf rw vanillaPool paradePool (fst call) (snd call) a /\
    line = Bench.mkLogLine (snd call)
             (Bench.duration (vanillaAnswer a)) (vanillaScore a)
             (Bench.duration (paradeAnswer a)) (paradeScore a).

(** The tallies of a search type are those of the answers of the two
    engines to its first five queries. *)
Definition tallied (rw : Rewrites) (vanillaPool paradePool : Pool)
           (entry : string * list string) (d : string * Bench.ReadResult) : Prop :=
  fst d = fst entry /\
  exists answers,
    Forall2 (answersOf rw vanillaPool paradePool (fst entry))
            (firstn 5 (snd entry)) answers /\
    snd d
    = Bench.mkReadResult
        (fold_left (fun t a => Bench.tally t (vanillaAnswer a) (vanillaScore a))
                   answers (Bench.mkTally 0 0 0))
        (fold_left (fun t a => Bench.tally t (paradeAnswer a) (paradeScore a))
                   answers (Bench.mkTally 0 0 0)).

End DispatchNotions.

Module IngestNotions.

Import Ingest.
Local Open Scope string_scope.

(** Reading a text in which a backslash makes the next character literal.
    A double quote that is not behind a backslash would end the text, and
    a backslash at the very end has nothing to protect: [None]. *)
Fixpoint readEscaped (s : string) : option string :=
  match s with
  | EmptyString => Some EmptyString
  | String c s' =>
      if (c =? "\")%char then
        match s' with
        | EmptyString => None
        | String d s'' => option_map (String d) (readEscaped s'')
        end
      else if (c =? ascii_of_nat 34)%char then None
      else option_map (String c) (readEscaped s')
  end.

(** The rows a batch adds to the table when it is committed on its own. *)
Definition committed (json : Json) (store : Store) (products : list Product)
  : list Row :=
  table (insertBatch json store [] products).

(** No call the store receives for these records fails: [Begin],
    [Prepare] and [Commit], and [Exec] on the row of each record. *)
Definition callsSucceed (json : Json) (store : Store) (records : list Product)
  : Prop :=
  beginErr store = None /\ prepareErr store = None /\ commitErr store = None /\
  forall p, In p records -> execErr store (rowOf json p) = None.

End IngestNotions.

(* ================================================================== *)
(** ** Setting up the tables and the indexes: [ingest-amazon-data.go] *)
(* ================================================================== *)

(** [setupTables], [createIndexesAfterLoad] and the statements of
    [processAmazonData] that follow the load.  The statement texts are
    those of the file, character for character. *)
Module Setup.

Local Open Scope string_scope.

Definition dq : string := Ingest.dq.

Definition dropTableSQL : string :=
  "DROP TABLE IF EXISTS products CASCADE".

Definition createTableSQL : string :=
  "
		CREATE UNLOGGED TABLE products (
			id SERIAL PRIMARY KEY,
			asin VARCHAR(20),
			title TEXT,
			description TEXT,
			price VARCHAR(50),
			brand VARCHAR(200),
			categories TEXT[],
			sales_rank JSONB,
			image_url TEXT,
			created_at TIMESTAMP DEFAULT CURRENT_TIMESTAMP
		)
	".

Definition createPgSearchSQL : string :=
  "CREATE EXTENSION IF NOT EXISTS pg_search".

Definition createPgTrgmSQL : string :=
  "CREATE EXTENSION IF NOT EXISTS pg_trgm".

Definition bm25IndexSQL : string :=
  "
			CREATE INDEX IF NOT EXISTS products_search_idx ON products 
			USING bm25 (id, title, description, brand) 
			WITH (
				key_field='id',
				text_fields='{
					" ++ dq ++ "title" ++ dq ++ ": {
						" ++ dq ++ "tokenizer" ++ dq ++ ": {" ++ dq ++ "type" ++ dq ++ ": " ++ dq ++ "en_stem" ++ dq ++ "},
						" ++ dq ++ "record" ++ dq ++ ": " ++ dq ++ "position" ++ dq ++ ",
						" ++ dq ++ "normalizer" ++ dq ++ ": " ++ dq ++ "lowercase" ++ dq ++ "
					},
					" ++ dq ++ "description" ++ dq ++ ": {
						" ++ dq ++ "tokenizer" ++ dq ++ ": {" ++ dq ++ "type" ++ dq ++ ": " ++ dq ++ "en_stem" ++ dq ++ "},
						" ++ dq ++ "record" ++ dq ++ ": " ++ dq ++ "position" ++ dq ++ ",
						" ++ dq ++ "normalizer" ++ dq ++ ": " ++ dq ++ "lowercase" ++ dq ++ "
					},
					" ++ dq ++ "brand" ++ dq ++ ": {
						" ++ dq ++ "tokenizer" ++ dq ++ ": {" ++ dq ++ "type" ++ dq ++ ": " ++ dq ++ "raw" ++ dq ++ "},
						" ++ dq ++ "record" ++ dq ++ ": " ++ dq ++ "basic" ++ dq ++ ",
						" ++ dq ++ "normalizer" ++ dq ++ ": " ++ dq ++ "lowercase" ++ dq ++ "
					}
				}'
			)
		".

Definition bm25FallbackSQL : string :=
  "
				CREATE INDEX IF NOT EXISTS products_search_idx ON products 
				USING bm25 (id, title, description, brand) 
				WITH (key_field='id')
			".

Definition indexes : list string :=
  [ "CREATE INDEX CONCURRENTLY IF NOT EXISTS idx_asin ON products(asin)";
    "CREATE INDEX CONCURRENTLY IF NOT EXISTS idx_title_gin ON products USING gin(to_tsvector('english', title))";
    "CREATE INDEX CONCURRENTLY IF NOT EXISTS idx_description_gin ON products USING gin(to_tsvector('english', description))";
    "CREATE INDEX CONCURRENTLY IF NOT EXISTS idx_brand_gin ON products USING gin(to_tsvector('english', brand))";
    "CREATE INDEX CONCURRENTLY IF NOT EXISTS idx_combined_fulltext ON products USING gin(to_tsvector('english', COALESCE(title, '') || ' ' || COALESCE(description, '') || ' ' || COALESCE(brand, '')))";
    "CREATE INDEX CONCURRENTLY IF NOT EXISTS idx_title_trgm ON products USING gin (title gin_trgm_ops)";
    "CREATE INDEX CONCURRENTLY IF NOT EXISTS idx_description_trgm ON products USING gin (description gin_trgm_ops)";
    "CREATE INDEX CONCURRENTLY IF NOT EXISTS idx_brand_trgm ON products USING gin (brand gin_trgm_ops)";
    "CREATE INDEX CONCURRENTLY IF NOT EXISTS idx_price ON products(price)" ].

Definition uniqueConstraintSQL : string :=
  "ALTER TABLE products ADD CONSTRAINT products_asin_unique UNIQUE (asin)".

Definition setLoggedSQL : string :=
  "ALTER TABLE products SET LOGGED".

Definition analyzeSQL : string :=
  "ANALYZE products".

Definition countSQL : string :=
  "SELECT COUNT(*) FROM products".

(** [db.Exec] as these functions see it: the error it returns for a
    statement, or [nil] ([None]). *)
Definition Db : Type := string -> option string.

(** What a run does that can be seen from outside: the statements it
    passes to [db.Exec] and to [db.QueryRow], and the lines it logs to
    report an error.  (Progress lines are left out.) *)
Inductive Event : Type :=
| Exec (text : string)
| QueryRow (text : string)
| Warned (line : string).

Definition Trace (A : Type) : Type := list Event * A.

Definition ret {A : Type} (a : A) : Trace A := ([], a).

Definition bind {A B : Type} (m : Trace A) (k : A -> Trace B) : Trace B :=
  let r := k (snd m) in ((fst m ++ fst r)%list, snd r).

Notation "x <- m ;; k" := (bind m (fun x => k))
  (at level 61, m at next level, right associativity).

Definition exec (db : Db) (text : string) : Trace (option string) :=
  ([Exec text], db text).

(** [if err != nil { log.Printf(prefix + "%v", err) }] *)
Definition warnIf (prefix : string) (err : option string) : Trace unit :=
  match err with
  | Some e => ([Warned (prefix ++ e)], tt)
  | None => ret tt
  end.

Definition setupTables (db : Db) (isParadeDB : bool) : Trace (option string) :=
  err <- exec db dropTableSQL ;;
  match err with
  | Some e => ret (Some e)
  | None =>
      err <- exec db createTableSQL ;;
      match err with
      | Some e => ret (Some e)
      | None =>
          _ <- (if isParadeDB then
                  err <- exec db createPgSearchSQL ;;
                  warnIf "Warning: Could not create pg_search extension: " err
                else
                  err <- exec db createPgTrgmSQL ;;
                  warnIf "Warning: Could not create pg_trgm extension: " err) ;;
          ret None
      end
  end.

(** [for i, idx := range indexes { ... }] *)
Fixpoint forRange (db : Db) (indexes : list string) : Trace unit :=
  match indexes with
  | [] => ret tt
  | idx :: rest =>
      err <- exec db idx ;;
      _ <- warnIf "Warning: Could not create index: " err ;;
      forRange db rest
  end.

Definition createIndexesAfterLoad (db : Db) (isParadeDB : bool)
  : Trace (option string) :=
  if isParadeDB then
    err <- exec db bm25IndexSQL ;;
    match err with
    | Some e =>
        _ <- warnIf "Warning: Could not create optimized BM25 index: " (Some e) ;;
        (* Fallback to simpler configuration *)
        err <- exec db bm25FallbackSQL ;;
        match err with
        | Some e => ret (Some ("could not create BM25 index: " ++ e))
        | None => ret None
        end
    | None => ret None
    end
  else
    _ <- forRange db indexes ;;
    (* Add unique constraint on asin *)
    err <- exec db uniqueConstraintSQL ;;
    _ <- warnIf "Warning: Could not add unique constraint: " err ;;
    ret None.

(** [processAmazonData] once the workers are done: back to a logged
    table, the indexes, [ANALYZE], and the count. *)
Definition afterLoad (db : Db) (isParadeDB : bool) : Trace unit :=
  let dbType := if isParadeDB then "ParadeDB" else "Vanilla" in
  err <- exec db setLoggedSQL ;;
  _ <- warnIf (dbType ++ ": Warning: Could not convert to logged table: ") err ;;
  err <- createIndexesAfterLoad db isParadeDB ;;
  _ <- warnIf (dbType ++ ": Error creating indexes: ") err ;;
  err <- exec db analyzeSQL ;;
  _ <- warnIf (dbType ++ ": Error analyzing table: ") err ;;
  ([QueryRow countSQL], tt).

(** The statements of a trace, and its warnings. *)
Definition statements (t : list Event) : list string :=
  flat_map
    (fun e => match e with
              | Exec text => [text]
              | QueryRow text => [text]
              | Warned _ => []
              end) t.

Definition warnings (t : list Event) : list string :=
  flat_map
    (fun e => match e with
              | Warned line => [line]
              | _ => []
              end) t.

(** The statement fails on this database. *)
Definition fails (db : Db) (text : string) : bool :=
  match db text with
  | Some _ => true
  | None => false
  end.

(** A database that refuses to build any index, and one that only lacks
    the optimized BM25 configuration. *)
Definition noIndexes : Db :=
  fun text => if JS.includes text "CREATE INDEX" then Some "out of disk" else None.

Definition plainBm25Only : Db :=
  fun text => if text =? bm25IndexSQL then Some "unknown tokenizer" else None.

End Setup.

(* ================================================================== *)
(** ** The write tests of the benchmark script *)
(* ================================================================== *)

(** [testWrites] and [testSingleInserts].  The products come from
    [generateAmazonProducts], which draws on the clock and on
    [Math.random]: here they are an input.  The timings are left out. *)
Module Writes.

Import JS Runtime.
Local Open Scope string_scope.

(** A generated product; [sales_rank] is [null] for two products in
    three. *)
Record Product : Type := mkProduct {
  asin : string;
  title : string;
  description : string;
  price : string;
  brand : string;
  categories : string;
  sales_rank : option string;
  image_url : string }.

(** [`${n}`] for a whole number [n >= 0]. *)
Definition numberToString (n : nat) : string :=
  DecimalString.NilZero.string_of_uint (Nat.to_uint n).

Definition placeholderOf (paramIndex : nat) : string :=
  "($" ++
  numberToString paramIndex ++
  ", $" ++
  numberToString (paramIndex + 1) ++
  ", $" ++
  numberToString (paramIndex + 2) ++
  ", $" ++
  numberToString (paramIndex + 3) ++
  ", $" ++
  numberToString (paramIndex + 4) ++
  ", $" ++
  numberToString (paramIndex + 5) ++
  ", $" ++
  numberToString (paramIndex + 6) ++
  ", $" ++
  numberToString (paramIndex + 7) ++
  ")".

Definition insertBatchSQL (placeholders : list string) : string :=
  "
        INSERT INTO products (asin, title, description, price, brand, categories, sales_rank, image_url)
        VALUES " ++
  String.concat ", " placeholders ++
  "
      ".

Definition insertOneSQL : string :=
  "
        INSERT INTO products (asin, title, description, price, brand, categories, sales_rank, image_url)
        VALUES ($1, $2, $3, $4, $5, $6, $7, $8)
      ".

(** The eight values pushed for one product. *)
Definition valuesOf (product : Product) : list Param :=
  [ Some (asin product); Some (title product); Some (description product);
    Some (price product); Some (brand product); Some (categories product);
    sales_rank product; Some (image_url product) ].

(** [values], [placeholders] and [paramIndex] inside the [try]. *)
Record Builder : Type := mkBuilder {
  values : list Param;
  placeholders : list string;
  paramIndex : nat }.

(** The body of [for (const product of batch)]. *)
Definition pushProduct (b : Builder) (product : Product) : Builder :=
  mkBuilder (values b ++ valuesOf product)%list
            (placeholders b ++ [placeholderOf (paramIndex b)])%list
            (paramIndex b + 8).

(** The statement and the values passed to [pool.query] for a batch. *)
Definition statementOf (batch : list Product) : string * list Param :=
  let b := fold_left pushProduct batch (mkBuilder [] [] 1) in
  (insertBatchSQL (placeholders b), values b).

(** [l.slice(i, j)] for [0 <= i <= j]. *)
Definition slice {A : Type} (l : list A) (i j : nat) : list A :=
  firstn (j - i) (skipn i l).

(** What a test leaves behind: the calls made, in order, and the messages
    printed by the [catch] blocks. *)
Record Run : Type := mkRun {
  sent : list (string * list Param);
  errors : list string }.

(** [try { await pool.query(text, values) } catch (err) { console.error(...) }] *)
Definition send (pool : Pool) (run : Run) (request : string * list Param) : Run :=
  match pool (fst request) (snd request) with
  | Resolved _ => mkRun (sent run ++ [request])%list (errors run)
  | Rejected err =>
      mkRun (sent run ++ [request])%list (errors run ++ [message err])%list
  end.

(** [for (let i = 0; i < products.length; i += batchSize)], from [i] on.
    One unit of fuel is used per pass; [None] when it runs out. *)
Fixpoint batchLoop (fuel : nat) (pool : Pool) (products : list Product)
         (batchSize i : nat) (run : Run) : option Run :=
  if (i <? List.length products)%nat then
    match fuel with
    | O => None
    | S fuel' =>
        let batch := slice products i (i + batchSize) in
        batchLoop fuel' pool products batchSize (i + batchSize)
                  (send pool run (statementOf batch))
    end
  else Some run.

Definition testWrites (fuel : nat) (pool : Pool) (products : list Product)
           (batchSize : nat) : option Run :=
  batchLoop fuel pool products batchSize 0 (mkRun [] []).

(** [testSingleInserts]: the [catch] block ends with [break]. *)
Fixpoint insertEach (pool : Pool) (products : list Product) (run : Run) : Run :=
  match products with
  | [] => run
  | product :: rest =>
      let request := (insertOneSQL, valuesOf product) in
      match pool insertOneSQL (valuesOf product) with
      | Resolved _ =>
          insertEach pool rest (mkRun (sent run ++ [request])%list (errors run))
      | Rejected err =>
          mkRun (sent run ++ [request])%list (errors run ++ [message err])%list
      end
  end.

Definition testSingleInserts (pool : Pool) (products : list Product) : Run :=
  insertEach pool products (mkRun [] []).

(** The call is rejected by the pool. *)
Definition rejected (pool : Pool) (request : string * list Param) : bool :=
  match pool (fst request) (snd request) with
  | Rejected _ => true
  | Resolved _ => false
  end.

(** *** Concrete inputs used in the examples *)

Definition radio (n : nat) : Product :=
  mkProduct ("T" ++ numberToString n) "Sony Radio" "" "19.99" "Sony"
            "{Electronics}" None "".

(** A pool that rejects every call binding the product number 2. *)
Definition noSecond : Pool :=
  fun _ params =>
    if existsb (fun p => match p with
                         | Some s => s =? "T2"
                         | None => false
                         end) params
    then Rejected (mkError "duplicate key")
    else Resolved (mkReply [] 1 0).

End Writes.

(* ================================================================== *)
(** ** [insertBatch] against a store with transactions *)
(* ================================================================== *)

(** [insertBatch] once more, against a store whose answers may depend on
    what the open transaction has already seen.  The stores of [Ingest]
    are the ones that do not look at it ([ofStore]); the store the program
    opens through [lib/pq] is one that does ([postgres]). *)
Module IngestTx.

Import Ingest.
Local Open Scope string_scope.

(** What the open transaction has seen: the row of each [stmt.Exec] so
    far with the error it returned, oldest first. *)
Definition History : Type := list (Row * option string).

Record TxStore : Type := mkTxStore {
  txBeginErr : option string;
  txPrepareErr : option string;
  txExecErr : History -> Row -> option string;
  txCommitErr : History -> option string }.

Record TxState : Type := mkTxState {
  history : History;
  txLogged : list string }.

(** The body of [for _, p := range products]. *)
Definition insertProduct (json : Json) (store : TxStore) (tx : TxState)
           (p : Product) : TxState :=
  let row := rowOf json p in
  match txExecErr store (history tx) row with
  | Some err =>
      (* Log error but continue with other products *)
      let line := "Error inserting product " ++ ASIN p ++ ": " ++ err in
      mkTxState (history tx ++ [(row, Some err)])%list (txLogged tx ++ [line])%list
  | None => mkTxState (history tx ++ [(row, None)])%list (txLogged tx)
  end.

(** The rows of the statements that succeeded: what [Commit] makes part
    of the table when it succeeds. *)
Definition succeeded (h : History) : list Row :=
  flat_map (fun e => match snd e with
                     | None => [fst e]
                     | Some _ => []
                     end) h.

Definition insertBatch (json : Json) (store : TxStore)
           (db : list Row) (products : list Product) : BatchResult :=
  if (List.length products =? 0)%nat then mkBatchResult db [] None
  else
    match txBeginErr store with
    | Some err => mkBatchResult db [] (Some err)
    | None =>
        match txPrepareErr store with
        | Some err => mkBatchResult db [] (Some err)
        | None =>
            let tx :=
              fold_left (insertProduct json store) products (mkTxState [] []) in
            match txCommitErr store (history tx) with
            | Some err => mkBatchResult db (txLogged tx) (Some err)
            | None =>
                mkBatchResult (db ++ succeeded (history tx))%list (txLogged tx) None
            end
        end
    end.

(** A store of [Ingest]: its answers do not depend on the transaction. *)
Definition ofStore (store : Store) : TxStore :=
  mkTxStore (beginErr store) (prepareErr store)
            (fun _ row => execErr store row) (fun _ => commitErr store).

(** A statement of the transaction has failed. *)
Definition failed (h : History) : bool :=
  existsb (fun e => match snd e with
                    | Some _ => true
                    | None => false
                    end) h.

(** A value that does not fit its column of [setupTables]:
    [asin VARCHAR(20)], [price VARCHAR(50)], [brand VARCHAR(200)]. *)
Definition tooLong (row : Row) : option string :=
  if (20 <? String.length (asin row))%nat
  then Some "pq: value too long for type character varying(20)"
  else if (50 <? String.length (price row))%nat
  then Some "pq: value too long for type character varying(50)"
  else if (200 <? String.length (brand row))%nat
  then Some "pq: value too long for type character varying(200)"
  else None.

(** PostgreSQL reached through [lib/pq], the driver the file imports and
    [getDB] opens.  Once a statement of a transaction has failed, the
    server refuses every further statement of that transaction, and
    [Commit] rolls back and reports the failure.  Of the ways a
    statement can fail by itself the value that is too long for its
    column is kept. *)
Definition postgres : TxStore :=
  mkTxStore None None
    (fun h row =>
       if failed h
       then Some ("pq: current transaction is aborted, " ++
                  "commands ignored until end of transaction block")
       else tooLong row)
    (fun h =>
       if failed h
       then Some "pq: Could not complete operation in a failed transaction"
       else None).

(** The record is refused by itself. *)
Definition refused (json : Json) (p : Product) : bool :=
  match tooLong (rowOf json p) with
  | Some _ => true
  | None => false
  end.

(** A record whose ASIN has 21 characters. *)
Definition longAsin : Product :=
  mkProduct "B00000000000000000021" "A Chair" "" "49.00" "Acme" [] [] "".

End IngestTx.
(* ================================================================== *)
(** ** Sanity checks of the primitives on concrete inputs *)
(* ================================================================== *)

Example splitWhitespace_ex1 : splitWhitespace " a  b " = [""; "a"; "b"; ""].
Proof. reflexivity. Qed.
Example splitWhitespace_ex2 : splitWhitespace "" = [""].
Proof. reflexivity. Qed.
Example includes_ex1 : includes "samsung galaxy phone  " "samsu" = true.
Proof. reflexivity. Qed.
Example wb_ex1 : wordBoundaryTest "samsu" "samsung galaxy phone  " = Some false.
Proof. reflexivity. Qed.
Example wb_ex2 : wordBoundaryTest "galaxy" "samsung galaxy phone  " = Some true.
Proof. reflexivity. Qed.
Example wb_ex3 : wordBoundaryTest "" "  " = Some false.
Proof. reflexivity. Qed.
Example wb_ex4 : wordBoundaryTest "" " a" = Some true.
Proof. reflexivity. Qed.
Example trim_ex : trim "  a b  " = "a b".
Proof. reflexivity. Qed.

Example queryTerms_ex : Scorer.queryTermsOf "Apple  iPhone" = ["apple"; "iphone"].
Proof. reflexivity. Qed.

Example searchTerms_field_ex : Scorer.searchTermsOf "title:iPhone" = ["iphone"].
Proof. reflexivity. Qed.

Example searchTerms_boolean_ex :
  Scorer.searchTermsOf "wireless AND (headphones OR earbuds)"
  = ["wireless"; "and"; "headphones"; "or"; "earbuds"].
Proof. reflexivity. Qed.

Example calculateRelevance_ex :
  Scorer.calculateRelevance
    (Some [Scorer.samsungPhone; Scorer.appleWatch]) "apple watch" = Some 5%Z.
Proof. reflexivity. Qed.

Example grades_ex :
  Scorer.relevanceScoresOf
    [Scorer.sonyRadio; Scorer.appleWatch; Scorer.appleFull] "apple" 10
  = [(0 # 6)%Q; (3 # 6)%Q; (6 # 6)%Q].
Proof. reflexivity. Qed.

Example sortBy_ex :
  Scorer.sortBy Scorer.descending [(0 # 6)%Q; (3 # 6)%Q; (6 # 6)%Q; (3 # 6)%Q]
  = [(6 # 6)%Q; (3 # 6)%Q; (3 # 6)%Q; (0 # 6)%Q].
Proof. reflexivity. Qed.

Example vanillaSwitch_field_ex :
  Server.vanillaSwitch Server.noRewrites "brand:sony" "field"
  = (ServerSql.vanillaFieldSQL "brand", [Some "brand:sony"]).
Proof. reflexivity. Qed.

Example bench_field_ex :
  Bench.vanillaSwitch Server.noRewrites "brand:sony" "field"
  = Some (BenchSql.vanillaFieldSQL "brand", [Some "sony"]).
Proof. reflexivity. Qed.

Example bench_like_unhandled_ex :
  Bench.runVanillaQuery Server.noRewrites Server.oneRowPool "samsu" "like"
  = Runtime.Thrown Bench.undefinedResult.
Proof. reflexivity. Qed.

Example handler_no_query_ex :
  Server.benchmarkHandler Server.noRewrites Server.downPool Server.downPool
    (Server.mkRequestBody (Some "") None)
  = Runtime.Returned (Server.Status400 "Query is required").
Proof. reflexivity. Qed.

Example ReplaceAll_ex :
  Ingest.ReplaceAll "{'a': True, 'b': NoneNone}" "None" "null"
  = "{'a': True, 'b': nullnull}".
Proof. reflexivity. Qed.

Example escapeCategory_ex : Ingest.escapeCategory "a\b" = "a\\b".
Proof. reflexivity. Qed.

Example rowOf_defaults_ex :
  Ingest.rowOf Ingest.toyJson Ingest.desk
  = Ingest.mkRow "B000000003" "A Desk" "" "0" "Unknown"
      ("{" ++ Ingest.dq ++ "Home" ++ Ingest.dq ++ "}") "null" "".
Proof. reflexivity. Qed.

Example produce_ex :
  Ingest.produce Ingest.toyJson ["1"; ""; "x"; "4"; "2"]
  = Ingest.mkProducer [Ingest.book; Ingest.lamp] [[Ingest.book; Ingest.lamp]] 2.
Proof. reflexivity. Qed.

Example int32_wraps_ex : Ingest.AddInt32 2147483647 1 = (-2147483648)%Z.
Proof. reflexivity. Qed.

(** *** The set-up and the write tests on small inputs *)

Example placeholderOf_9 :
  Writes.placeholderOf 9 = "($9, $10, $11, $12, $13, $14, $15, $16)"%string.
Proof. reflexivity. Qed.

Example testWrites_two_batches :
  option_map
    (fun run => (List.length (Writes.sent run), Writes.errors run))
    (Writes.testWrites 3 Writes.noSecond
       [Writes.radio 1; Writes.radio 2; Writes.radio 3] 2)
  = Some (2%nat, ["duplicate key"%string]).
Proof. reflexivity. Qed.

Example testSingleInserts_stops :
  List.length
    (Writes.sent
       (Writes.testSingleInserts Writes.noSecond
          [Writes.radio 1; Writes.radio 2; Writes.radio 3]))
  = 2%nat.
Proof. reflexivity. Qed.

Example createIndexes_fallback :
  Setup.createIndexesAfterLoad Setup.plainBm25Only true
  = ([Setup.Exec Setup.bm25IndexSQL;
      Setup.Warned
        "Warning: Could not create optimized BM25 index: unknown tokenizer"%string;
      Setup.Exec Setup.bm25FallbackSQL],
     None).
Proof. reflexivity. Qed.

Example createIndexes_none :
  snd (Setup.createIndexesAfterLoad Setup.noIndexes true)
  = Some "could not create BM25 index: out of disk"%string.
Proof. vm_compute. reflexivity. Qed.

Example readEscaped_bare_quote :
  IngestNotions.readEscaped ("a" ++ Ingest.dq)%string = None /\
  IngestNotions.readEscaped (Ingest.escapeCategory ("a" ++ Ingest.dq)%string)
  = Some ("a" ++ Ingest.dq)%string.
Proof. split; reflexivity. Qed.

(** *** The read loop with the first engine down *)

Example readBenchmark_second_engine_ex :
  match Bench.readBenchmark Server.noRewrites Server.downPool Server.oneRowPool with
  | Runtime.Returned (readResults, log) =>
      forallb (fun line => (Bench.vanillaMs line =? 0)%Z &&
                           (Bench.paradeMs line =? 4)%Z) log &&
      forallb (fun d => (Bench.queries (Bench.vanilla (snd d)) =? 0)%Z &&
                        (Bench.queries (Bench.parade (snd d)) =? 5)%Z &&
                        (Bench.totalTime (Bench.parade (snd d)) =? 20)%Z)
              readResults
  | _ => false
  end = true.
Proof. vm_compute. reflexivity. Qed.

(** *** One refused record, with and without a transaction that fails *)

Example insertBatch_postgres_ex :
  List.length
    (Ingest.table
       (IngestTx.insertBatch Ingest.toyJson IngestTx.postgres []
          [Ingest.book; IngestTx.longAsin; Ingest.desk]))
  = 0%nat /\
  List.length
    (Ingest.table
       (IngestTx.insertBatch Ingest.toyJson
          (IngestTx.ofStore
             (Ingest.mkStore None None IngestTx.tooLong None)) []
          [Ingest.book; IngestTx.longAsin; Ingest.desk]))
  = 2%nat.
Proof. split; reflexivity. Qed.

(* ================================================================== *)
(** ** Properties of the NDCG computation *)
(* ================================================================== *)

Section NDCG_facts.

Import Scorer.
Local Open Scope R_scope.

Lemma ln2_pos : 0 < ln 2.
Proof. rewrite <- ln_1. apply ln_increasing; lra. Qed.

Lemma INR_index_gt1 (i : nat) : 1 < INR (i + 1 + 1).
Proof.
  rewrite !plus_INR. simpl. pose proof (pos_INR i). lra.
Qed.

Lemma log2_index_pos (i : nat) : 0 < Math_log2 (INR (i + 1 + 1)).
Proof.
  unfold Math_log2. apply Rdiv_lt_0_compat; [| apply ln2_pos].
  rewrite <- ln_1. apply ln_increasing; [lra | apply INR_index_gt1].
Qed.

Lemma log2_index_lt (i : nat) :
  Math_log2 (INR (i + 1 + 1)) < Math_log2 (INR (S i + 1 + 1)).
Proof.
  unfold Math_log2. apply Rmult_lt_compat_r.
  - apply Rinv_0_lt_compat, ln2_pos.
  - apply ln_increasing.
    + pose proof (INR_index_gt1 i). lra.
    + apply lt_INR. lia.
Qed.

(** The discount [1 / log2 (i + 2)] is positive and strictly decreasing. *)
Lemma discount_pos (i : nat) : 0 < / Math_log2 (INR (i + 1 + 1)).
Proof. apply Rinv_0_lt_compat, log2_index_pos. Qed.

Lemma discount_decreasing (i : nat) :
  / Math_log2 (INR (S i + 1 + 1)) < / Math_log2 (INR (i + 1 + 1)).
Proof.
  apply Rinv_lt_contravar.
  - apply Rmult_lt_0_compat; apply log2_index_pos.
  - apply log2_index_lt.
Qed.

(** The gain [2^s - 1] is monotone in the grade and vanishes at 0. *)
Lemma gain_zero (s : Q) : (s == 0)%Q -> gain s = 0.
Proof.
  intros H. unfold gain, Math_pow2.
  rewrite (Qeq_eqR _ _ H). change (Q2R 0) with (0 * / 1).
  replace (0 * / 1) with 0 by lra. rewrite Rpower_O; lra.
Qed.

Lemma gain_le (x y : Q) : (x <= y)%Q -> gain x <= gain y.
Proof.
  intros H. unfold gain, Math_pow2. apply Qle_Rle in H.
  assert (Rpower 2 (Q2R x) <= Rpower 2 (Q2R y)); [| lra].
  apply Rle_Rpower; lra.
Qed.

Lemma gain_lt (x y : Q) : (x < y)%Q -> gain x < gain y.
Proof.
  intros H. unfold gain, Math_pow2. apply Qlt_Rlt in H.
  assert (Rpower 2 (Q2R x) < Rpower 2 (Q2R y)); [| lra].
  apply Rpower_lt; lra.
Qed.

Lemma gain_nonneg (x : Q) : (0 <= x)%Q -> 0 <= gain x.
Proof.
  intros H. rewrite <- (gain_zero 0) by reflexivity. now apply gain_le.
Qed.

Lemma gain_pos (x : Q) : (0 < x)%Q -> 0 < gain x.
Proof.
  intros H. rewrite <- (gain_zero 0) by reflexivity. now apply gain_lt.
Qed.

Lemma gainAt_gain (i : nat) (s : Q) :
  gainAt i s = gain s * / Math_log2 (INR (i + 1 + 1)).
Proof. reflexivity. Qed.

(** The loop of [calculateNDCG] computes the sum [dcgFrom]. *)
Lemma forEachFrom_addGain (l : list Q) : forall i acc,
  JS.forEachFrom addGain i l acc = acc + dcgFrom i l.
Proof.
  induction l as [| s l IH]; intros i acc; simpl.
  - lra.
  - rewrite IH. unfold addGain, gainAt. lra.
Qed.

Lemma dcgOf_dcgFrom (l : list Q) : dcgOf l = dcgFrom 0 l.
Proof.
  unfold dcgOf, JS.forEach. rewrite forEachFrom_addGain. lra.
Qed.


(** *** The sort *)

Lemma descending_le (x y : Q) :
  Qle_bool (descending x y) 0 = true <-> (y <= x)%Q.
Proof.
  rewrite Qle_bool_iff. unfold descending. split; intros H; lra.
Qed.

Lemma descending_gt (x y : Q) :
  Qle_bool (descending x y) 0 = false <-> (x < y)%Q.
Proof.
  rewrite <- not_true_iff_false, descending_le. split; intros H; lra.
Qed.

Lemma insertBy_perm (x : Q) (l : list Q) :
  Permutation (x :: l) (insertBy descending x l).
Proof.
  induction l as [| y l IH]; simpl; [reflexivity |].
  destruct (Qle_bool (descending x y) 0); [reflexivity |].
  rewrite perm_swap. now constructor.
Qed.

Lemma sortBy_perm (l : list Q) : Permutation l (sortBy descending l).
Proof.
  induction l as [| x l IH]; simpl; [constructor |].
  rewrite <- insertBy_perm. now constructor.
Qed.

(** Putting [x] at its sorted place never lowers the discounted sum, and
    raises it as soon as [x] moves past a larger grade. *)
Lemma swap_gain (i : nat) (x y : Q) : (x <= y)%Q ->
  gainAt i x + gainAt (S i) y <= gainAt i y + gainAt (S i) x.
Proof.
  intros H. rewrite !gainAt_gain.
  pose proof (gain_le _ _ H). pose proof (discount_decreasing i). nra.
Qed.

Lemma swap_gain_strict (i : nat) (x y : Q) : (x < y)%Q ->
  gainAt i x + gainAt (S i) y < gainAt i y + gainAt (S i) x.
Proof.
  intros H. rewrite !gainAt_gain.
  pose proof (gain_lt _ _ H). pose proof (discount_decreasing i). nra.
Qed.

Lemma dcgFrom_insertBy (x : Q) (l : list Q) : forall i,
  dcgFrom i (x :: l) <= dcgFrom i (insertBy descending x l).
Proof.
  induction l as [| y l IH]; intros i; simpl; [lra |].
  destruct (Qle_bool (descending x y) 0) eqn:E; simpl; [lra |].
  apply descending_gt in E.
  specialize (IH (S i)). simpl in IH.
  pose proof (swap_gain i x y (Qlt_le_weak _ _ E)). lra.
Qed.

Lemma dcgFrom_sortBy (l : list Q) : forall i,
  dcgFrom i l <= dcgFrom i (sortBy descending l).
Proof.
  induction l as [| x l IH]; intros i; simpl; [lra |].
  pose proof (dcgFrom_insertBy x (sortBy descending l) i) as H.
  simpl in H. specialize (IH (S i)). lra.
Qed.

Lemma isDescending_cons (x y : Q) (l : list Q) :
  isDescending (x :: y :: l) = Qle_bool y x && isDescending (y :: l).
Proof. reflexivity. Qed.

Lemma isDescending_tail (x : Q) (l : list Q) :
  isDescending (x :: l) = true -> isDescending l = true.
Proof.
  destruct l as [| y l]; [reflexivity |].
  rewrite isDescending_cons. now intros [_ H]%andb_prop.
Qed.

(** A list already in descending order is left alone by the sort. *)
Lemma sortBy_descending_id (l : list Q) :
  isDescending l = true -> sortBy descending l = l.
Proof.
  induction l as [| x l IH]; intros H; [reflexivity |].
  simpl. rewrite IH by (now apply isDescending_tail with x).
  destruct l as [| y l]; [reflexivity |].
  rewrite isDescending_cons in H. apply andb_prop in H as [Hxy _].
  simpl. apply Qle_bool_iff in Hxy.
  now rewrite (proj2 (descending_le x y) Hxy).
Qed.

(** A list that is not in descending order gains strictly by sorting. *)
Lemma dcgFrom_sortBy_strict (l : list Q) : forall i,
  isDescending l = false -> dcgFrom i l < dcgFrom i (sortBy descending l).
Proof.
  induction l as [| x l IH]; intros i H; [discriminate |].
  destruct (isDescending l) eqn:Hl.
  - (* the tail is sorted: [x] is smaller than its head *)
    destruct l as [| y l]; [discriminate |].
    rewrite isDescending_cons, Hl, andb_true_r in H.
    assert (Hlt : (x < y)%Q).
    { apply Qnot_le_lt. intros Hle. apply Qle_bool_iff in Hle. congruence. }
    change (sortBy descending (x :: y :: l))
      with (insertBy descending x (sortBy descending (y :: l))).
    rewrite (sortBy_descending_id (y :: l) Hl).
    change (insertBy descending x (y :: l))
      with (if Qle_bool (descending x y) 0
            then x :: y :: l else y :: insertBy descending x l).
    rewrite (proj2 (descending_gt x y) Hlt).
    pose proof (dcgFrom_insertBy x l (S i)) as Hins.
    pose proof (swap_gain_strict i x y Hlt).
    simpl in *. lra.
  - specialize (IH (S i) eq_refl).
    pose proof (dcgFrom_insertBy x (sortBy descending l) i) as Hins.
    simpl in *. lra.
Qed.


(** *** Signs *)

Lemma gradeTerm_ge (r : Row) (score : Z) (term : string) :
  (score <= gradeTerm r score term)%Z.
Proof.
  unfold gradeTerm.
  repeat match goal with |- context [if ?b then _ else _] => destruct b end; lia.
Qed.

Lemma fold_gradeTerm_ge (r : Row) (terms : list string) : forall score,
  (score <= fold_left (gradeTerm r) terms score)%Z.
Proof.
  induction terms as [| t terms IH]; intros score; simpl; [lia |].
  pose proof (gradeTerm_ge r score t). specialize (IH (gradeTerm r score t)). lia.
Qed.

Lemma relevanceOf_nonneg (terms : list string) (r : Row) :
  (0 <= relevanceOf terms r)%Q.
Proof.
  unfold relevanceOf, Qdiv. apply Qmult_le_0_compat.
  - change 0%Q with (inject_Z 0). rewrite <- Zle_Qle. apply fold_gradeTerm_ge.
  - apply Qinv_le_0_compat. change 0%Q with (inject_Z 0).
    rewrite <- Zle_Qle. lia.
Qed.

Lemma relevanceScoresOf_nonneg (rs : list Row) (query : string) (k : nat) :
  Forall (fun s => (0 <= s)%Q) (relevanceScoresOf rs query k).
Proof.
  unfold relevanceScoresOf. apply Forall_map, Forall_forall.
  intros r _. apply relevanceOf_nonneg.
Qed.

Lemma gainAt_nonneg (i : nat) (s : Q) : (0 <= s)%Q -> 0 <= gainAt i s.
Proof.
  intros H. rewrite gainAt_gain.
  pose proof (gain_nonneg s H). pose proof (discount_pos i). nra.
Qed.

Lemma gainAt_pos (i : nat) (s : Q) : (0 < s)%Q -> 0 < gainAt i s.
Proof.
  intros H. rewrite gainAt_gain.
  pose proof (gain_pos s H). pose proof (discount_pos i). nra.
Qed.

Lemma dcgFrom_nonneg (l : list Q) : forall i,
  Forall (fun s => (0 <= s)%Q) l -> 0 <= dcgFrom i l.
Proof.
  induction l as [| s l IH]; intros i H; simpl; [lra |].
  inversion H; subst. pose proof (gainAt_nonneg i s ltac:(assumption)).
  specialize (IH (S i) ltac:(assumption)). lra.
Qed.

Lemma dcgFrom_pos (l : list Q) : forall i,
  Forall (fun s => (0 <= s)%Q) l -> Exists (fun s => (0 < s)%Q) l ->
  0 < dcgFrom i l.
Proof.
  induction l as [| s l IH]; intros i Hall Hex; [inversion Hex |].
  inversion Hall as [| ? ? Hs Hl]; subst. simpl.
  inversion Hex as [? ? Hpos | ? ? Hrest]; subst.
  - pose proof (gainAt_pos i s Hpos). pose proof (dcgFrom_nonneg l (S i) Hl). lra.
  - pose proof (gainAt_nonneg i s Hs). specialize (IH (S i) Hl Hrest). lra.
Qed.

Lemma sortBy_nonneg (l : list Q) :
  Forall (fun s => (0 <= s)%Q) l ->
  Forall (fun s => (0 <= s)%Q) (sortBy descending l).
Proof.
  intros H. eapply Permutation_Forall; [apply sortBy_perm | exact H].
Qed.

(** *** The ideal sum depends only on the multiset of grades *)

Lemma insertBy_sorted (x : Q) (l : list Q) :
  StronglySorted (fun a b => (b <= a)%Q) l ->
  StronglySorted (fun a b => (b <= a)%Q) (insertBy descending x l).
Proof.
  induction 1 as [| y l Hl IH Hy]; simpl.
  - repeat constructor.
  - destruct (Qle_bool (descending x y) 0) eqn:E.
    + apply descending_le in E. constructor; [now constructor |].
      constructor; [exact E |].
      eapply Forall_impl; [| exact Hy]. intros z Hz. simpl in Hz.
      now apply Qle_trans with y.
    + apply descending_gt in E. constructor; [exact IH |].
      eapply Permutation_Forall; [apply insertBy_perm |].
      constructor; [now apply Qlt_le_weak | exact Hy].
Qed.

Lemma sortBy_sorted (l : list Q) :
  StronglySorted (fun a b => (b <= a)%Q) (sortBy descending l).
Proof.
  induction l as [| x l IH]; simpl; [constructor | now apply insertBy_sorted].
Qed.

Lemma sorted_Q2R (l : list Q) :
  StronglySorted (fun a b => (b <= a)%Q) l ->
  StronglySorted Rge (map Q2R l).
Proof.
  induction 1 as [| y l Hl IH Hy]; simpl; constructor; [exact IH |].
  apply Forall_map. eapply Forall_impl; [| exact Hy].
  intros z Hz. simpl in Hz. apply Rle_ge. now apply Qle_Rle.
Qed.

Lemma sorted_perm_unique (l1 : list R) : forall l2,
  StronglySorted Rge l1 -> StronglySorted Rge l2 -> Permutation l1 l2 ->
  l1 = l2.
Proof.
  induction l1 as [| a l1 IH]; intros l2 H1 H2 P.
  - now apply Permutation_nil in P.
  - destruct l2 as [| b l2].
    { symmetry in P. now apply Permutation_nil in P. }
    inversion H1 as [| ? ? H1' Ha]; subst.
    inversion H2 as [| ? ? H2' Hb]; subst.
    assert (a = b) as ->.
    { assert (In b (a :: l1)) as [-> | Hin1]
        by (eapply Permutation_in; [symmetry; exact P | now left]);
        [reflexivity |].
      assert (In a (b :: l2)) as [-> | Hin2]
        by (eapply Permutation_in; [exact P | now left]);
        [reflexivity |].
      rewrite Forall_forall in Ha, Hb.
      specialize (Ha _ Hin1). specialize (Hb _ Hin2). lra. }
    f_equal. apply IH; try assumption.
    now apply Permutation_cons_inv in P.
Qed.

Lemma dcgFrom_Q2R (l1 : list Q) : forall l2 i,
  map Q2R l1 = map Q2R l2 -> dcgFrom i l1 = dcgFrom i l2.
Proof.
  induction l1 as [| a l1 IH]; intros [| b l2] i H; try discriminate;
    [reflexivity |].
  simpl in H. injection H as Hab Hl. simpl.
  rewrite (IH l2 (S i) Hl). unfold gainAt. now rewrite Hab.
Qed.

Lemma dcgFrom_sortBy_perm (l l' : list Q) (i : nat) :
  Permutation l l' ->
  dcgFrom i (sortBy descending l) = dcgFrom i (sortBy descending l').
Proof.
  intros P. apply dcgFrom_Q2R, sorted_perm_unique.
  - apply sorted_Q2R, sortBy_sorted.
  - apply sorted_Q2R, sortBy_sorted.
  - apply Permutation_map.
    rewrite <- (sortBy_perm l), <- (sortBy_perm l'). exact P.
Qed.

(** *** The value returned by [calculateNDCG] *)

Lemma ratio_le_1 (x y : R) : 0 < y -> x <= y -> x / y <= 1.
Proof.
  intros Hy Hxy. apply Rmult_le_reg_r with y; [exact Hy |].
  unfold Rdiv. rewrite Rmult_assoc, Rinv_l; lra.
Qed.

Lemma ratio_lt_1 (x y : R) : 0 < y -> x < y -> x / y < 1.
Proof.
  intros Hy Hxy. apply Rmult_lt_reg_r with y; [exact Hy |].
  unfold Rdiv. rewrite Rmult_assoc, Rinv_l; lra.
Qed.

Lemma calculateNDCG_Some (rs : list Row) (query : string) (k : nat) :
  calculateNDCG (Some rs) query k =
  if Req_dec_T (idcgOf rs query k) 0 then 0
  else dcgOf (relevanceScoresOf rs query k) / idcgOf rs query k * 100.
Proof.
  destruct rs as [| r rs]; [| reflexivity].
  simpl. unfold idcgOf, relevanceScoresOf. rewrite firstn_nil. simpl.
  unfold dcgOf, JS.forEach. simpl. now destruct (Req_dec_T 0 0).
Qed.

Lemma dcg_le_idcg (rs : list Row) (query : string) (k : nat) :
  0 <= dcgOf (relevanceScoresOf rs query k) <= idcgOf rs query k.
Proof.
  unfold idcgOf. rewrite !dcgOf_dcgFrom. split.
  - apply dcgFrom_nonneg, relevanceScoresOf_nonneg.
  - apply dcgFrom_sortBy.
Qed.

Lemma calculateNDCG_range (results : Results) (query : string) (k : nat) :
  0 <= calculateNDCG results query k <= 100.
Proof.
  destruct results as [rs |]; [| simpl; lra].
  rewrite calculateNDCG_Some.
  destruct (Req_dec_T (idcgOf rs query k) 0) as [E | NE]; [lra |].
  pose proof (dcg_le_idcg rs query k) as [H0 H1].
  assert (Hpos : 0 < idcgOf rs query k) by lra.
  split.
  - apply Rmult_le_pos; [| lra]. apply Rmult_le_pos; [exact H0 |].
    left. now apply Rinv_0_lt_compat.
  - assert (dcgOf (relevanceScoresOf rs query k) / idcgOf rs query k <= 1);
      [| lra].
    apply ratio_le_1; lra.
Qed.

Lemma calculateNDCG_ideal (rs : list Row) (query : string) (k : nat) :
  isDescending (relevanceScoresOf rs query k) = true ->
  0 < idcgOf rs query k ->
  calculateNDCG (Some rs) query k = 100.
Proof.
  intros Hd Hpos. rewrite calculateNDCG_Some.
  destruct (Req_dec_T (idcgOf rs query k) 0) as [E | NE]; [lra |].
  unfold idcgOf in *. rewrite (sortBy_descending_id _ Hd) in *.
  field. lra.
Qed.

Lemma calculateNDCG_not_ideal (rs : list Row) (query : string) (k : nat) :
  isDescending (relevanceScoresOf rs query k) = false ->
  calculateNDCG (Some rs) query k < 100.
Proof.
  intros Hd. rewrite calculateNDCG_Some.
  destruct (Req_dec_T (idcgOf rs query k) 0) as [E | NE]; [lra |].
  pose proof (dcg_le_idcg rs query k) as [H0 _].
  assert (Hlt : dcgOf (relevanceScoresOf rs query k) < idcgOf rs query k).
  { unfold idcgOf. rewrite !dcgOf_dcgFrom. now apply dcgFrom_sortBy_strict. }
  assert (dcgOf (relevanceScoresOf rs query k) / idcgOf rs query k < 1);
    [| lra].
  apply ratio_lt_1; lra.
Qed.

Lemma idcgOf_perm (rs rs' : list Row) (query : string) (k : nat) :
  Permutation (firstn k rs) (firstn k rs') ->
  idcgOf rs' query k = idcgOf rs query k.
Proof.
  intros P. unfold idcgOf. rewrite !dcgOf_dcgFrom.
  apply dcgFrom_sortBy_perm. unfold relevanceScoresOf.
  apply Permutation_map. now symmetry.
Qed.


Lemma somePositive_Exists (l : list Q) :
  somePositive l = true -> Exists (fun s => (0 < s)%Q) l.
Proof.
  unfold somePositive. rewrite existsb_exists, Exists_exists.
  intros [s [Hin Hs]]. exists s. split; [exact Hin |].
  apply Qnot_le_lt. intros Hle. apply Qle_bool_iff in Hle.
  rewrite Hle in Hs. discriminate.
Qed.

Lemma idcgOf_pos (rs : list Row) (query : string) (k : nat) :
  somePositive (relevanceScoresOf rs query k) = true -> 0 < idcgOf rs query k.
Proof.
  intros H. pose proof (dcg_le_idcg rs query k) as [_ Hle].
  rewrite dcgOf_dcgFrom in Hle.
  pose proof (dcgFrom_pos _ 0 (relevanceScoresOf_nonneg rs query k)
                (somePositive_Exists _ H)). lra.
Qed.

Lemma not_descending_somePositive (l : list Q) :
  Forall (fun s => (0 <= s)%Q) l -> isDescending l = false ->
  somePositive l = true.
Proof.
  induction l as [| x l IH]; intros Hall Hd; [discriminate |].
  inversion Hall as [| ? ? Hx Hl]; subst.
  destruct l as [| y l]; [discriminate |].
  rewrite isDescending_cons in Hd.
  unfold somePositive in *.
  destruct (Qle_bool y x) eqn:E.
  - specialize (IH Hl Hd). cbn [existsb] in IH |- *.
    rewrite IH. apply orb_true_r.
  - cbn [existsb]. destruct (Qle_bool y 0) eqn:E0.
    + apply Qle_bool_iff in E0.
      assert (Qle_bool y x = true)
        by (apply Qle_bool_iff; now apply Qle_trans with 0%Q).
      congruence.
    + cbn. apply orb_true_r.
Qed.

Lemma gainAt_zero (i : nat) (s : Q) : (s == 0)%Q -> gainAt i s = 0.
Proof. intros H. rewrite gainAt_gain, (gain_zero s H). lra. Qed.

Lemma dcgFrom_all_zero (l : list Q) : forall i,
  Forall (fun s => (s == 0)%Q) l -> dcgFrom i l = 0.
Proof.
  induction l as [| s l IH]; intros i H; [reflexivity |].
  inversion H; subst. simpl.
  rewrite gainAt_zero by assumption. rewrite IH by assumption. lra.
Qed.

End NDCG_facts.

(* ================================================================== *)
(** ** The scorers: contract of the empty result set, NDCG, term points *)
(* ================================================================== *)

Section Scorer_claims.

Import Scorer.
Local Open Scope string_scope.

(** C5.  For every query text, both scorers of [server.js] return 0 on an
    empty result set and on a [null] one: the guard
    [!results || results.length === 0] is the first statement of
    [calculateRelevanceScore] and of [calculateNDCG]. *)
Theorem C5_empty_result_set_scores_zero (query : string) (k : nat) :
  calculateRelevanceScore None query = Some 0%Q /\
  calculateRelevanceScore (Some []) query = Some 0%Q /\
  calculateNDCG None query k = 0%R /\
  calculateNDCG (Some []) query k = 0%R.
Proof. repeat split. Qed.

(** C2.  [calculateNDCG] always lies between 0 and 100; it is exactly 100
    when the grades of the top [k] results are already in descending order
    and the ideal sum is positive; and it is 0, without dividing, when the
    ideal sum is 0.  The statement holds for every cut-off [k], the default
    10 included. *)
Theorem C2_ndcg_contract (results : Results) (query : string) (k : nat) :
  (0 <= calculateNDCG results query k <= 100)%R /\
  (forall rs, results = Some rs ->
     isDescending (relevanceScoresOf rs query k) = true ->
     (0 < idcgOf rs query k)%R ->
     calculateNDCG results query k = 100%R) /\
  (forall rs, results = Some rs ->
     idcgOf rs query k = 0%R ->
     calculateNDCG results query k = 0%R).
Proof.
  split; [apply calculateNDCG_range |]. split.
  - intros rs -> Hd Hpos. now apply calculateNDCG_ideal.
  - intros rs -> Hz. rewrite calculateNDCG_Some.
    now destruct (Req_dec_T (idcgOf rs query k) 0).
Qed.

Lemma C2_ndcg_contract_witness :
  calculateNDCG (Some [appleFull; appleWatch; sonyRadio]) "apple" defaultK = 100%R /\
  calculateNDCG (Some [sonyRadio]) "apple" defaultK = 0%R.
Proof.
  split.
  - apply (C2_ndcg_contract (Some [appleFull; appleWatch; sonyRadio]) "apple" defaultK)
      with (rs := [appleFull; appleWatch; sonyRadio]).
    + reflexivity.
    + vm_compute. reflexivity.
    + apply idcgOf_pos. vm_compute. reflexivity.
  - apply (C2_ndcg_contract (Some [sonyRadio]) "apple" defaultK)
      with (rs := [sonyRadio]).
    + reflexivity.
    + unfold idcgOf. rewrite dcgOf_dcgFrom. apply dcgFrom_all_zero.
      repeat constructor.
Defined.


(** *** Reordering and NDCG *)

Lemma elevenReordered_scores :
  relevanceScoresOf elevenReordered "apple" defaultK = (6 # 6)%Q :: repeat (0 # 6)%Q 9.
Proof. vm_compute. reflexivity. Qed.

Lemma elevenIdeal_scores :
  relevanceScoresOf elevenIdeal "apple" defaultK =
  (6 # 6)%Q :: (3 # 6)%Q :: repeat (0 # 6)%Q 8.
Proof. vm_compute. reflexivity. Qed.

Lemma repeat_zero_grades (n : nat) :
  Forall (fun s => (s == 0)%Q) (repeat (0 # 6)%Q n).
Proof.
  apply Forall_forall. intros s Hs. apply repeat_spec in Hs. now subst.
Qed.

(** C3, as stated, fails once the result set is longer than the cut-off:
    the eleven results [elevenIdeal] are in ideal order, [elevenReordered]
    is a permutation of them that is not in descending order of relevance,
    yet its NDCG is not lower, and the ideal sum is not the same, because
    the permutation moved a relevant result out of the top 10. *)
Lemma C3_counterexample :
  Permutation elevenIdeal elevenReordered /\
  (exists x y,
     In x (relevanceScoresOf elevenIdeal "apple" defaultK) /\
     In y (relevanceScoresOf elevenIdeal "apple" defaultK) /\ ~ (x == y)%Q) /\
  isDescending (map (relevanceOf (queryTermsOf "apple")) elevenIdeal) = true /\
  isDescending (map (relevanceOf (queryTermsOf "apple")) elevenReordered) = false /\
  ~ (calculateNDCG (Some elevenReordered) "apple" defaultK
     < calculateNDCG (Some elevenIdeal) "apple" defaultK)%R /\
  idcgOf elevenReordered "apple" defaultK <> idcgOf elevenIdeal "apple" defaultK.
Proof.
  split; [| split; [| split; [| split; [| split]]]].
  - unfold elevenIdeal, elevenReordered. apply perm_skip.
    apply Permutation_cons_append.
  - exists (6 # 6)%Q, (3 # 6)%Q. rewrite elevenIdeal_scores.
    split; [now left |]. split; [right; now left |]. discriminate.
  - vm_compute. reflexivity.
  - vm_compute. reflexivity.
  - rewrite (calculateNDCG_ideal elevenReordered), (calculateNDCG_ideal elevenIdeal).
    + apply Rlt_irrefl.
    + vm_compute. reflexivity.
    + apply idcgOf_pos. vm_compute. reflexivity.
    + vm_compute. reflexivity.
    + apply idcgOf_pos. vm_compute. reflexivity.
  - unfold idcgOf. rewrite !dcgOf_dcgFrom.
    rewrite !sortBy_descending_id by (vm_compute; reflexivity).
    rewrite elevenReordered_scores, elevenIdeal_scores.
    cbn [dcgFrom].
    rewrite (dcgFrom_all_zero _ 1 (repeat_zero_grades 9)).
    rewrite (dcgFrom_all_zero _ 2 (repeat_zero_grades 8)).
    assert (0 < gainAt 1 (3 # 6))%R by (apply gainAt_pos; reflexivity).
    lra.
Qed.

(** C3, amended.  Let [rs'] hold in its top [k] the same results as [rs],
    in an order whose grades are not descending.  Then the ideal sum of
    [rs'] is that of [rs], the NDCG of [rs'] is strictly below 100, and
    every arrangement [ideal] of the same top-[k] results in descending
    order of relevance scores exactly 100, hence strictly more.  (A
    sequence that is not descending holds two different grades, so the
    proviso of the claim is implied.)  With at most [k] results every
    permutation of the result set qualifies. *)
Theorem C3_reordering_within_top_k (rs rs' : list Row) (query : string) (k : nat) :
  Permutation (firstn k rs) (firstn k rs') ->
  isDescending (relevanceScoresOf rs' query k) = false ->
  idcgOf rs' query k = idcgOf rs query k /\
  (calculateNDCG (Some rs') query k < 100)%R /\
  (forall ideal,
     Permutation (firstn k rs) (firstn k ideal) ->
     isDescending (relevanceScoresOf ideal query k) = true ->
     calculateNDCG (Some ideal) query k = 100%R /\
     (calculateNDCG (Some rs') query k < calculateNDCG (Some ideal) query k)%R).
Proof.
  intros P Hd.
  pose proof (calculateNDCG_not_ideal rs' query k Hd) as Hlt.
  split; [now apply idcgOf_perm |]. split; [exact Hlt |].
  intros ideal Pi Hi.
  assert (E : calculateNDCG (Some ideal) query k = 100%R).
  { apply calculateNDCG_ideal; [exact Hi |].
    rewrite (idcgOf_perm rs ideal query k Pi).
    rewrite <- (idcgOf_perm rs rs' query k P).
    apply idcgOf_pos, not_descending_somePositive;
      [apply relevanceScoresOf_nonneg | exact Hd]. }
  split; [exact E |]. rewrite E. exact Hlt.
Qed.

Lemma C3_reordering_within_top_k_witness :
  (calculateNDCG (Some [sonyRadio; appleWatch; appleFull]) "apple" defaultK < 100)%R /\
  calculateNDCG (Some [appleFull; appleWatch; sonyRadio]) "apple" defaultK = 100%R.
Proof.
  assert (P : Permutation
                (firstn defaultK [appleFull; appleWatch; sonyRadio])
                (firstn defaultK [sonyRadio; appleWatch; appleFull])).
  { simpl. apply Permutation_rev with (l := [appleFull; appleWatch; sonyRadio]). }
  destruct (C3_reordering_within_top_k
              [appleFull; appleWatch; sonyRadio]
              [sonyRadio; appleWatch; appleFull] "apple" defaultK P eq_refl)
    as [_ [Hlt Hideal]].
  split; [exact Hlt |].
  apply (Hideal [appleFull; appleWatch; sonyRadio]).
  - apply Permutation_refl.
  - reflexivity.
Defined.

(** *** The term-overlap score on the "samsu" scenario *)

(** C1, as stated, fails: "samsu" is a literal substring of the lower-cased
    title "samsung galaxy phone", so the scorer does not return 0. *)
Lemma C1_counterexample :
  ~ (forall r, In r [samsungPhone; appleWatch] ->
               includes (textOf r) "samsu" = false) /\
  ~ (exists score,
       calculateRelevanceScore (Some [samsungPhone; appleWatch]) "samsu"
       = Some score /\ (score == 0)%Q).
Proof.
  split.
  - intros H. specialize (H samsungPhone (or_introl eq_refl)). discriminate.
  - intros [score [E Hz]]. vm_compute in E. injection E as <-. discriminate.
Qed.

(** C1, amended.  On the query "samsu" and the results "Samsung Galaxy
    Phone", "Apple Watch" the term is a substring of the first title but
    not a whole word of it, and is absent from the second.  The first
    result contributes (1 + 3) * 1 * 1 = 4 (one substring point and the
    title bonus), the second contributes 0, and [calculateRelevanceScore]
    returns 4 / (2 * 1 * 5) * 100 = 40.  No fuzzy correction takes part:
    the match is literal. *)
Theorem C1_samsu_scores_40 :
  queryTermsOf "samsu" = ["samsu"] /\
  includes (textOf samsungPhone) "samsu" = true /\
  wordBoundaryTest "samsu" (textOf samsungPhone) = Some false /\
  includes (textOf appleWatch) "samsu" = false /\
  (exists s0, resultScore ["samsu"] samsungPhone 0 = Some s0 /\ (s0 == 4)%Q) /\
  (exists s1, resultScore ["samsu"] appleWatch 1 = Some s1 /\ (s1 == 0)%Q) /\
  (exists score,
     calculateRelevanceScore (Some [samsungPhone; appleWatch]) "samsu"
     = Some score /\ (score == 40)%Q).
Proof.
  repeat split.
  - eexists. split; [vm_compute; reflexivity | reflexivity].
  - eexists. split; [vm_compute; reflexivity | reflexivity].
  - eexists. split; [vm_compute; reflexivity | reflexivity].
Qed.

(** *** Points per query term *)

Lemma countZ_cons {A : Type} (p : A -> bool) (x : A) (l : list A) :
  countZ p (x :: l) = ((if p x then 1 else 0) + countZ p l)%Z.
Proof.
  unfold countZ. simpl. destruct (p x); simpl length; lia.
Qed.

Lemma fold_tallyTerm (text : string) (terms : list string) : forall a b,
  forallb regexSafe terms = true ->
  fold_left (tallyTerm text) terms (Some (mkTally a b)) =
  Some (mkTally
          (a + 1 * countZ (isSubstringOnly text) terms
             + 2 * countZ (isWholeWord text) terms)
          (b + countZ (isSubstringOnly text) terms
             + countZ (isWholeWord text) terms)).
Proof.
  induction terms as [| t terms IH]; intros a b Hsafe.
  - simpl. unfold countZ. simpl. do 2 f_equal; lia.
  - simpl in Hsafe. apply andb_prop in Hsafe as [Ht Hsafe].
    rewrite !countZ_cons. cbn [fold_left].
    assert (E : tallyTerm text (Some (mkTally a b)) t =
                Some (mkTally
                        (a + (if isSubstringOnly text t then 1 else 0)
                           + 2 * (if isWholeWord text t then 1 else 0))
                        (b + (if isSubstringOnly text t then 1 else 0)
                           + (if isWholeWord text t then 1 else 0)))).
    { unfold tallyTerm, isSubstringOnly, isWholeWord, wordBoundaryTest.
      rewrite Ht. destruct (includes text t); [| cbn; do 2 f_equal; lia].
      destruct (wordScan t false text); cbn; do 2 f_equal; lia. }
    rewrite E, IH by exact Hsafe.
    destruct (isSubstringOnly text t), (isWholeWord text t); do 2 f_equal; lia.
Qed.

Lemma fold_matchTerm (text : string) (terms : list string) : forall m,
  forallb regexSafe terms = true ->
  fold_left (matchTerm text) terms (Some m) =
  Some (m + 2 * countZ (isSubstringOnly text) terms
          + 5 * countZ (isWholeWord text) terms)%Z.
Proof.
  induction terms as [| t terms IH]; intros m Hsafe.
  - simpl. unfold countZ. simpl. f_equal; lia.
  - simpl in Hsafe. apply andb_prop in Hsafe as [Ht Hsafe].
    rewrite !countZ_cons. cbn [fold_left].
    assert (E : matchTerm text (Some m) t =
                Some (m + 2 * (if isSubstringOnly text t then 1 else 0)
                        + 5 * (if isWholeWord text t then 1 else 0))%Z).
    { unfold matchTerm, isSubstringOnly, isWholeWord, wordBoundaryTest.
      rewrite Ht. destruct (includes text t); [| cbn; f_equal; lia].
      destruct (wordScan t false text); cbn; f_equal; lia. }
    rewrite E, IH by exact Hsafe.
    destruct (isSubstringOnly text t), (isWholeWord text t); f_equal; lia.
Qed.

Lemma fold_titleBonus (lowTitle : string) (terms : list string) : forall b,
  fold_left
    (fun titleBonus term =>
       if includes lowTitle term then (titleBonus + 3)%Z else titleBonus)
    terms b
  = (b + 3 * countZ (includes lowTitle) terms)%Z.
Proof.
  induction terms as [| t terms IH]; intros b.
  - simpl. unfold countZ. simpl. lia.
  - rewrite countZ_cons. cbn [fold_left]. rewrite IH.
    destruct (includes lowTitle t); lia.
Qed.

(** C6, as stated, fails.  The term "apple" is a whole word of the haystack
    "apple watch": [calculateRelevanceScore] awards it 2 points, not the
    1 + 2 of the claim, and [calculateRelevance] awards the same term 5, so
    the two scorers do not share one scheme either. *)
Lemma C6_counterexample :
  includes "apple watch" "apple" = true /\
  wordBoundaryTest "apple" "apple watch" = Some true /\
  option_map matchScore (tallyTerm "apple watch" (Some (mkTally 0 0)) "apple")
    <> Some (1 + 2)%Z /\
  option_map matchScore (tallyTerm "apple watch" (Some (mkTally 0 0)) "apple")
    <> matchTerm "apple watch" (Some 0%Z) "apple".
Proof. repeat split; discriminate. Qed.

(** C6, amended.  Over query terms free of pattern syntax, the inner loop
    of [calculateRelevanceScore] awards 1 point to a term that occurs in
    the haystack only inside a longer word and 2 points in all to a term
    that occurs as a whole word, counting both as matched terms; its
    separate title loop adds 3 for every term found in the title; and the
    loop of [calculateRelevance] in the benchmark script awards 2 points
    to a substring and 5 in all (2 + 3) to a whole word. *)
Theorem C6_points_per_term (text lowTitle : string) (terms : list string) :
  forallb regexSafe terms = true ->
  let nSub := countZ (isSubstringOnly text) terms in
  let nWord := countZ (isWholeWord text) terms in
  fold_left (tallyTerm text) terms (Some (mkTally 0 0))
    = Some (mkTally (1 * nSub + 2 * nWord) (nSub + nWord)) /\
  titleBonusOf lowTitle terms = (3 * countZ (includes lowTitle) terms)%Z /\
  fold_left (matchTerm text) terms (Some 0%Z) = Some (2 * nSub + 5 * nWord)%Z.
Proof.
  intros Hsafe nSub nWord. split; [| split].
  - rewrite fold_tallyTerm by exact Hsafe. reflexivity.
  - unfold titleBonusOf. rewrite fold_titleBonus. reflexivity.
  - rewrite fold_matchTerm by exact Hsafe. reflexivity.
Qed.

Lemma C6_points_per_term_witness :
  fold_left (tallyTerm "samsung apple watch") ["samsu"; "apple"; "sony"]
            (Some (mkTally 0 0)) = Some (mkTally 3 2) /\
  titleBonusOf "samsung apple watch" ["samsu"; "apple"; "sony"] = 6%Z /\
  fold_left (matchTerm "samsung apple watch") ["samsu"; "apple"; "sony"]
            (Some 0%Z) = Some 7%Z.
Proof.
  exact (C6_points_per_term "samsung apple watch" "samsung apple watch"
           ["samsu"; "apple"; "sony"] eq_refl).
Defined.

End Scorer_claims.

(* ================================================================== *)
(** ** Query dispatch: the default case and the containment of failures *)
(* ================================================================== *)

Section Dispatch_claims.

Import JS Scorer Runtime DispatchNotions.
Local Open Scope string_scope.

(** *** [server.js]: a search type without a [case] *)

Lemma server_unhandled (searchType : string) :
  Server.handled searchType = false ->
  (searchType =? "fulltext") = false /\ (searchType =? "boolean") = false /\
  (searchType =? "field") = false /\ (searchType =? "like") = false /\
  (searchType =? "exact") = false.
Proof.
  unfold Server.handled. cbn [existsb]. intros H.
  repeat (apply orb_false_elim in H as [? H]). auto.
Qed.

Lemma vanillaSwitch_default (rw : Rewrites) (query searchType : string) :
  Server.handled searchType = false ->
  Server.vanillaSwitch rw query searchType
  = (ServerSql.vanillaDefaultSQL, [Some query]).
Proof.
  intros H. apply server_unhandled in H as (H1 & H2 & H3 & H4 & H5).
  unfold Server.vanillaSwitch. now rewrite H1, H2, H3, H4, H5.
Qed.

Lemma paradeSwitch_default (rw : Rewrites) (query searchType : string) :
  Server.handled searchType = false ->
  Server.paradeSwitch rw query searchType
  = (Server.phraseQuery query,
     ServerSql.paradeDefaultSQL (Server.phraseQuery query),
     [Some (Server.phraseQuery query)]).
Proof.
  intros H. apply server_unhandled in H as (H1 & H2 & H3 & H4 & H5).
  unfold Server.paradeSwitch. now rewrite H1, H2, H3, H4, H5.
Qed.

Lemma phraseQuery_nonempty (query : string) :
  (Server.phraseQuery query =? "") = false.
Proof. reflexivity. Qed.

(** C10.  For a search type outside "fulltext", "boolean", "field", "like"
    and "exact" (the name "fuzzy" is one), [runVanillaSearch] sends the
    statement of its [default] case with the query as the parameter, and
    [runParadeSearch] sends its default statement with the phrase query
    over title, description and brand; when the pools answer, both return
    an ordinary result object with no [error].  The default statement of
    [runVanillaSearch] is the full-text one: it differs from the statement
    of the "fulltext" case in its closing comment only. *)
Theorem C10_unhandled_search_type_takes_default
        (rw : Rewrites) (vanillaPool paradePool : Pool)
        (query searchType : string) (v p : Reply) :
  Server.handled searchType = false ->
  vanillaPool ServerSql.vanillaDefaultSQL [Some query] = Resolved v ->
  paradePool (ServerSql.paradeDefaultSQL (Server.phraseQuery query))
             [Some (Server.phraseQuery query)] = Resolved p ->
  Server.runVanillaSearch rw vanillaPool query searchType
    = Returned
        (Server.mkSearchResult (rows v) (elapsed v) (rowCount v)
           (Some (trim ServerSql.vanillaDefaultSQL)) (Some [Some query]) None
           (Some "PostgreSQL Full-Text Search") None) /\
  Server.runParadeSearch rw paradePool query searchType
    = Returned
        (Server.mkSearchResult (rows p) (elapsed p) (rowCount p)
           (Some (trim (ServerSql.paradeDefaultSQL (Server.phraseQuery query))))
           (Some [Some (Server.phraseQuery query)])
           (Some (Server.phraseQuery query))
           (Some "ParadeDB BM25 Search") None) /\
  Server.dropLastLine ServerSql.vanillaDefaultSQL
    = Server.dropLastLine ServerSql.vanillaFulltextSQL /\
  Server.vanillaSwitch rw query "fulltext"
    = (ServerSql.vanillaFulltextSQL, [Some query]).
Proof.
  intros H Hv Hp. split; [| split; [| split]].
  - unfold Server.runVanillaSearch.
    rewrite (vanillaSwitch_default rw query searchType H), Hv. reflexivity.
  - unfold Server.runParadeSearch.
    rewrite (paradeSwitch_default rw query searchType H), Hp.
    now rewrite phraseQuery_nonempty.
  - vm_compute. reflexivity.
  - reflexivity.
Qed.

Lemma C10_unhandled_search_type_takes_default_witness :
  Server.handled "fuzzy" = false /\
  Server.runVanillaSearch Server.noRewrites Server.oneRowPool "samsu" "fuzzy"
    = Returned
        (Server.mkSearchResult [appleWatch] (7 # 2) 1
           (Some (trim ServerSql.vanillaDefaultSQL)) (Some [Some "samsu"]) None
           (Some "PostgreSQL Full-Text Search") None).
Proof.
  split; [reflexivity |].
  exact (proj1 (C10_unhandled_search_type_takes_default
                  Server.noRewrites Server.oneRowPool Server.oneRowPool
                  "samsu" "fuzzy"
                  (mkReply [appleWatch] 1 (7 # 2)) (mkReply [appleWatch] 1 (7 # 2))
                  eq_refl eq_refl eq_refl)).
Defined.

(** *** [server.js]: the two dispatchers throw or return, nothing else *)

Lemma runVanillaSearch_defined (rw : Rewrites) (pool : Pool) (query searchType : string) :
  Server.runVanillaSearch rw pool query searchType <> OutsideModel.
Proof.
  unfold Server.runVanillaSearch.
  destruct (Server.vanillaSwitch rw query searchType) as [text params].
  destruct (pool text params); discriminate.
Qed.

Lemma runParadeSearch_defined (rw : Rewrites) (pool : Pool) (query searchType : string) :
  Server.runParadeSearch rw pool query searchType <> OutsideModel.
Proof.
  unfold Server.runParadeSearch.
  destruct (Server.paradeSwitch rw query searchType) as [[sq text] params].
  destruct (pool text params); discriminate.
Qed.

(** What the inner [try]/[catch] of the handler leaves in [vanilla] or
    [parade]. *)
Lemma caught_search (o : Outcome Server.SearchResult) :
  o <> OutsideModel ->
  exists r,
    tryCatch o (fun err => Returned (Server.errorResult err)) = Returned r.
Proof.
  destruct o as [r | err |]; intros H; [now exists r | | contradiction].
  now exists (Server.errorResult err).
Qed.

Lemma falsy_query (query : string) : query <> "" -> falsy (Some query) = false.
Proof.
  intros H. simpl. now apply String.eqb_neq.
Qed.

(** *** The benchmark script: the read loop always runs to its end *)

Lemma bench_vanillaSwitch_handled (rw : Rewrites) (query searchType : string) :
  Bench.handled searchType = true ->
  exists request, Bench.vanillaSwitch rw query searchType = Some request.
Proof.
  intros H. unfold Bench.vanillaSwitch.
  destruct (searchType =? "fulltext") eqn:E1; [eauto |].
  destruct (searchType =? "boolean") eqn:E2; [eauto |].
  destruct (searchType =? "field") eqn:E3; [eauto |].
  destruct (searchType =? "fuzzy") eqn:E4; [eauto |].
  destruct (searchType =? "exact") eqn:E5; [eauto |].
  unfold Bench.handled in H. cbn [existsb] in H.
  rewrite E1, E2, E3, E4, E5 in H. discriminate.
Qed.

Lemma bench_paradeSwitch_handled (rw : Rewrites) (query searchType : string) :
  Bench.handled searchType = true ->
  exists request, Bench.paradeSwitch rw query searchType = Some request.
Proof.
  intros H. unfold Bench.paradeSwitch.
  destruct (searchType =? "fulltext") eqn:E1; [eauto |].
  destruct (searchType =? "boolean") eqn:E2; [eauto |].
  destruct (searchType =? "field") eqn:E3; [eauto |].
  destruct (searchType =? "fuzzy") eqn:E4;
    [destruct (negb (includes query " ")); eauto |].
  destruct (searchType =? "exact") eqn:E5; [eauto |].
  unfold Bench.handled in H. cbn [existsb] in H.
  rewrite E1, E2, E3, E4, E5 in H. discriminate.
Qed.

Lemma execute_returns (pool : Pool) (request : string * list Param) :
  exists r, Bench.execute pool (Some request) = Returned r.
Proof.
  destruct request as [text params]. simpl.
  destruct (pool text params); eauto.
Qed.

Lemma runVanillaQuery_returns (rw : Rewrites) (pool : Pool) (query searchType : string) :
  Bench.handled searchType = true ->
  exists r, Bench.runVanillaQuery rw pool query searchType = Returned r.
Proof.
  intros H. unfold Bench.runVanillaQuery.
  destruct (bench_vanillaSwitch_handled rw query searchType H) as [req ->].
  apply execute_returns.
Qed.

Lemma runParadeQuery_returns (rw : Rewrites) (pool : Pool) (query searchType : string) :
  Bench.handled searchType = true ->
  exists r, Bench.runParadeQuery rw pool query searchType = Returned r.
Proof.
  intros H. unfold Bench.runParadeQuery.
  destruct (bench_paradeSwitch_handled rw query searchType H) as [req ->].
  apply execute_returns.
Qed.

(** With search terms free of pattern syntax [calculateRelevance] is
    defined on every result set. *)
Lemma addMatchScore_defined (terms : list string) (rs : list Row) : forall i total,
  forallb regexSafe terms = true ->
  exists total',
    forEachFrom (addMatchScore terms) i rs (Some total) = Some total'.
Proof.
  induction rs as [| r rs IH]; intros i total Hsafe; cbn [forEachFrom];
    [eauto |].
  assert (E : exists total1, addMatchScore terms (Some total) r i = Some total1).
  { unfold addMatchScore. rewrite fold_matchTerm by exact Hsafe. eauto. }
  destruct E as [total1 ->]. apply IH, Hsafe.
Qed.

Lemma calculateRelevance_defined (rs : list Row) (query : string) :
  forallb regexSafe (searchTermsOf query) = true ->
  exists score, calculateRelevance (Some rs) query = Some score.
Proof.
  intros Hsafe. unfold calculateRelevance.
  destruct rs as [| r rs]; [eauto |].
  destruct (addMatchScore_defined (searchTermsOf query) (r :: rs) 0 0%Q Hsafe)
    as [total E].
  unfold forEach. rewrite E. eauto.
Qed.

Lemma runQuery_returns (rw : Rewrites) (vanillaPool paradePool : Pool)
      (searchType query : string) (rr : Bench.ReadResult) (log : list Bench.LogLine) :
  Bench.handled searchType = true -> Bench.safeQuery query = true ->
  exists rr' line,
    Bench.runQuery rw vanillaPool paradePool searchType (Returned (rr, log)) query
    = Returned (rr', log ++ [line])%list /\ Bench.logQuery line = query.
Proof.
  intros H Hsafe. unfold Bench.runQuery. cbn [bind].
  destruct (runVanillaQuery_returns rw vanillaPool query searchType H) as [v ->].
  destruct (runParadeQuery_returns rw paradePool query searchType H) as [p ->].
  cbn [bind].
  destruct (calculateRelevance_defined (Bench.results v) query Hsafe) as [sv ->].
  destruct (calculateRelevance_defined (Bench.results p) query Hsafe) as [sp ->].
  cbn [bind scored fst snd]. eauto.
Qed.

Lemma queries_loop_returns (rw : Rewrites) (vanillaPool paradePool : Pool)
      (searchType : string) (queries : list string) :
  Bench.handled searchType = true -> forallb Bench.safeQuery queries = true ->
  forall rr log,
  exists rr' log',
    fold_left (Bench.runQuery rw vanillaPool paradePool searchType) queries
              (Returned (rr, log))
    = Returned (rr', log') /\
    map Bench.logQuery log' = (map Bench.logQuery log ++ queries)%list.
Proof.
  intros H. induction queries as [| q queries IH]; intros Hsafe rr log.
  - exists rr, log. split; [reflexivity | now rewrite app_nil_r].
  - simpl in Hsafe. apply andb_prop in Hsafe as [Hq Hqs].
    destruct (runQuery_returns rw vanillaPool paradePool searchType q rr log H Hq)
      as (rr1 & line & E & Hline).
    cbn [fold_left]. rewrite E.
    destruct (IH Hqs rr1 (log ++ [line])%list) as (rr' & log' & E' & Hlog).
    exists rr', log'. split; [exact E' |].
    rewrite Hlog, map_app. simpl. rewrite Hline, <- app_assoc. reflexivity.
Qed.

Lemma readLoop_returns (rw : Rewrites) (vanillaPool paradePool : Pool)
      (table : list (string * list string)) :
  forallb Bench.safeEntry table = true ->
  forall done log,
  exists done' log',
    fold_left (Bench.runSearchType rw vanillaPool paradePool) table
              (Returned (done, log))
    = Returned (done', log') /\
    map Bench.logQuery log'
    = (map Bench.logQuery log ++ Bench.queriesRun table)%list /\
    map fst done' = (map fst done ++ map fst table)%list.
Proof.
  induction table as [| [searchType queries] table IH]; intros Hsafe done log.
  - exists done, log. simpl. now rewrite !app_nil_r.
  - simpl in Hsafe. apply andb_prop in Hsafe as [He Ht].
    unfold Bench.safeEntry in He. simpl in He. apply andb_prop in He as [Hh Hq].
    destruct (queries_loop_returns rw vanillaPool paradePool searchType
                (firstn 5 queries) Hh Hq
                (Bench.mkReadResult (Bench.mkTally 0 0 0) (Bench.mkTally 0 0 0)) log)
      as (rr & log1 & E & Hlog1).
    cbn [fold_left]. unfold Bench.runSearchType at 2. cbn [bind fst snd].
    rewrite E. cbn [bind fst snd].
    destruct (IH Ht (done ++ [(searchType, rr)])%list log1)
      as (done' & log' & E' & Hlog & Hdone).
    exists done', log'. split; [exact E' |]. split.
    + rewrite Hlog, Hlog1. unfold Bench.queriesRun. simpl.
      now rewrite <- app_assoc.
    + rewrite Hdone, map_app. simpl. now rewrite <- app_assoc.
Qed.

Lemma testQueries_safe : forallb Bench.safeEntry Bench.testQueries = true.
Proof. vm_compute. reflexivity. Qed.

(** Each pass of the inner loop asks both engines, whatever the first
    one answered, and records both answers. *)
Lemma runQuery_answers (rw : Rewrites) (vanillaPool paradePool : Pool)
      (searchType query : string) (rr : Bench.ReadResult) (log : list Bench.LogLine) :
  Bench.handled searchType = true -> Bench.safeQuery query = true ->
  exists a,
    answersOf rw vanillaPool paradePool searchType query a /\
    Bench.runQuery rw vanillaPool paradePool searchType (Returned (rr, log)) query
    = Returned
        (Bench.mkReadResult
           (Bench.tally (Bench.vanilla rr) (vanillaAnswer a) (vanillaScore a))
           (Bench.tally (Bench.parade rr) (paradeAnswer a) (paradeScore a)),
         (log ++ [Bench.mkLogLine query
                    (Bench.duration (vanillaAnswer a)) (vanillaScore a)
                    (Bench.duration (paradeAnswer a)) (paradeScore a)])%list).
Proof.
  intros H Hsafe.
  destruct (runVanillaQuery_returns rw vanillaPool query searchType H) as [v Ev].
  destruct (runParadeQuery_returns rw paradePool query searchType H) as [p Ep].
  destruct (calculateRelevance_defined (Bench.results v) query Hsafe) as [sv Esv].
  destruct (calculateRelevance_defined (Bench.results p) query Hsafe) as [sp Esp].
  exists (mkAnswers v sv p sp). split.
  - unfold answersOf. cbn [vanillaAnswer vanillaScore paradeAnswer paradeScore].
    split; [exact Ev |]. split; [exact Ep |]. split; [exact Esv | exact Esp].
  - unfold Bench.runQuery. cbn [bind]. rewrite Ev, Ep. cbn [bind].
    rewrite Esv, Esp. reflexivity.
Qed.

Lemma queries_loop_answers (rw : Rewrites) (vanillaPool paradePool : Pool)
      (searchType : string) (queries : list string) :
  Bench.handled searchType = true -> forallb Bench.safeQuery queries = true ->
  forall rr log,
  exists answers lines,
    Forall2 (answersOf rw vanillaPool paradePool searchType) queries answers /\
    Forall2 (recorded rw vanillaPool paradePool)
            (map (pair searchType) queries) lines /\
    fold_left (Bench.runQuery rw vanillaPool paradePool searchType) queries
              (Returned (rr, log))
    = Returned
        (Bench.mkReadResult
           (fold_left (fun t a => Bench.tally t (vanillaAnswer a) (vanillaScore a))
                      answers (Bench.vanilla rr))
           (fold_left (fun t a => Bench.tally t (paradeAnswer a) (paradeScore a))
                      answers (Bench.parade rr)),
         (log ++ lines)%list).
Proof.
  intros H. induction queries as [| q queries IH]; intros Hsafe rr log.
  - exists [], []. split; [constructor |]. split; [constructor |].
    cbn [fold_left]. rewrite app_nil_r. now destruct rr.
  - simpl in Hsafe. apply andb_prop in Hsafe as [Hq Hqs].
    destruct (runQuery_answers rw vanillaPool paradePool searchType q rr log H Hq)
      as (a & Ha & E).
    cbn [fold_left]. rewrite E.
    match type of E with _ = Returned (?rr1, ?log1) =>
      destruct (IH Hqs rr1 log1) as (answers & lines & Has & Hls & E')
    end.
    cbn [Bench.vanilla Bench.parade] in E'.
    eexists (a :: answers), (_ :: lines).
    split; [constructor; [exact Ha | exact Has] |].
    split.
    + cbn [map]. constructor; [| exact Hls].
      exists a. cbn [fst snd]. split; [exact Ha | reflexivity].
    + rewrite E'. cbn [fold_left]. rewrite <- app_assoc. reflexivity.
Qed.

Lemma readLoop_answers (rw : Rewrites) (vanillaPool paradePool : Pool)
      (table : list (string * list string)) :
  forallb Bench.safeEntry table = true ->
  forall done log,
  exists new lines,
    fold_left (Bench.runSearchType rw vanillaPool paradePool) table
              (Returned (done, log))
    = Returned ((done ++ new)%list, (log ++ lines)%list) /\
    Forall2 (tallied rw vanillaPool paradePool) table new /\
    Forall2 (recorded rw vanillaPool paradePool) (callsOf table) lines.
Proof.
  induction table as [| [searchType queries] table IH]; intros Hsafe done log.
  - exists [], []. rewrite !app_nil_r. split; [reflexivity |].
    split; constructor.
  - simpl in Hsafe. apply andb_prop in Hsafe as [He Ht].
    unfold Bench.safeEntry in He. simpl in He. apply andb_prop in He as [Hh Hq].
    destruct (queries_loop_answers rw vanillaPool paradePool searchType
                (firstn 5 queries) Hh Hq
                (Bench.mkReadResult (Bench.mkTally 0 0 0) (Bench.mkTally 0 0 0)) log)
      as (answers & lines1 & Has & Hls & E).
    cbn [Bench.vanilla Bench.parade] in E.
    cbn [fold_left]. unfold Bench.runSearchType at 2. cbn [bind fst snd].
    rewrite E. cbn [bind fst snd].
    match goal with |- context [Returned ((done ++ [(searchType, ?rr)])%list, _)] =>
      destruct (IH Ht (done ++ [(searchType, rr)])%list (log ++ lines1)%list)
        as (new & lines & E' & Hnew & Hlines);
      exists ((searchType, rr) :: new), (lines1 ++ lines)%list
    end.
    split; [rewrite E', <- !app_assoc; reflexivity |].
    split.
    + constructor; [| exact Hnew]. split; [reflexivity |].
      exists answers. cbn [fst snd]. split; [exact Has | reflexivity].
    + unfold callsOf. cbn [flat_map fst snd]. apply Forall2_app; assumption.
Qed.

(** C7.  A failed query stays where it happened.
    - In the benchmark script, when the call a dispatcher makes for
      (query, search type) is rejected, [runVanillaQuery] and
      [runParadeQuery] return the object with duration 0, count 0, no
      results and the message of the error; nothing propagates.
    - Whatever the two pools answer, the read loop of [runBenchmark]
      returns normally after it has logged every query of the run, in
      order, for every search type.  For each query both engines are
      asked, whatever the first one answered: the line printed for the
      query shows the duration and the relevance of the answer of each
      engine, and the tallies of a search type are those of the answers
      of the two engines to its queries (an answer that carries an error
      is left out of the tally of its engine by [!result.error]).
    - In [server.js] the dispatchers themselves let the rejection
      propagate, and the handler catches it: when one engine fails on a
      non-empty query, the other engine's outcome is in the response
      next to the error object, and the handler answers 200 (unless a
      query term with pattern syntax takes the scoring of the surviving
      results outside the model). *)
Theorem C7_query_failure_is_contained
        (rw : Rewrites) (vanillaPool paradePool : Pool)
        (query searchType : string) (err : Error) :
  (forall text params,
     Bench.vanillaSwitch rw query searchType = Some (text, params) ->
     vanillaPool text params = Rejected err ->
     Bench.runVanillaQuery rw vanillaPool query searchType
     = Returned (Bench.mkQueryResult 0 0 [] (Some (message err)))) /\
  (forall text params,
     Bench.paradeSwitch rw query searchType = Some (text, params) ->
     paradePool text params = Rejected err ->
     Bench.runParadeQuery rw paradePool query searchType
     = Returned (Bench.mkQueryResult 0 0 [] (Some (message err)))) /\
  (exists readResults log,
     Bench.readBenchmark rw vanillaPool paradePool = Returned (readResults, log) /\
     map Bench.logQuery log = Bench.queriesRun Bench.testQueries /\
     map fst readResults = map fst Bench.testQueries /\
     Forall2 (recorded rw vanillaPool paradePool) (callsOf Bench.testQueries) log /\
     Forall2 (tallied rw vanillaPool paradePool) Bench.testQueries readResults) /\
  (query <> "" ->
   Server.runVanillaSearch rw vanillaPool query searchType = Thrown err ->
   exists paradeResult,
     tryCatch (Server.runParadeSearch rw paradePool query searchType)
              (fun e => Returned (Server.errorResult e))
     = Returned paradeResult /\
     match Server.benchmarkHandler rw vanillaPool paradePool
             (Server.mkRequestBody (Some query) (Some searchType)) with
     | Returned (Server.Status200 body) =>
         Server.searchResult (Server.vanilla body)
         = Server.mkSearchResult [] 0 0 None None None None (Some (message err)) /\
         Server.searchResult (Server.parade body) = paradeResult
     | OutsideModel =>
         calculateRelevanceScore (Some (Server.results paradeResult)) query = None
     | _ => False
     end) /\
  (query <> "" ->
   Server.runParadeSearch rw paradePool query searchType = Thrown err ->
   exists vanillaResult,
     tryCatch (Server.runVanillaSearch rw vanillaPool query searchType)
              (fun e => Returned (Server.errorResult e))
     = Returned vanillaResult /\
     match Server.benchmarkHandler rw vanillaPool paradePool
             (Server.mkRequestBody (Some query) (Some searchType)) with
     | Returned (Server.Status200 body) =>
         Server.searchResult (Server.vanilla body) = vanillaResult /\
         Server.searchResult (Server.parade body)
         = Server.mkSearchResult [] 0 0 None None None None (Some (message err))
     | OutsideModel =>
         calculateRelevanceScore (Some (Server.results vanillaResult)) query = None
     | _ => False
     end).
Proof.
  split; [| split; [| split; [| split]]].
  - intros text params Hs Hp. unfold Bench.runVanillaQuery.
    rewrite Hs. simpl. now rewrite Hp.
  - intros text params Hs Hp. unfold Bench.runParadeQuery.
    rewrite Hs. simpl. now rewrite Hp.
  - destruct (readLoop_returns rw vanillaPool paradePool Bench.testQueries
                testQueries_safe [] []) as (done & log & E & Hlog & Hdone).
    destruct (readLoop_answers rw vanillaPool paradePool Bench.testQueries
                testQueries_safe [] []) as (new & lines & E' & Hnew & Hlines).
    rewrite E in E'. cbn [app] in E'. injection E' as -> ->.
    exists new, lines. split; [exact E |].
    split; [exact Hlog |]. split; [exact Hdone |]. split; assumption.
  - intros Hq Hv.
    destruct (caught_search _ (runParadeSearch_defined rw paradePool query searchType))
      as [p Ep].
    exists p. split; [exact Ep |].
    unfold Server.benchmarkHandler. cbn [Server.bodyQuery Server.bodySearchType].
    rewrite (falsy_query query Hq). cbn [orEmpty].
    rewrite Hv, Ep. cbn [tryCatch bind Server.errorResult Server.results].
    change (calculateRelevanceScore (Some []) query) with (Some 0%Q).
    cbn [scored bind].
    destruct (calculateRelevanceScore (Some (Server.results p)) query) as [s |];
      cbn [scored bind]; [| reflexivity].
    destruct (Server.accuracyOf _ _). split; reflexivity.
  - intros Hq Hp.
    destruct (caught_search _ (runVanillaSearch_defined rw vanillaPool query searchType))
      as [v Ev].
    exists v. split; [exact Ev |].
    unfold Server.benchmarkHandler. cbn [Server.bodyQuery Server.bodySearchType].
    rewrite (falsy_query query Hq). cbn [orEmpty].
    rewrite Ev, Hp. cbn [tryCatch bind Server.errorResult Server.results].
    change (calculateRelevanceScore (Some []) query) with (Some 0%Q).
    destruct (calculateRelevanceScore (Some (Server.results v)) query) as [s |];
      cbn [scored bind]; [| reflexivity].
    destruct (Server.accuracyOf _ _). split; reflexivity.
Qed.

Lemma C7_query_failure_is_contained_witness :
  Bench.runVanillaQuery Server.noRewrites Server.downPool "samsu" "fuzzy"
  = Returned (Bench.mkQueryResult 0 0 [] (Some "connection refused")) /\
  exists paradeResult,
    tryCatch (Server.runParadeSearch Server.noRewrites Server.oneRowPool "samsu" "fuzzy")
             (fun e => Returned (Server.errorResult e))
    = Returned paradeResult /\
    match Server.benchmarkHandler Server.noRewrites Server.downPool Server.oneRowPool
            (Server.mkRequestBody (Some "samsu") (Some "fuzzy")) with
    | Returned (Server.Status200 body) =>
        Server.searchResult (Server.vanilla body)
        = Server.mkSearchResult [] 0 0 None None None None (Some "connection refused") /\
        Server.searchResult (Server.parade body) = paradeResult
    | OutsideModel =>
        calculateRelevanceScore (Some (Server.results paradeResult)) "samsu" = None
    | _ => False
    end.
Proof.
  destruct (C7_query_failure_is_contained
              Server.noRewrites Server.downPool Server.oneRowPool
              "samsu" "fuzzy" (mkError "connection refused"))
    as (Hv & _ & _ & Hh & _).
  split.
  - apply (Hv BenchSql.vanillaFuzzySQL [Some "samsu"]); reflexivity.
  - apply Hh; [discriminate | reflexivity].
Defined.

End Dispatch_claims.

(* ================================================================== *)
(** ** Batch ingestion: partial batches, the counter, the validity test *)
(* ================================================================== *)

Section Ingest_claims.

Import Ingest IngestNotions.
Local Open Scope string_scope.
Local Open Scope list_scope.

(** *** [insertBatch] *)

Lemma fold_insertProduct (json : Json) (store : Store) (products : list Product) :
  forall tx,
  fold_left (insertProduct json store) products tx
  = mkTx (written tx ++ map (rowOf json) (filter (accepts json store) products))
         (logged tx ++ flat_map (failureLine json store) products).
Proof.
  induction products as [| p products IH]; intros [w l]; simpl.
  - now rewrite !app_nil_r.
  - rewrite IH. unfold insertProduct, accepts, failureLine.
    destruct (execErr store (rowOf json p)) as [err |]; simpl.
    + now rewrite <- app_assoc.
    + now rewrite <- app_assoc.
Qed.

Lemma filter_all {A : Type} (f : A -> bool) (l : list A) :
  (forall x, In x l -> f x = true) -> filter f l = l.
Proof.
  induction l as [| x l IH]; intros H; simpl; [reflexivity |].
  rewrite (H x (or_introl eq_refl)). f_equal. apply IH.
  intros y Hy. apply H. now right.
Qed.

Lemma flat_map_none {A B : Type} (f : A -> list B) (l : list A) :
  (forall x, In x l -> f x = []) -> flat_map f l = [].
Proof.
  induction l as [| x l IH]; intros H; simpl; [reflexivity |].
  rewrite (H x (or_introl eq_refl)). apply IH.
  intros y Hy. apply H. now right.
Qed.

Lemma accepted_all (json : Json) (store : Store) (l : list Product) :
  (forall p, In p l -> execErr store (rowOf json p) = None) ->
  filter (accepts json store) l = l /\ flat_map (failureLine json store) l = [].
Proof.
  intros H. split.
  - apply filter_all. intros p Hp. unfold accepts. now rewrite (H p Hp).
  - apply flat_map_none. intros p Hp. unfold failureLine. now rewrite (H p Hp).
Qed.

(** The stores of [Ingest] inside the stores with transactions: the two
    embeddings of [insertBatch] agree on them. *)
Lemma fold_insertProduct_ofStore (json : Json) (store : Store)
      (products : list Product) :
  forall tx,
  let tx' := fold_left (IngestTx.insertProduct json (IngestTx.ofStore store))
                       products tx in
  IngestTx.succeeded (IngestTx.history tx')
  = IngestTx.succeeded (IngestTx.history tx)
    ++ map (rowOf json) (filter (accepts json store) products) /\
  IngestTx.txLogged tx'
  = IngestTx.txLogged tx ++ flat_map (failureLine json store) products.
Proof.
  induction products as [| p products IH]; intros tx.
  - cbn. now rewrite !app_nil_r.
  - cbn [fold_left]. cbv zeta in IH |- *.
    destruct (IH (IngestTx.insertProduct json (IngestTx.ofStore store) tx p))
      as [Hs Hl].
    rewrite Hs, Hl. clear Hs Hl IH.
    unfold IngestTx.insertProduct, IngestTx.ofStore, accepts, failureLine.
    cbn [IngestTx.txExecErr filter flat_map].
    destruct (execErr store (rowOf json p)) as [err |];
      cbn [IngestTx.history IngestTx.txLogged map app];
      unfold IngestTx.succeeded; rewrite flat_map_app; cbn [flat_map fst snd app];
      rewrite <- ?app_assoc; cbn [app]; rewrite ?app_nil_r; split; reflexivity.
Qed.

Lemma insertBatch_ofStore (json : Json) (store : Store)
      (db : list Row) (products : list Product) :
  IngestTx.insertBatch json (IngestTx.ofStore store) db products
  = insertBatch json store db products.
Proof.
  unfold IngestTx.insertBatch, insertBatch.
  destruct (List.length products =? 0)%nat; [reflexivity |].
  cbn [IngestTx.ofStore IngestTx.txBeginErr IngestTx.txPrepareErr
       IngestTx.txCommitErr].
  destruct (beginErr store); [reflexivity |].
  destruct (prepareErr store); [reflexivity |].
  destruct (fold_insertProduct_ofStore json store products
              (IngestTx.mkTxState [] [])) as [Hs Hl].
  cbn [IngestTx.history IngestTx.txLogged IngestTx.succeeded flat_map app] in Hs, Hl.
  rewrite fold_insertProduct. cbn [written logged app].
  rewrite Hs, Hl. reflexivity.
Qed.

(** On PostgreSQL a transaction that has met a refused record stays
    failed to its end. *)
Lemma failed_app (h : IngestTx.History) (e : Row * option string) :
  IngestTx.failed (h ++ [e])
  = IngestTx.failed h || match snd e with Some _ => true | None => false end.
Proof.
  unfold IngestTx.failed. rewrite existsb_app. cbn [existsb].
  now rewrite orb_false_r.
Qed.

Lemma fold_insertProduct_postgres (json : Json) (products : list Product) :
  forall tx,
  IngestTx.failed
    (IngestTx.history
       (fold_left (IngestTx.insertProduct json IngestTx.postgres) products tx))
  = IngestTx.failed (IngestTx.history tx)
    || existsb (IngestTx.refused json) products.
Proof.
  induction products as [| p products IH]; intros tx.
  - cbn. now rewrite orb_false_r.
  - cbn [fold_left existsb]. rewrite IH. clear IH.
    unfold IngestTx.insertProduct, IngestTx.refused.
    cbn [IngestTx.postgres IngestTx.txExecErr].
    destruct (IngestTx.failed (IngestTx.history tx)) eqn:Ef.
    + cbn [IngestTx.history]. rewrite failed_app, Ef. reflexivity.
    + destruct (IngestTx.tooLong (rowOf json p)) as [err |];
        cbn [IngestTx.history]; rewrite failed_app, Ef; reflexivity.
Qed.

(** On PostgreSQL one refused record costs the whole batch: the call
    returns the error of [Commit] and the table is as it was. *)
Lemma postgres_loses_the_batch (json : Json) (db : list Row)
      (products : list Product) :
  existsb (IngestTx.refused json) products = true ->
  table (IngestTx.insertBatch json IngestTx.postgres db products) = db /\
  returned (IngestTx.insertBatch json IngestTx.postgres db products)
  = Some "pq: Could not complete operation in a failed transaction".
Proof.
  intros H. unfold IngestTx.insertBatch.
  destruct products as [| p products]; [discriminate H |].
  cbn [List.length Nat.eqb].
  cbn [IngestTx.postgres IngestTx.txBeginErr IngestTx.txPrepareErr
       IngestTx.txCommitErr].
  rewrite fold_insertProduct_postgres, H. cbn [IngestTx.history IngestTx.failed existsb orb].
  split; reflexivity.
Qed.

(** C4.  On the store the program opens, the claim fails.  A batch of
    three records whose second has an ASIN of 21 characters (the column
    is [VARCHAR(20)]): the loop logs the failure and goes on, as its
    comment says, but the transaction has failed with that statement, so
    the [Exec] of the third record is refused as well, [Commit] returns
    an error and the deferred [Rollback] applies.  The call returns the
    error and the table has gained no row, where the claim has it gain
    the other two. *)
Theorem C4_postgres_loses_the_whole_batch :
  IngestTx.insertBatch toyJson IngestTx.postgres [] [book; IngestTx.longAsin; desk]
  = mkBatchResult []
      [("Error inserting product B00000000000000000021: " ++
        "pq: value too long for type character varying(20)")%string;
       ("Error inserting product B000000003: " ++
        "pq: current transaction is aborted, " ++
        "commands ignored until end of transaction block")%string]
      (Some "pq: Could not complete operation in a failed transaction"%string) /\
  List.length
    (table (IngestTx.insertBatch toyJson IngestTx.postgres []
              [book; IngestTx.longAsin; desk]))
  <> (List.length [book; IngestTx.longAsin; desk] - 1)%nat.
Proof.
  split; [reflexivity |].
  rewrite (proj1 (postgres_loses_the_batch toyJson []
                    [book; IngestTx.longAsin; desk] eq_refl)).
  discriminate.
Qed.

(** *** The producer loop of [processAmazonData] *)

Lemma int32_add (n delta : Z) : AddInt32 (int32 n) delta = int32 (n + delta).
Proof.
  unfold AddInt32, int32.
  replace ((n + 2 ^ 31) mod 2 ^ 32 - 2 ^ 31 + delta + 2 ^ 31)%Z
    with ((n + 2 ^ 31) mod 2 ^ 32 + delta)%Z by lia.
  rewrite Z.add_mod_idemp_l by lia.
  f_equal. f_equal. lia.
Qed.

Lemma int32_small (n : Z) : (0 <= n < 2 ^ 31)%Z -> int32 n = n.
Proof.
  intros H. unfold int32. rewrite Z.mod_small; lia.
Qed.

Lemma forward_spec (st : Producer) (product : Product) (n : Z) :
  processedCount st = int32 n ->
  forwarded (forward st product) = (forwarded st ++ [product])%list /\
  processedCount (forward st product) = int32 (n + 1).
Proof.
  intros Hn. unfold forward, forwarded.
  destruct (Z.of_nat (List.length (batch st ++ [product])) >=? BatchSize)%Z;
    cbn [batch batchChan processedCount]; rewrite Hn, int32_add.
  - split; [| reflexivity].
    rewrite concat_app. simpl. now rewrite !app_nil_r, app_assoc.
  - split; [| reflexivity]. now rewrite app_assoc.
Qed.

(** The loop hands on exactly the decoded records that pass the test, in
    order, and counts each of them once. *)
Lemma scanLoop_spec (json : Json) (lines : list string) : forall st n,
  processedCount st = int32 n ->
  forwarded (scanLoop json lines st)
  = (forwarded st ++ filter forwardable (decoded json lines))%list /\
  processedCount (scanLoop json lines st)
  = int32 (n + Z.of_nat (List.length (filter forwardable (decoded json lines)))).
Proof.
  induction lines as [| line lines IH]; intros st n Hn.
  - simpl. rewrite app_nil_r, Z.add_0_r. now split.
  - cbn [scanLoop decoded flat_map].
    change (flat_map _ lines) with (decoded json lines).
    replace (negb ((SampleSize =? 0)%Z || (processedCount st <? SampleSize)%Z))
      with false by reflexivity.
    destruct (line =? ""); [apply IH, Hn |].
    destruct (Unmarshal json (jsonLineOf line)) as [product |];
      [| apply IH, Hn].
    replace ((SampleSize >? 0)%Z &&
             (processedCount (if forwardable product
                              then forward st product else st) >=? SampleSize)%Z)
      with false by reflexivity.
    cbn [app filter]. destruct (forwardable product).
    + destruct (forward_spec st product n Hn) as [Hf Hc].
      destruct (IH (forward st product) (n + 1)%Z Hc) as [IHf IHc].
      rewrite IHf, IHc, Hf. cbn [List.length].
      split; [now rewrite <- app_assoc | f_equal; lia].
    + apply IH, Hn.
Qed.

Lemma produce_spec (json : Json) (lines : list string) :
  concat (batchChan (produce json lines))
  = filter forwardable (decoded json lines) /\
  processedCount (produce json lines)
  = int32 (Z.of_nat (List.length (filter forwardable (decoded json lines)))).
Proof.
  destruct (scanLoop_spec json lines (mkProducer [] [] 0) 0 eq_refl) as [Hf Hc].
  unfold produce. unfold forwarded in Hf. cbn [batchChan batch concat app] in Hf.
  destruct (scanLoop json lines (mkProducer [] [] 0)) as [b chan c] eqn:E.
  cbn [batch batchChan processedCount] in *.
  destruct b as [| p b]; cbn [List.length Nat.ltb Nat.leb batchChan processedCount].
  - rewrite app_nil_r in Hf. now split.
  - split; [| exact Hc]. rewrite concat_app. simpl. now rewrite app_nil_r.
Qed.

(** C9.  The records sent to the worker pool are exactly the decoded
    records whose ASIN and title are both non-empty, each once and in input
    order; a record failing the test is in no batch, and the counter
    counts the records sent and nothing else. *)
Theorem C9_forwarded_iff_asin_and_title (json : Json) (lines : list string) :
  concat (batchChan (produce json lines))
  = filter forwardable (decoded json lines) /\
  (forall product,
     In product (concat (batchChan (produce json lines))) <->
     In product (decoded json lines) /\ ASIN product <> "" /\ Title product <> "") /\
  processedCount (produce json lines)
  = int32 (Z.of_nat (List.length (concat (batchChan (produce json lines))))).
Proof.
  destruct (produce_spec json lines) as [Hs Hc].
  split; [exact Hs |]. split.
  - intros product. rewrite Hs, filter_In. unfold forwardable.
    rewrite andb_true_iff, !negb_true_iff, !String.eqb_neq. tauto.
  - now rewrite Hs.
Qed.

(** *** The counter and the rows written *)

Lemma insertBatch_neverFails (json : Json) (store : Store)
      (db : list Row) (products : list Product) :
  neverFails store ->
  insertBatch json store db products
  = mkBatchResult (db ++ map (rowOf json) products) [] None.
Proof.
  intros (Hb & Hp & Hc & He). unfold insertBatch.
  destruct products as [| p products].
  - simpl. now rewrite app_nil_r.
  - cbn [List.length Nat.eqb]. rewrite Hb, Hp, Hc, fold_insertProduct.
    destruct (accepted_all json store (p :: products)) as [Fa La].
    { intros q _. apply He. }
    rewrite Fa, La. reflexivity.
Qed.

Lemma drain_neverFails (json : Json) (store : Store) (order : list (list Product)) :
  neverFails store ->
  forall db log,
  fold_left (work json store) order (db, log)
  = ((db ++ map (rowOf json) (concat order))%list, log).
Proof.
  intros H. induction order as [| products order IH]; intros db log.
  - simpl. now rewrite app_nil_r.
  - cbn [fold_left]. unfold work at 2. cbn [fst snd].
    rewrite (insertBatch_neverFails json store db products H).
    cbn [table logLines returned]. rewrite IH.
    rewrite !app_nil_r. simpl. now rewrite map_app, app_assoc.
Qed.

Lemma length_concat_perm {A : Type} (l l' : list (list A)) :
  Permutation l l' -> List.length (concat l) = List.length (concat l').
Proof.
  induction 1; simpl; rewrite ?length_app in *; lia.
Qed.

(** Every record of a batch is written or logged; what a batch adds to
    the table; the sizes of the batches. *)

Lemma accepted_or_logged (json : Json) (store : Store) (products : list Product) :
  (List.length (filter (accepts json store) products)
   + List.length (flat_map (failureLine json store) products))%nat
  = List.length products.
Proof.
  induction products as [| p products IH]; [reflexivity |].
  cbn [filter flat_map]. unfold accepts at 1, failureLine at 1.
  destruct (execErr store (rowOf json p)); cbn [List.length app]; lia.
Qed.

Lemma insertBatch_cases (json : Json) (store : Store)
      (db : list Row) (products : list Product) :
  let r := insertBatch json store db products in
  (returned r = None /\
   table r = db ++ map (rowOf json) (filter (accepts json store) products) /\
   (List.length (table r) + List.length (logLines r)
    = List.length db + List.length products)%nat) \/
  (returned r <> None /\ table r = db /\
   (List.length (logLines r) <= List.length products)%nat).
Proof.
  unfold insertBatch. destruct products as [| p products].
  { left. cbn. rewrite app_nil_r. repeat split; lia. }
  cbn [List.length Nat.eqb].
  destruct (beginErr store); [right; cbn; repeat split; [discriminate | lia] |].
  destruct (prepareErr store); [right; cbn; repeat split; [discriminate | lia] |].
  rewrite fold_insertProduct. cbn [written logged app].
  pose proof (accepted_or_logged json store (p :: products)) as Hn.
  change (List.length (p :: products)) with (S (List.length products)) in Hn.
  destruct (commitErr store); cbn [returned table logLines].
  - right. split; [discriminate |]. split; [reflexivity |]. lia.
  - left. split; [reflexivity |]. split; [reflexivity |].
    rewrite length_app, length_map. lia.
Qed.

Lemma forward_sizes (st : Producer) (product : Product) :
  Forall (fun b => Z.of_nat (List.length b) = BatchSize) (batchChan st) ->
  (Z.of_nat (List.length (batch st)) < BatchSize)%Z ->
  Forall (fun b => Z.of_nat (List.length b) = BatchSize) (batchChan (forward st product)) /\
  (Z.of_nat (List.length (batch (forward st product))) < BatchSize)%Z.
Proof.
  intros Hfull Hlt. unfold forward.
  destruct (Z.geb_spec (Z.of_nat (List.length (batch st ++ [product]))) BatchSize)
    as [Hge | Hlt'];
    cbn [batch batchChan].
  - split; [| reflexivity]. apply Forall_app. split; [exact Hfull |].
    constructor; [| constructor].
    rewrite length_app in Hge |- *. cbn [List.length] in Hge |- *. lia.
  - split; [exact Hfull | exact Hlt'].
Qed.

Lemma scanLoop_sizes (json : Json) (lines : list string) : forall st,
  Forall (fun b => Z.of_nat (List.length b) = BatchSize) (batchChan st) ->
  (Z.of_nat (List.length (batch st)) < BatchSize)%Z ->
  Forall (fun b => Z.of_nat (List.length b) = BatchSize)
         (batchChan (scanLoop json lines st)) /\
  (Z.of_nat (List.length (batch (scanLoop json lines st))) < BatchSize)%Z.
Proof.
  induction lines as [| line lines IH]; intros st Hfull Hlt; [now split |].
  cbn [scanLoop].
  replace (negb ((SampleSize =? 0)%Z || (processedCount st <? SampleSize)%Z))
    with false by reflexivity.
  destruct (line =? "")%string; [now apply IH |].
  destruct (Unmarshal json (jsonLineOf line)) as [product |]; [| now apply IH].
  replace ((SampleSize >? 0)%Z &&
           (processedCount (if forwardable product
                            then forward st product else st) >=? SampleSize)%Z)
    with false by reflexivity.
  destruct (forwardable product); [| now apply IH].
  destruct (forward_sizes st product Hfull Hlt) as [Hfull' Hlt'].
  now apply IH.
Qed.

Lemma length_concat_full {A : Type} (size : Z) (l : list (list A)) :
  Forall (fun b => Z.of_nat (List.length b) = size) l ->
  Z.of_nat (List.length (concat l)) = (size * Z.of_nat (List.length l))%Z.
Proof.
  induction 1 as [| b l Hb Hl IH]; cbn [concat List.length]; [lia |].
  rewrite length_app, Nat2Z.inj_add, IH, Hb, Nat2Z.inj_succ. lia.
Qed.

Lemma insertBatch_table (json : Json) (store : Store)
      (db : list Row) (products : list Product) :
  table (insertBatch json store db products)
  = db ++ committed json store products.
Proof.
  unfold committed, insertBatch.
  destruct (List.length products =? 0)%nat; [cbn; now rewrite app_nil_r |].
  destruct (beginErr store); [cbn; now rewrite app_nil_r |].
  destruct (prepareErr store); [cbn; now rewrite app_nil_r |].
  destruct (commitErr store); cbn; [now rewrite app_nil_r | reflexivity].
Qed.

Lemma committed_length (json : Json) (store : Store) (products : list Product) :
  (List.length (committed json store products) <= List.length products)%nat.
Proof.
  unfold committed.
  destruct (insertBatch_cases json store [] products) as [(_ & _ & H) | (_ & -> & _)];
    cbn [List.length] in *; lia.
Qed.

Lemma drain_rows (json : Json) (store : Store) (order : list (list Product)) :
  forall db log,
  fst (fold_left (work json store) order (db, log))
  = db ++ flat_map (committed json store) order.
Proof.
  induction order as [| products order IH]; intros db log.
  - cbn. now rewrite app_nil_r.
  - cbn [fold_left flat_map]. unfold work at 2. cbn [fst snd].
    rewrite IH, insertBatch_table. now rewrite app_assoc.
Qed.

Lemma committed_total (json : Json) (store : Store) (order : list (list Product)) :
  (List.length (flat_map (committed json store) order)
   <= List.length (concat order))%nat.
Proof.
  induction order as [| products order IH]; [reflexivity |].
  cbn [flat_map concat]. rewrite !length_app.
  pose proof (committed_length json store products). lia.
Qed.

Lemma filter_full {A : Type} (f : A -> bool) (l : list A) :
  List.length (filter f l) = List.length l -> forall x, In x l -> f x = true.
Proof.
  induction l as [| a l IH]; intros H x Hx; [destruct Hx |].
  cbn [filter] in H. pose proof (filter_length_le f l) as Hle.
  destruct (f a) eqn:Ea; cbn [List.length] in H; [| lia].
  destruct Hx as [<- | Hx]; [exact Ea | apply IH; [lia | exact Hx]].
Qed.

(** A batch that is written whole met no failing call. *)
Lemma committed_full (json : Json) (store : Store) (products : list Product) :
  products <> [] ->
  List.length (committed json store products) = List.length products ->
  callsSucceed json store products.
Proof.
  intros Hne H. unfold committed, insertBatch in H.
  destruct products as [| p products]; [contradiction |].
  cbn [List.length Nat.eqb] in H.
  destruct (beginErr store) eqn:Eb; [discriminate H |].
  destruct (prepareErr store) eqn:Ep; [discriminate H |].
  rewrite fold_insertProduct in H. cbn [written logged app] in H.
  destruct (commitErr store) eqn:Ec; [discriminate H |].
  cbn [table app] in H. rewrite length_map in H.
  repeat split; try assumption; try reflexivity.
  intros q Hq.
  pose proof (filter_full (accepts json store) (p :: products) H q Hq) as Ha.
  unfold accepts in Ha. now destruct (execErr store (rowOf json q)).
Qed.

Lemma committed_accepted (json : Json) (store : Store) (products : list Product) :
  callsSucceed json store products ->
  committed json store products = map (rowOf json) products.
Proof.
  intros (Hb & Hp & Hc & He). unfold committed, insertBatch.
  destruct products as [| p products]; [reflexivity |].
  cbn [List.length Nat.eqb]. rewrite Hb, Hp, Hc, fold_insertProduct.
  destruct (accepted_all json store (p :: products) He) as [Fa _].
  rewrite Fa. reflexivity.
Qed.

Lemma committed_all_full (json : Json) (store : Store) (order : list (list Product)) :
  List.length (flat_map (committed json store) order) = List.length (concat order) ->
  Forall (fun b => List.length (committed json store b) = List.length b) order.
Proof.
  induction order as [| b order IH]; intros H; [constructor |].
  cbn [flat_map concat] in H. rewrite !length_app in H.
  pose proof (committed_length json store b).
  pose proof (committed_total json store order).
  constructor; [lia | apply IH; lia].
Qed.

Lemma committed_all_accepted (json : Json) (store : Store)
      (order : list (list Product)) :
  callsSucceed json store (concat order) ->
  List.length (flat_map (committed json store) order) = List.length (concat order).
Proof.
  intros (Hb & Hp & Hc & He). induction order as [| b order IH]; [reflexivity |].
  cbn [flat_map concat] in *. rewrite !length_app.
  rewrite committed_accepted, length_map, IH; [reflexivity | |].
  - intros p Hp'. apply He, in_or_app. now right.
  - repeat split; try assumption.
    intros p Hp'. apply He, in_or_app. now left.
Qed.

Lemma produce_batches_nonempty (json : Json) (lines : list string) :
  Forall (fun b => b <> []) (batchChan (produce json lines)).
Proof.
  unfold produce.
  destruct (scanLoop_sizes json lines (mkProducer [] [] 0)) as [Hfull _];
    [constructor | reflexivity |].
  assert (Hchan : Forall (fun b : list Product => b <> [])
                         (batchChan (scanLoop json lines (mkProducer [] [] 0)))).
  { eapply Forall_impl; [| exact Hfull]. cbv beta. intros b Hb ->.
    discriminate Hb. }
  destruct (batch (scanLoop json lines (mkProducer [] [] 0))) as [| p b] eqn:Eb;
    cbn [List.length Nat.ltb Nat.leb batchChan]; [exact Hchan |].
  apply Forall_app. split; [exact Hchan |].
  constructor; [discriminate | constructor].
Qed.

(** The rows the pool writes are as many as the records sent exactly when
    no record was sent or no call made for them fails. *)
Lemma rows_written_all (json : Json) (store : Store)
      (order sent : list (list Product)) :
  Permutation order sent -> Forall (fun b => b <> []) sent ->
  (List.length (fst (drain json store order [])) = List.length (concat sent) <->
   List.length (concat sent) = 0%nat \/ callsSucceed json store (concat sent)).
Proof.
  intros P Hne. unfold drain. rewrite drain_rows. cbn [app].
  rewrite <- (length_concat_perm _ _ P).
  assert (Hne' : Forall (fun b : list Product => b <> []) order)
    by (eapply Permutation_Forall; [symmetry; exact P | exact Hne]).
  assert (Hin : forall p, In p (concat sent) <-> In p (concat order)).
  { intros p. rewrite !in_concat. split; intros (b & Hb & Hp); exists b;
      (split; [| exact Hp]);
      [apply (Permutation_in b (Permutation_sym P) Hb)
      | apply (Permutation_in b P Hb)]. }
  split.
  - intros H. destruct order as [| b order]; [left; reflexivity |]. right.
    pose proof (committed_all_full json store (b :: order) H) as Hall.
    rewrite Forall_forall in Hall, Hne'.
    destruct (committed_full json store b (Hne' b (or_introl eq_refl))
                (Hall b (or_introl eq_refl))) as (Hb & Hp & Hc & _).
    repeat split; try assumption.
    intros p Hp'. apply Hin in Hp'. apply in_concat in Hp' as (c & Hc' & Hpc).
    destruct (committed_full json store c (Hne' c Hc') (Hall c Hc'))
      as (_ & _ & _ & He).
    now apply He.
  - intros [H0 | (Hb & Hp & Hc & He)].
    + pose proof (committed_total json store order). lia.
    + apply committed_all_accepted. repeat split; try assumption.
      intros p Hp'. apply He, Hin, Hp'.
Qed.

(** C8, as stated, fails: the counter is advanced by the producer when a
    record is put into a batch, before any write.  Three valid records
    are read; the store refuses one of them; the counter ends at 3 while
    2 rows were written. *)
Lemma C8_counterexample :
  processedCount (produce toyJson ["1"; "2"; "3"]) = 3%Z /\
  List.length
    (fst (drain toyJson pickyStore (batchChan (produce toyJson ["1"; "2"; "3"])) []))
  = 2%nat /\
  processedCount (produce toyJson ["1"; "2"; "3"])
  <> Z.of_nat
       (List.length
          (fst (drain toyJson pickyStore
                  (batchChan (produce toyJson ["1"; "2"; "3"])) []))).
Proof. repeat split. discriminate. Qed.

(** C8, amended.  The counter is advanced by the producer, once for every
    decoded record with a non-empty ASIN and title, at the moment the
    record is put into a batch.  For fewer than 2^31 such records its final
    value is their number [n], whatever the store does.  The rows the
    pool writes are [n] as well exactly when there is no such record or
    no call the store receives for these records fails, in whatever order
    the batches are committed; in particular, when no call on the store
    can fail, the pool writes the [n] rows and logs nothing. *)
Theorem C8_counter_counts_forwarded_records
        (json : Json) (store : Store) (lines : list string)
        (order : list (list Product)) :
  let n := List.length (filter forwardable (decoded json lines)) in
  (Z.of_nat n < 2 ^ 31)%Z ->
  Permutation order (batchChan (produce json lines)) ->
  processedCount (produce json lines) = Z.of_nat n /\
  (neverFails store ->
   drain json store order [] = (map (rowOf json) (concat order), []) /\
   List.length (fst (drain json store order [])) = n) /\
  (List.length (fst (drain json store order [])) = n <->
   n = 0%nat \/
   callsSucceed json store (filter forwardable (decoded json lines))).
Proof.
  intros n Hn P. destruct (produce_spec json lines) as [Hs Hc].
  split; [| split].
  - rewrite Hc. apply int32_small. fold n. lia.
  - intros Hstore. unfold drain.
    rewrite (drain_neverFails json store order Hstore). cbn [app fst].
    split; [reflexivity |].
    rewrite length_map, (length_concat_perm _ _ P), Hs. reflexivity.
  - pose proof (rows_written_all json store order _ P
                  (produce_batches_nonempty json lines)) as H.
    rewrite Hs in H. exact H.
Qed.

Lemma C8_counter_counts_forwarded_records_witness :
  processedCount (produce toyJson ["1"; ""; "x"; "4"; "2"; "3"]) = 3%Z /\
  List.length
    (fst (drain toyJson goodStore
            (rev (batchChan (produce toyJson ["1"; ""; "x"; "4"; "2"; "3"]))) []))
  = 3%nat.
Proof.
  destruct (C8_counter_counts_forwarded_records
              toyJson goodStore ["1"; ""; "x"; "4"; "2"; "3"]
              (rev (batchChan (produce toyJson ["1"; ""; "x"; "4"; "2"; "3"]))))
    as (Hc & Hw & _).
  - vm_compute. reflexivity.
  - symmetry. apply Permutation_rev.
  - split; [exact Hc |]. apply Hw. repeat split.
Defined.

End Ingest_claims.

(* ================================================================== *)
(** ** Further properties of the scorers *)
(* ================================================================== *)

Section Scorer_extras.

Import JS Scorer ScorerNotions.
Local Open Scope string_scope.

(** *** Arithmetic on exact scores *)

Lemma Qprod_nonneg (a c w : Q) :
  (0 <= a -> 0 <= c -> 0 <= w -> 0 <= a * c * w)%Q.
Proof. intros. repeat apply Qmult_le_0_compat; assumption. Qed.

Lemma Qshrink (a c : Q) : (0 <= a -> c <= 1 -> a * c <= a)%Q.
Proof.
  intros Ha Hc. rewrite <- (Qmult_1_r a) at 2.
  rewrite (Qmult_comm a c), (Qmult_comm a 1).
  apply Qmult_le_compat_r; assumption.
Qed.

Lemma Qprod_le (a c w b : Q) :
  (0 <= a -> a <= b -> 0 <= c -> c <= 1 -> 0 <= w -> w <= 1 ->
   a * c * w <= b)%Q.
Proof.
  intros Ha Hab Hc Hc1 Hw Hw1.
  pose proof (Qshrink a c Ha Hc1).
  assert (0 <= a * c)%Q by (apply Qmult_le_0_compat; assumption).
  pose proof (Qshrink (a * c) w ltac:(assumption) Hw1). lra.
Qed.

Lemma Qprod_le_half (a c w b : Q) :
  (0 <= a -> a <= b -> 0 <= c -> c <= 1 -> 0 <= w -> w <= 1 # 2 ->
   2 * (a * c * w) <= b)%Q.
Proof.
  intros Ha Hab Hc Hc1 Hw Hw1.
  pose proof (Qshrink a c Ha Hc1).
  assert (H0 : (0 <= a * c)%Q) by (apply Qmult_le_0_compat; assumption).
  assert (w * (a * c) <= (1 # 2) * (a * c))%Q
    by (apply Qmult_le_compat_r; assumption).
  lra.
Qed.

Lemma coverage_range (tm L : Z) :
  (0 <= tm <= L)%Z -> (0 <= inject_Z tm / inject_Z L <= 1)%Q.
Proof.
  intros H. destruct (Z.eq_dec L 0) as [-> | N].
  - assert (tm = 0%Z) by lia. subst. split; compute; discriminate.
  - assert (0 < inject_Z L)%Q
      by (change 0%Q with (inject_Z 0); rewrite <- Zlt_Qlt; lia).
    split.
    + apply Qle_shift_div_l; [assumption |]. rewrite Qmult_0_l.
      change 0%Q with (inject_Z 0). rewrite <- Zle_Qle. lia.
    + apply Qle_shift_div_r; [assumption |]. rewrite Qmult_1_l.
      rewrite <- Zle_Qle. lia.
Qed.

Lemma positionWeight_range (i : nat) :
  (0 < 1 / inject_Z (Z.of_nat i + 1) <= 1)%Q /\
  ((1 <= i)%nat -> (1 / inject_Z (Z.of_nat i + 1) <= 1 # 2)%Q).
Proof.
  assert (P : (0 < inject_Z (Z.of_nat i + 1))%Q)
    by (change 0%Q with (inject_Z 0); rewrite <- Zlt_Qlt; lia).
  split; [split |].
  - apply Qlt_shift_div_l; [assumption |]. rewrite Qmult_0_l. reflexivity.
  - apply Qle_shift_div_r; [assumption |]. rewrite Qmult_1_l.
    change 1%Q with (inject_Z 1). rewrite <- Zle_Qle. lia.
  - intros Hi. apply Qle_shift_div_r; [assumption |].
    assert (H : (inject_Z 2 <= inject_Z (Z.of_nat i + 1))%Q)
      by (rewrite <- Zle_Qle; lia).
    change (inject_Z 2) with 2%Q in H. lra.
Qed.

(** *** [calculateRelevanceScore]: the range of the score *)

Lemma fold_tallyTerm_None (text : string) (terms : list string) :
  fold_left (tallyTerm text) terms None = None.
Proof. induction terms as [| t terms IH]; [reflexivity | exact IH]. Qed.

(** Each matched term is worth 1 or 2 points, and no term is matched
    twice. *)
Lemma fold_tallyTerm_bounds (text : string) (terms : list string) :
  forall a b t,
  fold_left (tallyTerm text) terms (Some (mkTally a b)) = Some t ->
  (b <= termMatches t <= b + Z.of_nat (List.length terms))%Z /\
  (a + (termMatches t - b) <= matchScore t <= a + 2 * (termMatches t - b))%Z.
Proof.
  induction terms as [| term terms IH]; intros a b t H.
  - simpl in H. injection H as <-.
    cbn [termMatches matchScore List.length]. lia.
  - cbn [fold_left] in H. unfold tallyTerm at 2 in H.
    cbn [List.length]. rewrite Nat2Z.inj_succ.
    destruct (includes text term).
    + destruct (wordBoundaryTest term text) as [[|] |].
      * apply IH in H. cbn [matchScore termMatches] in H. lia.
      * apply IH in H. cbn [matchScore termMatches] in H. lia.
      * rewrite fold_tallyTerm_None in H. discriminate.
    + apply IH in H. lia.
Qed.

Lemma countZ_range {A : Type} (p : A -> bool) (l : list A) :
  (0 <= countZ p l <= Z.of_nat (List.length l))%Z.
Proof.
  unfold countZ. pose proof (filter_length_le p l). lia.
Qed.

Lemma titleBonusOf_range (lowTitle : string) (terms : list string) :
  (0 <= titleBonusOf lowTitle terms <= 3 * Z.of_nat (List.length terms))%Z.
Proof.
  unfold titleBonusOf. rewrite fold_titleBonus.
  pose proof (countZ_range (includes lowTitle) terms). lia.
Qed.

(** One result adds between 0 and 5 points per query term, and at most
    half of that from the second position on. *)
Lemma resultScore_range (terms : list string) (r : Row) (i : nat) (s : Q) :
  resultScore terms r i = Some s ->
  (0 <= s <= inject_Z (5 * Z.of_nat (List.length terms)))%Q /\
  ((1 <= i)%nat -> (2 * s <= inject_Z (5 * Z.of_nat (List.length terms)))%Q).
Proof.
  unfold resultScore.
  destruct (fold_left (tallyTerm (textOf r)) terms (Some (mkTally 0 0)))
    as [t |] eqn:E; [| discriminate].
  intros H. injection H as <-.
  apply fold_tallyTerm_bounds in E. destruct E as [Htm Hms].
  pose proof (titleBonusOf_range (toLowerCase (orEmpty (title r))) terms) as Htb.
  set (L := Z.of_nat (List.length terms)) in *.
  set (tb := titleBonusOf (toLowerCase (orEmpty (title r))) terms) in *.
  assert (Ha : (0 <= inject_Z (matchScore t + tb))%Q)
    by (change 0%Q with (inject_Z 0); rewrite <- Zle_Qle; lia).
  assert (Hb : (inject_Z (matchScore t + tb) <= inject_Z (5 * L))%Q)
    by (rewrite <- Zle_Qle; lia).
  destruct (coverage_range (termMatches t) L ltac:(lia)) as [Hc0 Hc1].
  destruct (positionWeight_range i) as [[Hw0 Hw1] Hw2].
  split; [split |].
  - apply Qprod_nonneg; [assumption | assumption | now apply Qlt_le_weak].
  - apply Qprod_le; try assumption. now apply Qlt_le_weak.
  - intros Hi. apply Qprod_le_half; try assumption;
      [now apply Qlt_le_weak | now apply Hw2].
Qed.

Lemma forEachFrom_addResultScore_None (terms : list string) (rs : list Row) :
  forall i, forEachFrom (addResultScore terms) i rs None = None.
Proof. induction rs as [| r rs IH]; intros i; [reflexivity | apply IH]. Qed.

Lemma totalScore_range (terms : list string) (rs : list Row) :
  forall i total total',
  forEachFrom (addResultScore terms) i rs (Some total) = Some total' ->
  (total <= total' <=
   total + inject_Z (5 * Z.of_nat (List.length terms))
           * inject_Z (Z.of_nat (List.length rs)))%Q /\
  ((1 <= i)%nat ->
   (2 * (total' - total) <=
    inject_Z (5 * Z.of_nat (List.length terms))
    * inject_Z (Z.of_nat (List.length rs)))%Q).
Proof.
  set (B := inject_Z (5 * Z.of_nat (List.length terms))).
  induction rs as [| r rs IH]; intros i total total' H.
  - simpl in H. injection H as <-. cbn [List.length Z.of_nat].
    change (inject_Z 0) with 0%Q. split; [| intros _]; lra.
  - cbn [forEachFrom] in H. unfold addResultScore at 2 in H.
    destruct (resultScore terms r i) as [s |] eqn:Es;
      [| rewrite forEachFrom_addResultScore_None in H; discriminate].
    destruct (resultScore_range terms r i s Es) as [[Hs0 Hs1] Hs2].
    destruct (IH (S i) (total + s)%Q total' H) as [[Ht0 Ht1] Ht2].
    fold B in Hs1, Hs2.
    cbn [List.length]. rewrite Nat2Z.inj_succ. unfold Z.succ.
    rewrite inject_Z_plus. change (inject_Z 1) with 1%Q.
    specialize (Ht2 ltac:(lia)).
    set (m := inject_Z (Z.of_nat (List.length rs))) in *.
    split; [split |]; [lra | lra |].
    intros Hi. specialize (Hs2 Hi). lra.
Qed.

Lemma splitWsFrom_nonempty (s : string) : forall cur inRun,
  (1 <= List.length (splitWsFrom cur inRun s))%nat.
Proof.
  induction s as [| c s IH]; intros cur inRun; simpl; [lia |].
  destruct (isWhiteSpace c); [destruct inRun |]; simpl; try apply IH; lia.
Qed.

(** [split(/\s+/)] never returns an empty array. *)
Lemma queryTermsOf_nonempty (query : string) :
  (1 <= List.length (queryTermsOf query))%nat.
Proof. apply splitWsFrom_nonempty. Qed.

Lemma Math_min_cases (a b : Q) :
  (b <= a -> Math_min a b == b)%Q /\ (Math_min a b <= a)%Q /\ (Math_min a b <= b)%Q.
Proof.
  unfold Math_min. destruct (Qle_bool a b) eqn:E.
  - apply Qle_bool_iff in E. repeat split; intros; lra.
  - assert (~ (a <= b)%Q) by (rewrite <- Qle_bool_iff; congruence).
    repeat split; intros; try reflexivity; lra.
Qed.

(** The normalised score: what [calculateRelevanceScore] returns for a
    result set that is not empty. *)
Lemma calculateRelevanceScore_value (r : Row) (rs : list Row) (query : string) (score : Q) :
  calculateRelevanceScore (Some (r :: rs)) query = Some score ->
  exists total,
    forEach (addResultScore (queryTermsOf query)) (r :: rs) (Some 0%Q) = Some total /\
    score = Math_min 100
              (total /
               inject_Z (Z.of_nat (List.length (r :: rs))
                         * Z.of_nat (List.length (queryTermsOf query)) * 5) * 100)%Q.
Proof.
  unfold calculateRelevanceScore.
  destruct (forEach (addResultScore (queryTermsOf query)) (r :: rs) (Some 0%Q))
    as [total |]; [| discriminate].
  intros H. injection H as <-. now exists total.
Qed.

Lemma relevanceScore_range (rs : list Row) (query : string) (score : Q) :
  calculateRelevanceScore (Some rs) query = Some score ->
  (0 <= score <= 100)%Q /\
  ((2 <= List.length rs)%nat -> (score < 100)%Q).
Proof.
  intros H. destruct rs as [| r rs].
  { simpl in H. injection H as <-. split; [lra | simpl; lia]. }
  destruct (calculateRelevanceScore_value r rs query score H) as (total & E & ->).
  unfold forEach in E.
  destruct (totalScore_range _ _ 0 0%Q total E) as [[H0 H1] _].
  pose proof (queryTermsOf_nonempty query) as HL.
  set (L := Z.of_nat (List.length (queryTermsOf query))) in *.
  set (n := Z.of_nat (List.length (r :: rs))) in *.
  assert (Hn : (1 <= n)%Z) by (unfold n; cbn [List.length]; lia).
  set (M := inject_Z (n * L * 5)).
  assert (HM : (0 < M)%Q).
  { unfold M. change 0%Q with (inject_Z 0). rewrite <- Zlt_Qlt. nia. }
  assert (EM : (M == inject_Z (5 * L) * inject_Z n)%Q).
  { unfold M. rewrite <- inject_Z_mult. f_equiv. ring. }
  assert (Hratio : (0 <= total / M * 100)%Q).
  { apply Qmult_le_0_compat; [| lra].
    apply Qle_shift_div_l; [exact HM | lra]. }
  destruct (Math_min_cases 100 (total / M * 100)) as (Hmin & Hle100 & Hle).
  split; [split |].
  - unfold Math_min. destruct (Qle_bool 100 (total / M * 100)); lra.
  - exact Hle100.
  - intros H2.
    (* the first result is bounded by B, the others by B/2 each *)
    cbn [forEachFrom] in E. unfold addResultScore at 2 in E.
    destruct (resultScore (queryTermsOf query) r 0) as [s |] eqn:Es;
      [| rewrite forEachFrom_addResultScore_None in E; discriminate].
    destruct (resultScore_range _ _ _ _ Es) as [[Hs0 Hs1] _].
    destruct (totalScore_range _ _ 1 (0 + s)%Q total E) as [_ Hrest].
    specialize (Hrest ltac:(lia)).
    fold L in Hs1, Hrest.
    assert (Hm : (2 <= inject_Z n)%Q).
    { change 2%Q with (inject_Z 2). rewrite <- Zle_Qle. unfold n. lia. }
    assert (En : (inject_Z n == inject_Z (Z.of_nat (List.length rs)) + 1)%Q).
    { unfold n. cbn [List.length]. rewrite Nat2Z.inj_succ. unfold Z.succ.
      now rewrite inject_Z_plus. }
    assert (HB : (1 <= inject_Z (5 * L))%Q).
    { change 1%Q with (inject_Z 1). rewrite <- Zle_Qle. lia. }
    assert (Hlt : (total < M)%Q).
    { rewrite EM, En. rewrite En in Hm.
      set (B := inject_Z (5 * L)) in *.
      set (m := inject_Z (Z.of_nat (List.length rs))) in *.
      assert (1 <= m)%Q by lra.
      assert (B * 1 <= B * m)%Q.
      { rewrite (Qmult_comm B 1), (Qmult_comm B m).
        apply Qmult_le_compat_r; lra. }
      lra. }
    apply Qle_lt_trans with (total / M * 100)%Q; [exact Hle |].
    assert (total / M < 1)%Q; [| lra].
    apply Qlt_shift_div_r; [exact HM | lra].
Qed.


(** The quotient before [Math.min] is itself at most 100, and is what is
    returned. *)
Lemma relevanceScore_unclamped (r : Row) (rs : list Row) (query : string) (score : Q) :
  calculateRelevanceScore (Some (r :: rs)) query = Some score ->
  exists totalScore,
    forEach (addResultScore (queryTermsOf query)) (r :: rs) (Some 0%Q)
    = Some totalScore /\
    (totalScore /
     inject_Z (Z.of_nat (List.length (r :: rs))
               * Z.of_nat (List.length (queryTermsOf query)) * 5) * 100 <= 100)%Q /\
    (score ==
     totalScore /
     inject_Z (Z.of_nat (List.length (r :: rs))
               * Z.of_nat (List.length (queryTermsOf query)) * 5) * 100)%Q.
Proof.
  intros H.
  destruct (calculateRelevanceScore_value r rs query score H) as (total & E & ->).
  exists total. split; [exact E |].
  unfold forEach in E.
  destruct (totalScore_range _ _ 0 0%Q total E) as [[H0 H1] _].
  pose proof (queryTermsOf_nonempty query) as HL.
  set (L := Z.of_nat (List.length (queryTermsOf query))) in *.
  set (n := Z.of_nat (List.length (r :: rs))) in *.
  assert (Hn : (1 <= n)%Z) by (unfold n; cbn [List.length]; lia).
  set (M := inject_Z (n * L * 5)).
  assert (HM : (0 < M)%Q).
  { unfold M. change 0%Q with (inject_Z 0). rewrite <- Zlt_Qlt. nia. }
  assert (EM : (M == inject_Z (5 * L) * inject_Z n)%Q).
  { unfold M. rewrite <- inject_Z_mult. f_equiv. ring. }
  assert (Hle : (total / M * 100 <= 100)%Q).
  { assert (total / M <= 1)%Q; [| lra].
    apply Qle_shift_div_r; [exact HM | lra]. }
  split; [exact Hle |].
  apply (proj1 (Math_min_cases 100 (total / M * 100))), Hle.
Qed.

(** X1.  Whenever [calculateRelevanceScore] returns a score it lies
    between 0 and 100, and with two results or more it is strictly below
    100: the normaliser [results.length * queryTerms.length * 5] charges
    every position the full 5 points per term while the position weight
    pays at most half of that from the second result on.  The clamp
    [Math.min(100, ...)] never changes the value: for a result set that
    is not empty the quotient [(totalScore / maxPossibleScore) * 100] is
    itself at most 100, and the score returned is that quotient. *)
Theorem X1_relevance_score_range (rs : list Row) (query : string) (score : Q) :
  calculateRelevanceScore (Some rs) query = Some score ->
  (0 <= score <= 100)%Q /\
  ((2 <= List.length rs)%nat -> (score < 100)%Q) /\
  (rs <> [] ->
   exists totalScore,
     forEach (addResultScore (queryTermsOf query)) rs (Some 0%Q) = Some totalScore /\
     (totalScore /
      inject_Z (Z.of_nat (List.length rs)
                * Z.of_nat (List.length (queryTermsOf query)) * 5) * 100 <= 100)%Q /\
     (score ==
      totalScore /
      inject_Z (Z.of_nat (List.length rs)
                * Z.of_nat (List.length (queryTermsOf query)) * 5) * 100)%Q).
Proof.
  intros H. destruct (relevanceScore_range rs query score H) as [Hr Hs].
  split; [exact Hr |]. split; [exact Hs |].
  intros Hne. destruct rs as [| r rs]; [contradiction |].
  apply relevanceScore_unclamped, H.
Qed.

Lemma X1_relevance_score_range_witness :
  (0 <= 800 # 20 <= 100)%Q /\ (800 # 20 < 100)%Q /\
  exists totalScore,
    forEach (addResultScore (queryTermsOf "samsu")) [samsungPhone; appleWatch]
            (Some 0%Q)
    = Some totalScore /\
    (800 # 20 == totalScore / inject_Z (2 * 1 * 5) * 100)%Q.
Proof.
  destruct (X1_relevance_score_range [samsungPhone; appleWatch] "samsu" (800 # 20))
    as (Hr & Hs & Hu).
  - vm_compute. reflexivity.
  - split; [exact Hr |]. split; [apply Hs; simpl; lia |].
    destruct (Hu ltac:(discriminate)) as (totalScore & E & _ & Eq).
    exists totalScore. split; [exact E | exact Eq].
Defined.

(** *** The relevance grade of [calculateNDCG] *)

Lemma gradeTerm_step (r : Row) (score : Z) (term : string) :
  (score <= gradeTerm r score term <= score + 6)%Z /\
  (gradeTerm r score term = score <-> inNoField r term = true) /\
  (gradeTerm r score term = score + 6 <-> inEveryField r term = true)%Z.
Proof.
  unfold gradeTerm, inNoField, inEveryField.
  destruct (includes (toLowerCase (orEmpty (title r))) term),
           (includes (toLowerCase (orEmpty (description r))) term),
           (includes (toLowerCase (orEmpty (brand r))) term);
    cbn [negb andb]; repeat split; intros; try lia; try discriminate;
    try reflexivity.
Qed.

Lemma fold_gradeTerm_range (r : Row) (terms : list string) : forall score,
  let total := fold_left (gradeTerm r) terms score in
  (score <= total <= score + 6 * Z.of_nat (List.length terms))%Z /\
  (total = score <-> forallb (inNoField r) terms = true) /\
  (total = score + 6 * Z.of_nat (List.length terms)
   <-> forallb (inEveryField r) terms = true)%Z.
Proof.
  induction terms as [| t terms IH]; intros score total.
  - subst total. simpl. repeat split; intros; try lia; reflexivity.
  - subst total. cbn [fold_left forallb List.length].
    rewrite Nat2Z.inj_succ.
    destruct (gradeTerm_step r score t) as (Hr & Hn & He).
    destruct (IH (gradeTerm r score t)) as (IHr & IHn & IHe).
    cbv zeta in IHr, IHn, IHe.
    rewrite !andb_true_iff, <- Hn, <- He, <- IHn, <- IHe.
    repeat split; intros; lia.
Qed.

Lemma Qdiv_eq_iff (x d c : Q) : (0 < d)%Q -> (x / d == c <-> x == c * d)%Q.
Proof.
  intros Hd. split; intros H.
  - rewrite <- H. field. lra.
  - rewrite H. field. lra.
Qed.

(** X2.  The relevance grade of a result is a number between 0 and 1; it
    is 0 exactly when no query term occurs in the title, the description
    or the brand, and 1 exactly when every query term occurs in all
    three. *)
Theorem X2_relevance_grade_range (query : string) (r : Row) :
  let terms := queryTermsOf query in
  let grade := relevanceOf terms r in
  (0 <= grade <= 1)%Q /\
  ((grade == 0)%Q <-> forallb (inNoField r) terms = true) /\
  ((grade == 1)%Q <-> forallb (inEveryField r) terms = true).
Proof.
  intros terms grade. subst grade. unfold relevanceOf.
  pose proof (queryTermsOf_nonempty query) as HL. fold terms in HL.
  destruct (fold_gradeTerm_range r terms 0) as (Hr & Hn & He).
  cbv zeta in Hr, Hn, He.
  set (F := fold_left (gradeTerm r) terms 0%Z) in *.
  set (L := Z.of_nat (List.length terms)) in *.
  assert (HD : (0 < inject_Z (L * 6))%Q)
    by (change 0%Q with (inject_Z 0); rewrite <- Zlt_Qlt; lia).
  assert (Hzero : (inject_Z F / inject_Z (L * 6) == 0)%Q <-> F = 0%Z).
  { rewrite (Qdiv_eq_iff _ _ _ HD), Qmult_0_l.
    change 0%Q with (inject_Z 0). apply inject_Z_injective. }
  assert (Hone : (inject_Z F / inject_Z (L * 6) == 1)%Q <-> F = (0 + 6 * L)%Z).
  { rewrite (Qdiv_eq_iff _ _ _ HD), Qmult_1_l, inject_Z_injective. lia. }
  split; [split |]; [| | split].
  - apply Qle_shift_div_l; [exact HD |]. rewrite Qmult_0_l.
    change 0%Q with (inject_Z 0). rewrite <- Zle_Qle. lia.
  - apply Qle_shift_div_r; [exact HD |]. rewrite Qmult_1_l.
    rewrite <- Zle_Qle. lia.
  - rewrite Hzero. exact Hn.
  - rewrite Hone. exact He.
Qed.

(** *** When NDCG vanishes, and what it looks at *)

Lemma not_somePositive_zero (l : list Q) :
  Forall (fun s => (0 <= s)%Q) l -> somePositive l = false ->
  Forall (fun s => (s == 0)%Q) l.
Proof.
  unfold somePositive. induction 1 as [| s l Hs Hl IH]; intros H;
    [constructor |].
  cbn [existsb] in H. apply orb_false_elim in H as [H1 H2].
  constructor; [| now apply IH].
  apply negb_false_iff, Qle_bool_iff in H1. lra.
Qed.

(** X3.  For a result set that is not empty, [calculateNDCG] is 0
    exactly when none of the first [k] results has a positive relevance
    grade; as soon as one of them has, the value is strictly positive. *)
Theorem X3_ndcg_zero_iff_nothing_relevant (rs : list Row) (query : string) (k : nat) :
  (calculateNDCG (Some rs) query k = 0%R
   <-> somePositive (relevanceScoresOf rs query k) = false) /\
  (somePositive (relevanceScoresOf rs query k) = true ->
   (0 < calculateNDCG (Some rs) query k)%R).
Proof.
  assert (Hpos : somePositive (relevanceScoresOf rs query k) = true ->
                 (0 < calculateNDCG (Some rs) query k)%R).
  { intros H. rewrite calculateNDCG_Some.
    pose proof (idcgOf_pos rs query k H) as Hi.
    destruct (Req_dec_T (idcgOf rs query k) 0) as [E | _]; [lra |].
    assert (Hd : (0 < dcgOf (relevanceScoresOf rs query k))%R).
    { rewrite dcgOf_dcgFrom. apply dcgFrom_pos;
        [apply relevanceScoresOf_nonneg | now apply somePositive_Exists]. }
    apply Rmult_lt_0_compat; [| lra].
    apply Rmult_lt_0_compat; [exact Hd | now apply Rinv_0_lt_compat]. }
  split; [| exact Hpos]. split.
  - intros H. destruct (somePositive (relevanceScoresOf rs query k)) eqn:E;
      [| reflexivity].
    specialize (Hpos eq_refl). lra.
  - intros H. rewrite calculateNDCG_Some.
    destruct (Req_dec_T (idcgOf rs query k) 0) as [_ | NE]; [reflexivity |].
    exfalso. apply NE. unfold idcgOf. rewrite dcgOf_dcgFrom.
    apply dcgFrom_all_zero.
    eapply Permutation_Forall; [apply sortBy_perm |].
    apply not_somePositive_zero; [apply relevanceScoresOf_nonneg | exact H].
Qed.

Lemma X3_ndcg_zero_iff_nothing_relevant_witness :
  (0 < calculateNDCG (Some [sonyRadio; appleWatch]) "apple" defaultK)%R.
Proof.
  apply (proj2 (X3_ndcg_zero_iff_nothing_relevant
                  [sonyRadio; appleWatch] "apple" defaultK)).
  vm_compute. reflexivity.
Defined.

(** X4.  Only the first [k] results count: whatever follows them in the
    result set leaves [calculateNDCG] unchanged. *)
Theorem X4_ndcg_ignores_results_after_k
        (rs extra : list Row) (query : string) (k : nat) :
  (k <= List.length rs)%nat ->
  calculateNDCG (Some (rs ++ extra)%list) query k = calculateNDCG (Some rs) query k.
Proof.
  intros Hk. rewrite !calculateNDCG_Some. unfold idcgOf, relevanceScoresOf.
  rewrite firstn_app. replace (k - List.length rs)%nat with 0%nat by lia.
  rewrite firstn_O, app_nil_r. reflexivity.
Qed.

Lemma X4_ndcg_ignores_results_after_k_witness :
  calculateNDCG (Some ([sonyRadio] ++ [appleFull])%list) "apple" 1
  = calculateNDCG (Some [sonyRadio]) "apple" 1.
Proof.
  apply X4_ndcg_ignores_results_after_k. simpl. lia.
Defined.

(** *** Letter case *)

Lemma toLowerChar_idem (c : ascii) : toLowerChar (toLowerChar c) = toLowerChar c.
Proof.
  destruct c as [[] [] [] [] [] [] [] []]; reflexivity.
Qed.

Lemma toLowerCase_idem (s : string) : toLowerCase (toLowerCase s) = toLowerCase s.
Proof.
  induction s as [| c s IH]; simpl; [reflexivity |].
  now rewrite toLowerChar_idem, IH.
Qed.

Lemma toLowerCase_app (s t : string) :
  toLowerCase (s ++ t) = toLowerCase s ++ toLowerCase t.
Proof.
  induction s as [| c s IH]; simpl; [reflexivity | now rewrite IH].
Qed.

Lemma orEmpty_lower (x : option string) :
  toLowerCase (orEmpty (option_map toLowerCase x)) = toLowerCase (orEmpty x).
Proof. destruct x; simpl; [apply toLowerCase_idem | reflexivity]. Qed.

Lemma textOf_lowerRow (r : Row) : textOf (lowerRow r) = textOf r.
Proof.
  unfold textOf, lowerRow. cbn [title description brand].
  rewrite !toLowerCase_app, !orEmpty_lower. reflexivity.
Qed.

Lemma resultScore_lowerRow (terms : list string) (r : Row) (i : nat) :
  resultScore terms (lowerRow r) i = resultScore terms r i.
Proof.
  unfold resultScore. rewrite textOf_lowerRow.
  unfold lowerRow at 1. cbn [title]. now rewrite orEmpty_lower.
Qed.

Lemma relevanceOf_lowerRow (terms : list string) (r : Row) :
  relevanceOf terms (lowerRow r) = relevanceOf terms r.
Proof.
  unfold relevanceOf. f_equal. f_equal.
  assert (E : forall s t, gradeTerm (lowerRow r) s t = gradeTerm r s t).
  { intros s t. unfold gradeTerm, lowerRow. cbn [title description brand].
    now rewrite !orEmpty_lower. }
  generalize 0%Z. induction terms as [| t terms IH]; intros s;
    [reflexivity |].
  cbn [fold_left]. now rewrite E, IH.
Qed.

Lemma forEachFrom_map {A B St : Type} (f : St -> B -> nat -> St) (g : A -> B)
      (h : St -> A -> nat -> St) (l : list A) :
  (forall acc x i, f acc (g x) i = h acc x i) ->
  forall i acc, forEachFrom f i (map g l) acc = forEachFrom h i l acc.
Proof.
  intros E. induction l as [| x l IH]; intros i acc; [reflexivity |].
  simpl. now rewrite E, IH.
Qed.

(** X5.  Neither scorer of [server.js] looks at letter case: putting the
    query and every column of every result in lower case changes neither
    the term-overlap score nor the NDCG. *)
Theorem X5_scores_ignore_letter_case (rs : list Row) (query : string) (k : nat) :
  calculateRelevanceScore (Some (map lowerRow rs)) (toLowerCase query)
  = calculateRelevanceScore (Some rs) query /\
  calculateNDCG (Some (map lowerRow rs)) (toLowerCase query) k
  = calculateNDCG (Some rs) query k.
Proof.
  assert (Eq : queryTermsOf (toLowerCase query) = queryTermsOf query)
    by (unfold queryTermsOf; now rewrite toLowerCase_idem).
  split.
  - destruct rs as [| r rs]; [reflexivity |].
    unfold calculateRelevanceScore. cbn [map]. rewrite Eq.
    change (lowerRow r :: map lowerRow rs) with (map lowerRow (r :: rs)).
    unfold forEach.
    rewrite (forEachFrom_map (addResultScore (queryTermsOf query)) lowerRow
               (addResultScore (queryTermsOf query))).
    + now rewrite length_map.
    + intros acc x i. unfold addResultScore. now rewrite resultScore_lowerRow.
  - rewrite !calculateNDCG_Some. unfold idcgOf, relevanceScoresOf.
    rewrite Eq, firstn_map, map_map.
    rewrite (map_ext _ _ (relevanceOf_lowerRow (queryTermsOf query))).
    reflexivity.
Qed.

End Scorer_extras.

(* ================================================================== *)
(** ** Further properties of the dispatchers, the handler and the read loop *)
(* ================================================================== *)

Section Dispatch_extras.

Import JS Scorer Runtime DispatchNotions.
Local Open Scope string_scope.

(** *** The accuracy verdict of the handler *)

(** X6.  The verdict is "tie" with difference 0 exactly when the two NDCG
    scores are at most 5 points apart; otherwise the engine with the
    higher score wins and the difference reported is the gap, more than 5.
    Exchanging the engines exchanges the verdict and keeps the
    difference. *)
Theorem X6_accuracy_verdict (vanillaNDCG paradeNDCG : R) :
  let verdict := Server.accuracyOf vanillaNDCG paradeNDCG in
  ((-5 <= vanillaNDCG - paradeNDCG <= 5)%R /\ verdict = ("tie", 0%R) \/
   (5 < vanillaNDCG - paradeNDCG)%R /\
     verdict = ("vanilla", (vanillaNDCG - paradeNDCG)%R) \/
   (5 < paradeNDCG - vanillaNDCG)%R /\
     verdict = ("parade", (paradeNDCG - vanillaNDCG)%R)) /\
  Server.accuracyOf paradeNDCG vanillaNDCG
  = (swapWinner (fst verdict), snd verdict).
Proof.
  cbv zeta. unfold Server.accuracyOf.
  destruct (Rlt_dec (paradeNDCG + 5) vanillaNDCG) as [H1 | H1];
    destruct (Rlt_dec (vanillaNDCG + 5) paradeNDCG) as [H2 | H2];
    cbn [fst snd]; try (exfalso; lra).
  - split; [right; left; split; [lra | reflexivity] | reflexivity].
  - split; [right; right; split; [lra | reflexivity] | reflexivity].
  - split; [left; split; [lra | reflexivity] | reflexivity].
Qed.

(** *** The handler answers whatever the engines do *)

Lemma resultScore_defined (terms : list string) (r : Row) (i : nat) :
  forallb regexSafe terms = true -> exists s, resultScore terms r i = Some s.
Proof.
  intros Hsafe. unfold resultScore.
  rewrite (fold_tallyTerm (textOf r) terms 0 0 Hsafe). eauto.
Qed.

Lemma addResultScore_defined (terms : list string) (rs : list Row) :
  forallb regexSafe terms = true ->
  forall i total,
  exists total', forEachFrom (addResultScore terms) i rs (Some total) = Some total'.
Proof.
  intros Hsafe. induction rs as [| r rs IH]; intros i total;
    cbn [forEachFrom]; [eauto |].
  destruct (resultScore_defined terms r i Hsafe) as [s Es].
  unfold addResultScore at 2. rewrite Es. apply IH.
Qed.

Lemma calculateRelevanceScore_defined (results : Results) (query : string) :
  forallb regexSafe (queryTermsOf query) = true ->
  exists score, calculateRelevanceScore results query = Some score.
Proof.
  intros Hsafe. destruct results as [[| r rs] |]; simpl; eauto.
  destruct (addResultScore_defined (queryTermsOf query) (r :: rs) Hsafe 0 0%Q)
    as [total E].
  unfold forEach. cbn [forEachFrom] in E |- *. rewrite E. eauto.
Qed.

(** The two values the handler leaves in [vanilla] and [parade]. *)
Lemma handler_steps (rw : Rewrites) (vanillaPool paradePool : Pool)
      (query : string) (searchType : option string) :
  query <> "" ->
  let st := match searchType with Some s => s | None => "fulltext" end in
  exists v p,
    tryCatch (Server.runVanillaSearch rw vanillaPool query st)
             (fun err => Returned (Server.errorResult err)) = Returned v /\
    tryCatch (Server.runParadeSearch rw paradePool query st)
             (fun err => Returned (Server.errorResult err)) = Returned p /\
    Server.benchmarkHandler rw vanillaPool paradePool
      (Server.mkRequestBody (Some query) searchType)
    = (vanillaRelevance <- scored (calculateRelevanceScore (Some (Server.results v)) query) ;;
       paradeRelevance <- scored (calculateRelevanceScore (Some (Server.results p)) query) ;;
       Returned
         (Server.Status200
            (Server.mkBenchmarkReport query st
               (Server.mkEngineReport v vanillaRelevance
                  (calculateNDCG (Some (Server.results v)) query defaultK))
               (Server.mkEngineReport p paradeRelevance
                  (calculateNDCG (Some (Server.results p)) query defaultK))
               (Server.speedupOf (Server.duration v) (Server.duration p))
               (fst (Server.accuracyOf
                       (calculateNDCG (Some (Server.results v)) query defaultK)
                       (calculateNDCG (Some (Server.results p)) query defaultK)))
               (snd (Server.accuracyOf
                       (calculateNDCG (Some (Server.results v)) query defaultK)
                       (calculateNDCG (Some (Server.results p)) query defaultK)))))).
Proof.
  intros Hq st.
  destruct (caught_search _ (runVanillaSearch_defined rw vanillaPool query st))
    as [v Ev].
  destruct (caught_search _ (runParadeSearch_defined rw paradePool query st))
    as [p Ep].
  exists v, p. split; [exact Ev |]. split; [exact Ep |].
  unfold Server.benchmarkHandler. cbn [Server.bodyQuery Server.bodySearchType].
  rewrite (falsy_query query Hq). cbn [orEmpty]. fold st.
  rewrite Ev, Ep. cbn [bind].
  destruct (calculateRelevanceScore (Some (Server.results v)) query);
    cbn [scored bind]; [| reflexivity].
  destruct (calculateRelevanceScore (Some (Server.results p)) query);
    cbn [scored bind]; [| reflexivity].
  now destruct (Server.accuracyOf _ _).
Qed.

(** X7.  For a query that is not empty and whose terms hold no pattern
    syntax, the handler answers 200 whatever the two pools do and whatever
    search type is asked for; both relevance scores and both NDCG scores
    in the answer lie between 0 and 100. *)
Theorem X7_handler_always_answers
        (rw : Rewrites) (vanillaPool paradePool : Pool)
        (query : string) (searchType : option string) :
  query <> "" ->
  forallb regexSafe (queryTermsOf query) = true ->
  exists body,
    Server.benchmarkHandler rw vanillaPool paradePool
      (Server.mkRequestBody (Some query) searchType)
    = Returned (Server.Status200 body) /\
    Server.reportQuery body = query /\
    (0 <= Server.relevanceScore (Server.vanilla body) <= 100)%Q /\
    (0 <= Server.relevanceScore (Server.parade body) <= 100)%Q /\
    (0 <= Server.ndcgScore (Server.vanilla body) <= 100)%R /\
    (0 <= Server.ndcgScore (Server.parade body) <= 100)%R.
Proof.
  intros Hq Hsafe.
  destruct (handler_steps rw vanillaPool paradePool query searchType Hq)
    as (v & p & _ & _ & ->).
  destruct (calculateRelevanceScore_defined (Some (Server.results v)) query Hsafe)
    as [sv Esv].
  destruct (calculateRelevanceScore_defined (Some (Server.results p)) query Hsafe)
    as [sp Esp].
  rewrite Esv, Esp. cbn [scored bind]. eexists. split; [reflexivity |].
  cbn [Server.reportQuery Server.vanilla Server.parade
       Server.relevanceScore Server.ndcgScore].
  split; [reflexivity |].
  split; [exact (proj1 (relevanceScore_range _ _ _ Esv)) |].
  split; [exact (proj1 (relevanceScore_range _ _ _ Esp)) |].
  split; apply calculateNDCG_range.
Qed.

Lemma X7_handler_always_answers_witness :
  exists body,
    Server.benchmarkHandler Server.noRewrites Server.downPool Server.oneRowPool
      (Server.mkRequestBody (Some "apple watch") (Some "no such type"))
    = Returned (Server.Status200 body) /\
    Server.reportQuery body = "apple watch" /\
    (0 <= Server.relevanceScore (Server.vanilla body) <= 100)%Q /\
    (0 <= Server.relevanceScore (Server.parade body) <= 100)%Q /\
    (0 <= Server.ndcgScore (Server.vanilla body) <= 100)%R /\
    (0 <= Server.ndcgScore (Server.parade body) <= 100)%R.
Proof.
  apply (X7_handler_always_answers
           Server.noRewrites Server.downPool Server.oneRowPool
           "apple watch" (Some "no such type"));
    [discriminate | reflexivity].
Defined.


(** X8.  When the search of an engine throws on a non-empty query, the
    answer of the handler (if it gives one) carries for that engine the
    error object with relevance 0 and NDCG 0, and the speed-up is "N/A"
    ([None]); when both engines throw, the handler does answer, and the
    verdict is a tie with difference 0. *)
Theorem X8_failed_engine_in_the_answer
        (rw : Rewrites) (vanillaPool paradePool : Pool)
        (query : string) (searchType : option string) :
  query <> "" ->
  let st := match searchType with Some s => s | None => "fulltext" end in
  let answer :=
    Server.benchmarkHandler rw vanillaPool paradePool
      (Server.mkRequestBody (Some query) searchType) in
  (forall err body,
     Server.runVanillaSearch rw vanillaPool query st = Thrown err ->
     answer = Returned (Server.Status200 body) ->
     Server.vanilla body
     = Server.mkEngineReport (Server.errorResult err) 0%Q 0%R /\
     Server.speedup body = None) /\
  (forall err body,
     Server.runParadeSearch rw paradePool query st = Thrown err ->
     answer = Returned (Server.Status200 body) ->
     Server.parade body
     = Server.mkEngineReport (Server.errorResult err) 0%Q 0%R /\
     Server.speedup body = None) /\
  (forall ev ep,
     Server.runVanillaSearch rw vanillaPool query st = Thrown ev ->
     Server.runParadeSearch rw paradePool query st = Thrown ep ->
     answer
     = Returned
         (Server.Status200
            (Server.mkBenchmarkReport query st
               (Server.mkEngineReport (Server.errorResult ev) 0%Q 0%R)
               (Server.mkEngineReport (Server.errorResult ep) 0%Q 0%R)
               None "tie" 0%R))).
Proof.
  intros Hq st answer.
  destruct (handler_steps rw vanillaPool paradePool query searchType Hq)
    as (v & p & Ev & Ep & E).
  fold st in Ev, Ep, E. subst answer. rewrite E. clear E.
  assert (Hspeed0l : forall d, Server.speedupOf 0%Q d = None) by reflexivity.
  assert (Hspeed0r : forall d, Server.speedupOf d 0%Q = None).
  { intros d. unfold Server.speedupOf.
    change (Qle_bool 0 0) with true. cbn [negb]. now rewrite andb_false_r. }
  split; [| split].
  - intros err body Hv H. rewrite Hv in Ev. cbn in Ev.
    injection Ev as <-. cbn [Server.results Server.errorResult] in H.
    change (calculateRelevanceScore (Some []) query) with (Some 0%Q) in H.
    cbn [scored bind] in H.
    destruct (calculateRelevanceScore (Some (Server.results p)) query);
      cbn [scored bind] in H; [| discriminate].
    injection H as <-. cbn [Server.vanilla Server.speedup Server.duration].
    split; reflexivity.
  - intros err body Hp H. rewrite Hp in Ep. cbn in Ep.
    injection Ep as <-. cbn [Server.results Server.errorResult] in H.
    change (calculateRelevanceScore (Some []) query) with (Some 0%Q) in H.
    destruct (calculateRelevanceScore (Some (Server.results v)) query);
      cbn [scored bind] in H; [| discriminate].
    injection H as <-. cbn [Server.parade Server.speedup Server.duration].
    split; [reflexivity | apply Hspeed0r].
  - intros ev ep Hv Hp.
    rewrite Hv in Ev. rewrite Hp in Ep. cbn in Ev, Ep.
    injection Ev as <-. injection Ep as <-.
    cbn [Server.results Server.errorResult].
    change (calculateRelevanceScore (Some []) query) with (Some 0%Q).
    cbn [scored bind].
    change (calculateNDCG (Some []) query defaultK) with 0%R.
    assert (Ea : Server.accuracyOf 0 0 = ("tie", 0%R)).
    { unfold Server.accuracyOf.
      destruct (Rlt_dec (0 + 5) 0); [exfalso; lra | reflexivity]. }
    rewrite Ea. reflexivity.
Qed.

Lemma X8_failed_engine_in_the_answer_witness :
  Server.benchmarkHandler Server.noRewrites Server.downPool Server.downPool
    (Server.mkRequestBody (Some "samsu") None)
  = Returned
      (Server.Status200
         (Server.mkBenchmarkReport "samsu" "fulltext"
            (Server.mkEngineReport
               (Server.errorResult (mkError "connection refused")) 0%Q 0%R)
            (Server.mkEngineReport
               (Server.errorResult (mkError "connection refused")) 0%Q 0%R)
            None "tie" 0%R)).
Proof.
  apply (proj2 (proj2 (X8_failed_engine_in_the_answer
                         Server.noRewrites Server.downPool Server.downPool
                         "samsu" None ltac:(discriminate))));
    reflexivity.
Defined.

(** *** What reaches the statement text *)

(** X9.  In [server.js] every call of the two dispatchers binds exactly
    one parameter.  For every search type other than "boolean" the
    statement of [runVanillaSearch] is one of seven texts that do not
    depend on the query; for every search type that has a case, other
    than "boolean", the statement of [runParadeSearch] is one of five
    such texts.  (Nothing is said here of the "boolean" cases and of the
    [default] case of [runParadeSearch].) *)
Theorem X9_statement_text_is_fixed (rw : Rewrites) (query searchType : string) :
  List.length (snd (Server.vanillaSwitch rw query searchType)) = 1%nat /\
  List.length (snd (Server.paradeSwitch rw query searchType)) = 1%nat /\
  (searchType <> "boolean" ->
   In (fst (Server.vanillaSwitch rw query searchType)) fixedVanillaStatements) /\
  (searchType <> "boolean" -> Server.handled searchType = true ->
   In (snd (fst (Server.paradeSwitch rw query searchType))) fixedParadeStatements).
Proof.
  unfold Server.vanillaSwitch, Server.paradeSwitch, Server.handled,
    fixedVanillaStatements, fixedParadeStatements.
  cbn [existsb].
  destruct (searchType =? "fulltext") eqn:E1.
  { cbn [fst snd List.length In]. auto 10. }
  destruct (searchType =? "boolean") eqn:E2.
  { apply String.eqb_eq in E2. cbn [fst snd List.length].
    repeat split; intros; congruence. }
  destruct (searchType =? "field") eqn:E3.
  { destruct (includes query "title:"); [| destruct (includes query "description:");
      [| destruct (includes query "brand:")]];
      cbn [fst snd List.length In]; auto 10. }
  destruct (searchType =? "like") eqn:E4.
  { destruct (negb (includes query " ")); cbn [fst snd List.length In]; auto 10. }
  destruct (searchType =? "exact") eqn:E5.
  { cbn [fst snd List.length In]. auto 10. }
  cbn [fst snd List.length In orb]. repeat split; intros; auto 10.
  discriminate.
Qed.

Lemma X9_statement_text_is_fixed_witness :
  In (fst (Server.vanillaSwitch Server.noRewrites "x'; DROP TABLE products; --" "field"))
     fixedVanillaStatements.
Proof.
  apply (proj1 (proj2 (proj2 (X9_statement_text_is_fixed
                                Server.noRewrites "x'; DROP TABLE products; --" "field")))).
  discriminate.
Defined.

End Dispatch_extras.

(* ================================================================== *)
(** ** Further properties of the benchmark script *)
(* ================================================================== *)

Section Bench_extras.

Import JS Scorer Runtime DispatchNotions.
Local Open Scope string_scope.

(** *** [calculateRelevance] after punctuation is stripped *)

Lemma forallChars_app (p : ascii -> bool) (s t : string) :
  forallChars p (s ++ t) = forallChars p s && forallChars p t.
Proof.
  induction s as [| c s IH]; simpl; [reflexivity |].
  now rewrite IH, andb_assoc.
Qed.

Lemma stripPunctuation_chars (s : string) :
  forallChars (fun c => isWordChar c || isWhiteSpace c) (stripPunctuation s) = true.
Proof.
  induction s as [| c s IH]; simpl; [reflexivity |].
  destruct (isWordChar c || isWhiteSpace c) eqn:E; [| exact IH].
  simpl. now rewrite E, IH.
Qed.

(** The pieces of a split hold no white space; if the rest is made of
    word characters, so are the pieces. *)
Lemma splitWsFrom_word_pieces (s : string) : forall cur inRun,
  forallChars isWordChar cur = true ->
  forallChars (fun c => isWordChar c || isWhiteSpace c) s = true ->
  forallb (forallChars isWordChar) (splitWsFrom cur inRun s) = true.
Proof.
  induction s as [| c s IH]; intros cur inRun Hcur Hs.
  - simpl. now rewrite Hcur.
  - simpl in Hs. apply andb_prop in Hs as [Hc Hs]. simpl.
    destruct (isWhiteSpace c) eqn:Ews.
    + destruct inRun; [now apply IH |].
      simpl. rewrite Hcur. now apply IH.
    + rewrite orb_false_r in Hc. apply IH; [| exact Hs].
      rewrite forallChars_app, Hcur. simpl. now rewrite Hc.
Qed.

Lemma wordChar_not_syntax (c : ascii) :
  isWordChar c = true -> isSyntaxChar c = false.
Proof.
  destruct c as [[] [] [] [] [] [] [] []]; vm_compute; intros H;
    (reflexivity || discriminate H).
Qed.

Lemma word_regexSafe (t : string) :
  forallChars isWordChar t = true -> regexSafe t = true.
Proof.
  induction t as [| c t IH]; intros H; [reflexivity |].
  simpl in H. apply andb_prop in H as [Hc Ht]. simpl.
  now rewrite (wordChar_not_syntax c Hc), IH.
Qed.

Lemma stripped_terms_safe (s : string) :
  forallb regexSafe (splitWhitespace (stripPunctuation s)) = true.
Proof.
  pose proof (splitWsFrom_word_pieces (stripPunctuation s) "" false eq_refl
                (stripPunctuation_chars s)) as H.
  unfold splitWhitespace. rewrite forallb_forall in H |- *.
  intros t Ht. apply word_regexSafe, H, Ht.
Qed.

Lemma searchTermsOf_stripped (query : string) :
  List.length (splitChar ":" query) <> 2%nat ->
  searchTermsOf query = splitWhitespace (stripPunctuation (toLowerCase query)).
Proof.
  intros H. unfold searchTermsOf.
  destruct (includes query ":"); [| reflexivity].
  apply Nat.eqb_neq in H. now rewrite H.
Qed.

Lemma fold_matchTerm_None (text : string) (terms : list string) :
  fold_left (matchTerm text) terms None = None.
Proof. induction terms as [| t terms IH]; [reflexivity | exact IH]. Qed.

Lemma fold_matchTerm_ge (text : string) (terms : list string) : forall m m',
  fold_left (matchTerm text) terms (Some m) = Some m' -> (m <= m')%Z.
Proof.
  induction terms as [| t terms IH]; intros m m' H.
  - simpl in H. injection H as <-. lia.
  - cbn [fold_left] in H. unfold matchTerm at 2 in H.
    destruct (includes text t); [| now apply IH].
    destruct (wordBoundaryTest t text) as [[|] |].
    + apply IH in H. lia.
    + apply IH in H. lia.
    + rewrite fold_matchTerm_None in H. discriminate.
Qed.

Lemma forEachFrom_addMatchScore_None (terms : list string) (rs : list Row) :
  forall i, forEachFrom (addMatchScore terms) i rs None = None.
Proof. induction rs as [| r rs IH]; intros i; [reflexivity | apply IH]. Qed.

Lemma addMatchScore_ge (terms : list string) (rs : list Row) :
  forall i total total',
  forEachFrom (addMatchScore terms) i rs (Some total) = Some total' ->
  (total <= total')%Q.
Proof.
  induction rs as [| r rs IH]; intros i total total' H.
  - simpl in H. injection H as <-. lra.
  - cbn [forEachFrom] in H. unfold addMatchScore at 2 in H.
    destruct (fold_left (matchTerm (benchTextOf r)) terms (Some 0%Z))
      as [m |] eqn:Em;
      [| rewrite forEachFrom_addMatchScore_None in H; discriminate].
    apply fold_matchTerm_ge in Em. apply IH in H.
    destruct (positionWeight_range i) as [[Hw _] _].
    assert (0 <= inject_Z m)%Q
      by (change 0%Q with (inject_Z 0); rewrite <- Zle_Qle; lia).
    assert (0 <= inject_Z m * (1 / inject_Z (Z.of_nat i + 1)))%Q
      by (apply Qmult_le_0_compat; [assumption | now apply Qlt_le_weak]).
    lra.
Qed.

Lemma calculateRelevance_nonneg (results : Results) (query : string) (score : Z) :
  calculateRelevance results query = Some score -> (0 <= score)%Z.
Proof.
  destruct results as [[| r rs] |]; simpl; intros H;
    try (injection H as <-; lia).
  unfold forEach in H.
  destruct (forEachFrom (addMatchScore (searchTermsOf query)) 0 (r :: rs) (Some 0%Q))
    as [total |] eqn:E; [| discriminate].
  injection H as <-. apply addMatchScore_ge in E.
  unfold Math_round. change 0%Z with (Qfloor 0).
  apply Qfloor_resp_le. lra.
Qed.

Lemma stripped_query_safe (query : string) :
  List.length (splitChar ":" query) <> 2%nat -> Bench.safeQuery query = true.
Proof.
  intros H. unfold Bench.safeQuery.
  rewrite (searchTermsOf_stripped query H). apply stripped_terms_safe.
Qed.

Lemma calculateRelevance_total (results : Results) (query : string) :
  Bench.safeQuery query = true ->
  exists score, calculateRelevance results query = Some score.
Proof.
  intros H. destruct results as [rs |]; [| simpl; eauto].
  now apply calculateRelevance_defined.
Qed.

(** X10.  [calculateRelevance] strips punctuation from the query before it
    builds its word patterns, unless the query has the form [field:term]
    (exactly one colon).  So for every other query, whatever characters
    it holds, and for every result set, the scorer returns a score, and
    the score is not negative. *)
Theorem X10_bench_relevance_defined (results : Results) (query : string) :
  List.length (splitChar ":" query) <> 2%nat ->
  forallb regexSafe (searchTermsOf query) = true /\
  exists score,
    calculateRelevance results query = Some score /\ (0 <= score)%Z.
Proof.
  intros H. pose proof (stripped_query_safe query H) as Hsafe.
  split; [exact Hsafe |].
  destruct (calculateRelevance_total results query Hsafe) as [score E].
  exists score. split; [exact E | now apply calculateRelevance_nonneg with results query].
Qed.

Lemma X10_bench_relevance_defined_witness :
  exists score,
    calculateRelevance (Some [appleWatch]) "c++ (apple) [watch]*" = Some score /\
    (0 <= score)%Z.
Proof.
  apply (X10_bench_relevance_defined (Some [appleWatch]) "c++ (apple) [watch]*").
  vm_compute. discriminate.
Defined.

(** *** A search type without a case *)

Lemma fold_runQuery_Thrown (rw : Rewrites) (vp pp : Pool) (st : string)
      (queries : list string) (err : Error) :
  fold_left (Bench.runQuery rw vp pp st) queries (Thrown err) = Thrown err.
Proof. induction queries as [| q queries IH]; [reflexivity | exact IH]. Qed.

Lemma fold_runSearchType_Thrown (rw : Rewrites) (vp pp : Pool)
      (table : list (string * list string)) (err : Error) :
  fold_left (Bench.runSearchType rw vp pp) table (Thrown err) = Thrown err.
Proof. induction table as [| e table IH]; [reflexivity | exact IH]. Qed.

Lemma bench_unhandled (searchType : string) :
  Bench.handled searchType = false ->
  (searchType =? "fulltext") = false /\ (searchType =? "boolean") = false /\
  (searchType =? "field") = false /\ (searchType =? "fuzzy") = false /\
  (searchType =? "exact") = false.
Proof.
  unfold Bench.handled. cbn [existsb]. intros H.
  repeat (apply orb_false_elim in H as [? H]). auto.
Qed.

(** X11.  The dispatchers of the benchmark script have no [default]
    case.  For a search type outside "fulltext", "boolean", "field",
    "fuzzy" and "exact" (the name "like" of [server.js] is one) no
    statement is sent: [result] stays [undefined], reading
    [result.rowCount] throws outside the [try], and a read loop that meets
    such a search type with at least one query ends there with that
    exception, whatever the pools would answer. *)
Theorem X11_bench_unhandled_search_type_throws
        (rw : Rewrites) (vanillaPool paradePool : Pool)
        (query searchType : string) (queries : list string)
        (rest : list (string * list string)) :
  Bench.handled searchType = false ->
  Bench.runVanillaQuery rw vanillaPool query searchType
  = Thrown Bench.undefinedResult /\
  Bench.runParadeQuery rw paradePool query searchType
  = Thrown Bench.undefinedResult /\
  Bench.readLoop rw vanillaPool paradePool ((searchType, query :: queries) :: rest)
  = Thrown Bench.undefinedResult.
Proof.
  intros H. apply bench_unhandled in H as (H1 & H2 & H3 & H4 & H5).
  assert (Ev : Bench.runVanillaQuery rw vanillaPool query searchType
               = Thrown Bench.undefinedResult).
  { unfold Bench.runVanillaQuery, Bench.vanillaSwitch.
    now rewrite H1, H2, H3, H4, H5. }
  split; [exact Ev |]. split.
  - unfold Bench.runParadeQuery, Bench.paradeSwitch.
    now rewrite H1, H2, H3, H4, H5.
  - unfold Bench.readLoop. cbn [fold_left].
    unfold Bench.runSearchType at 2. cbn [bind firstn fold_left].
    unfold Bench.runQuery at 2. cbn [bind]. rewrite Ev. cbn [bind].
    rewrite fold_runQuery_Thrown. cbn [bind].
    apply fold_runSearchType_Thrown.
Qed.

Lemma X11_bench_unhandled_search_type_throws_witness :
  Bench.readLoop Server.noRewrites Server.oneRowPool Server.oneRowPool
    [("like", ["samsu"])]
  = Thrown Bench.undefinedResult.
Proof.
  exact (proj2 (proj2 (X11_bench_unhandled_search_type_throws
                         Server.noRewrites Server.oneRowPool Server.oneRowPool
                         "samsu" "like" [] [] eq_refl))).
Defined.

(** *** The tallies of the read loop *)

(** One pass of the inner loop, with what is known of the two results. *)
Lemma execute_cases (pool : Pool) (text : string) (params : list Param) :
  exists r,
    Bench.execute pool (Some (text, params)) = Returned r /\
    (forall err, pool text params = Rejected err -> r = Bench.errorResult err) /\
    (forall reply, pool text params = Resolved reply -> Bench.error r = None).
Proof.
  cbn [Bench.execute]. destruct (pool text params) as [reply | err];
    eexists; (split; [reflexivity |]); split; intros ? H;
    try discriminate H; try reflexivity.
  now injection H as <-.
Qed.

Lemma runVanillaQuery_cases (rw : Rewrites) (pool : Pool) (query searchType : string) :
  Bench.handled searchType = true ->
  exists r,
    Bench.runVanillaQuery rw pool query searchType = Returned r /\
    (forall err, pool = rejecting err -> r = Bench.errorResult err) /\
    (neverRejects pool -> Bench.error r = None).
Proof.
  intros H. unfold Bench.runVanillaQuery.
  destruct (bench_vanillaSwitch_handled rw query searchType H) as [[text params] ->].
  destruct (execute_cases pool text params) as (r & E & Hrej & Hres).
  exists r. split; [exact E |]. split.
  - intros err ->. now apply Hrej.
  - intros Hn. destruct (Hn text params) as [reply Hr]. now apply Hres with reply.
Qed.

Lemma runParadeQuery_cases (rw : Rewrites) (pool : Pool) (query searchType : string) :
  Bench.handled searchType = true ->
  exists r,
    Bench.runParadeQuery rw pool query searchType = Returned r /\
    (forall err, pool = rejecting err -> r = Bench.errorResult err) /\
    (neverRejects pool -> Bench.error r = None).
Proof.
  intros H. unfold Bench.runParadeQuery.
  destruct (bench_paradeSwitch_handled rw query searchType H) as [[text params] ->].
  destruct (execute_cases pool text params) as (r & E & Hrej & Hres).
  exists r. split; [exact E |]. split.
  - intros err ->. now apply Hrej.
  - intros Hn. destruct (Hn text params) as [reply Hr]. now apply Hres with reply.
Qed.

Lemma runQuery_step (rw : Rewrites) (vanillaPool paradePool : Pool)
      (searchType query : string) (rr : Bench.ReadResult) (log : list Bench.LogLine) :
  Bench.handled searchType = true -> Bench.safeQuery query = true ->
  exists v p sv sp,
    Bench.runQuery rw vanillaPool paradePool searchType (Returned (rr, log)) query
    = Returned
        (Bench.mkReadResult (Bench.tally (Bench.vanilla rr) v sv)
                            (Bench.tally (Bench.parade rr) p sp),
         (log ++ [Bench.mkLogLine query (Bench.duration v) sv (Bench.duration p) sp])%list) /\
    (0 <= sv)%Z /\ (0 <= sp)%Z /\
    (forall err, vanillaPool = rejecting err -> v = Bench.errorResult err /\ sv = 0%Z) /\
    (forall err, paradePool = rejecting err -> p = Bench.errorResult err /\ sp = 0%Z) /\
    (neverRejects vanillaPool -> Bench.error v = None) /\
    (neverRejects paradePool -> Bench.error p = None).
Proof.
  intros H Hsafe. unfold Bench.runQuery. cbn [bind].
  destruct (runVanillaQuery_cases rw vanillaPool query searchType H)
    as (v & -> & Hvr & Hvn).
  destruct (runParadeQuery_cases rw paradePool query searchType H)
    as (p & -> & Hpr & Hpn).
  cbn [bind].
  destruct (calculateRelevance_defined (Bench.results v) query Hsafe) as [sv Esv].
  destruct (calculateRelevance_defined (Bench.results p) query Hsafe) as [sp Esp].
  rewrite Esv, Esp. cbn [bind scored fst snd].
  exists v, p, sv, sp. split; [reflexivity |].
  split; [exact (calculateRelevance_nonneg _ _ _ Esv) |].
  split; [exact (calculateRelevance_nonneg _ _ _ Esp) |].
  split; [| split; [| split; assumption]].
  - intros err Hv. pose proof (Hvr err Hv) as ->. split; [reflexivity |].
    cbn in Esv. now injection Esv as <-.
  - intros err Hp. pose proof (Hpr err Hp) as ->. split; [reflexivity |].
    cbn in Esp. now injection Esp as <-.
Qed.

Lemma tally_rejected (t : Bench.Tally) (err : Error) :
  Bench.tally t (Bench.errorResult err) 0
  = if message err =? ""
    then Bench.mkTally (Bench.totalTime t) (Bench.totalRelevance t) (Bench.queries t + 1)
    else t.
Proof.
  unfold Bench.tally. cbn [Bench.error Bench.errorResult falsy Bench.duration].
  destruct (message err =? ""); [| reflexivity].
  now rewrite !Z.add_0_r.
Qed.

Lemma queries_loop_rejecting (rw : Rewrites) (paradePool : Pool) (err : Error)
      (searchType : string) (queries : list string) :
  Bench.handled searchType = true -> forallb Bench.safeQuery queries = true ->
  forall rr log,
  Forall (fun line => Bench.vanillaMs line = 0%Z /\ Bench.vanillaRel line = 0%Z) log ->
  exists rr' log',
    fold_left (Bench.runQuery rw (rejecting err) paradePool searchType) queries
              (Returned (rr, log))
    = Returned (rr', log') /\
    Forall (fun line => Bench.vanillaMs line = 0%Z /\ Bench.vanillaRel line = 0%Z) log' /\
    Bench.vanilla rr'
    = if message err =? ""
      then Bench.mkTally (Bench.totalTime (Bench.vanilla rr))
                         (Bench.totalRelevance (Bench.vanilla rr))
                         (Bench.queries (Bench.vanilla rr) + Z.of_nat (List.length queries))
      else Bench.vanilla rr.
Proof.
  intros H. induction queries as [| q queries IH]; intros Hsafe rr log Hlog.
  - exists rr, log. split; [reflexivity |]. split; [exact Hlog |].
    cbn [List.length Z.of_nat]. rewrite Z.add_0_r.
    destruct (message err =? ""); [now destruct (Bench.vanilla rr) | reflexivity].
  - simpl in Hsafe. apply andb_prop in Hsafe as [Hq Hqs].
    destruct (runQuery_step rw (rejecting err) paradePool searchType q rr log H Hq)
      as (v & p & sv & sp & E & _ & _ & Hv & _).
    destruct (Hv err eq_refl) as [-> ->].
    cbn [fold_left]. rewrite E.
    match type of E with _ = Returned (?rr1, ?log1) =>
      assert (Hlog1 : Forall (fun line => Bench.vanillaMs line = 0%Z /\
                                          Bench.vanillaRel line = 0%Z) log1)
        by (apply Forall_app; split; [exact Hlog |];
            constructor; [split; reflexivity | constructor]);
      destruct (IH Hqs rr1 log1 Hlog1) as (rr' & log' & E' & Hlog' & Ht)
    end.
    exists rr', log'. split; [exact E' |]. split; [exact Hlog' |].
    rewrite Ht. cbn [Bench.vanilla]. rewrite tally_rejected.
    destruct (message err =? ""); [| reflexivity].
    cbn [Bench.totalTime Bench.totalRelevance Bench.queries List.length].
    rewrite Nat2Z.inj_succ. f_equal; lia.
Qed.

Lemma readLoop_rejecting (rw : Rewrites) (paradePool : Pool) (err : Error)
      (table : list (string * list string)) :
  forallb Bench.safeEntry table = true ->
  forall done log,
  Forall (fun line => Bench.vanillaMs line = 0%Z /\ Bench.vanillaRel line = 0%Z) log ->
  exists new log',
    fold_left (Bench.runSearchType rw (rejecting err) paradePool) table
              (Returned (done, log))
    = Returned ((done ++ new)%list, log') /\
    Forall (fun line => Bench.vanillaMs line = 0%Z /\ Bench.vanillaRel line = 0%Z) log' /\
    Forall2
      (fun entry d =>
         fst d = fst entry /\
         Bench.vanilla (snd d)
         = Bench.mkTally 0 0
             (if message err =? ""
              then Z.of_nat (List.length (firstn 5 (snd entry))) else 0))
      table new.
Proof.
  induction table as [| [searchType queries] table IH]; intros Hsafe done log Hlog.
  - exists [], log. rewrite app_nil_r. split; [reflexivity |].
    split; [exact Hlog | constructor].
  - simpl in Hsafe. apply andb_prop in Hsafe as [He Ht].
    unfold Bench.safeEntry in He. simpl in He. apply andb_prop in He as [Hh Hq].
    destruct (queries_loop_rejecting rw paradePool err searchType
                (firstn 5 queries) Hh Hq
                (Bench.mkReadResult (Bench.mkTally 0 0 0) (Bench.mkTally 0 0 0))
                log Hlog)
      as (rr & log1 & E & Hlog1 & Hrr).
    cbn [fold_left]. unfold Bench.runSearchType at 2. cbn [bind fst snd].
    rewrite E. cbn [bind fst snd].
    destruct (IH Ht (done ++ [(searchType, rr)])%list log1 Hlog1)
      as (new & log' & E' & Hlog' & Hnew).
    exists ((searchType, rr) :: new), log'.
    split; [rewrite E'; now rewrite <- app_assoc |].
    split; [exact Hlog' |].
    constructor; [| exact Hnew]. cbn [fst snd]. split; [reflexivity |].
    rewrite Hrr. cbn [Bench.vanilla Bench.totalTime Bench.totalRelevance Bench.queries].
    destruct (message err =? ""); reflexivity.
Qed.

(** X12.  When every statement sent to the first engine is rejected with
    error [err], the read loop still returns; every line it prints shows
    0 ms and relevance 0 for that engine; and the tally of that engine
    stays at [{totalTime: 0, totalRelevance: 0, queries: 0}] for every
    search type, so the failed queries do not enter the averages.  The
    test is [!vanillaResult.error] on [err.message]: an error whose
    message is the empty string passes it, and the queries are then
    counted as answered, in 0 ms with relevance 0. *)
Theorem X12_rejected_queries_and_the_tally
        (rw : Rewrites) (paradePool : Pool) (err : Error)
        (table : list (string * list string)) :
  forallb Bench.safeEntry table = true ->
  exists done log,
    Bench.readLoop rw (rejecting err) paradePool table = Returned (done, log) /\
    Forall (fun line => Bench.vanillaMs line = 0%Z /\ Bench.vanillaRel line = 0%Z) log /\
    Forall2
      (fun entry d =>
         fst d = fst entry /\
         Bench.vanilla (snd d)
         = Bench.mkTally 0 0
             (if message err =? ""
              then Z.of_nat (List.length (firstn 5 (snd entry))) else 0))
      table done.
Proof.
  intros Hsafe.
  destruct (readLoop_rejecting rw paradePool err table Hsafe [] [] (Forall_nil _))
    as (new & log & E & Hlog & Hnew).
  exists new, log. split; [exact E |]. split; assumption.
Qed.

Lemma X12_rejected_queries_and_the_tally_witness :
  exists done log,
    Bench.readLoop Server.noRewrites (rejecting (mkError "")) Server.oneRowPool
      Bench.testQueries
    = Returned (done, log) /\
    Forall (fun line => Bench.vanillaMs line = 0%Z /\ Bench.vanillaRel line = 0%Z) log /\
    Forall2
      (fun entry d =>
         fst d = fst entry /\
         Bench.vanilla (snd d)
         = Bench.mkTally 0 0 (Z.of_nat (List.length (firstn 5 (snd entry)))))
      Bench.testQueries done.
Proof.
  apply (X12_rejected_queries_and_the_tally
           Server.noRewrites Server.oneRowPool (mkError "") Bench.testQueries).
  vm_compute. reflexivity.
Defined.

Lemma tally_queries (t : Bench.Tally) (r : Bench.QueryResult) (s : Z) :
  (0 <= s)%Z ->
  (Bench.queries t <= Bench.queries (Bench.tally t r s) <= Bench.queries t + 1)%Z /\
  (Bench.totalRelevance t <= Bench.totalRelevance (Bench.tally t r s))%Z /\
  (Bench.error r = None -> Bench.queries (Bench.tally t r s) = Bench.queries t + 1)%Z.
Proof.
  intros Hs. unfold Bench.tally.
  destruct (Bench.error r) as [m |]; cbn [falsy].
  - destruct (m =? "");
      cbn [Bench.queries Bench.totalRelevance]; repeat split; try lia; discriminate.
  - cbn [Bench.queries Bench.totalRelevance]. repeat split; lia.
Qed.

Lemma queries_loop_counts (rw : Rewrites) (vanillaPool paradePool : Pool)
      (searchType : string) (queries : list string) :
  Bench.handled searchType = true -> forallb Bench.safeQuery queries = true ->
  forall rr log,
  exists rr' log',
    fold_left (Bench.runQuery rw vanillaPool paradePool searchType) queries
              (Returned (rr, log))
    = Returned (rr', log') /\
    let n := Z.of_nat (List.length queries) in
    let q0 := Bench.queries (Bench.vanilla rr) in
    let q1 := Bench.queries (Bench.parade rr) in
    (q0 <= Bench.queries (Bench.vanilla rr') <= q0 + n)%Z /\
    (q1 <= Bench.queries (Bench.parade rr') <= q1 + n)%Z /\
    (Bench.totalRelevance (Bench.vanilla rr)
     <= Bench.totalRelevance (Bench.vanilla rr'))%Z /\
    (Bench.totalRelevance (Bench.parade rr)
     <= Bench.totalRelevance (Bench.parade rr'))%Z /\
    (neverRejects vanillaPool -> Bench.queries (Bench.vanilla rr') = q0 + n)%Z /\
    (neverRejects paradePool -> Bench.queries (Bench.parade rr') = q1 + n)%Z.
Proof.
  intros H. induction queries as [| q queries IH]; intros Hsafe rr log.
  - exists rr, log. split; [reflexivity |]. cbn [List.length Z.of_nat].
    repeat split; intros; lia.
  - simpl in Hsafe. apply andb_prop in Hsafe as [Hq Hqs].
    destruct (runQuery_step rw vanillaPool paradePool searchType q rr log H Hq)
      as (v & p & sv & sp & E & Hsv & Hsp & _ & _ & Hvn & Hpn).
    cbn [fold_left]. rewrite E.
    destruct (IH Hqs
                (Bench.mkReadResult (Bench.tally (Bench.vanilla rr) v sv)
                                    (Bench.tally (Bench.parade rr) p sp))
                (log ++ [Bench.mkLogLine q (Bench.duration v) sv (Bench.duration p) sp])%list)
      as (rr' & log' & E' & Hv1 & Hp1 & Hv2 & Hp2 & Hv3 & Hp3).
    cbn [Bench.vanilla Bench.parade] in Hv1, Hp1, Hv2, Hp2, Hv3, Hp3.
    destruct (tally_queries (Bench.vanilla rr) v sv Hsv) as (Tv1 & Tv2 & Tv3).
    destruct (tally_queries (Bench.parade rr) p sp Hsp) as (Tp1 & Tp2 & Tp3).
    exists rr', log'. split; [exact E' |].
    cbv zeta in Hv1, Hp1, Hv3, Hp3 |- *. cbn [List.length].
    rewrite Nat2Z.inj_succ.
    split; [lia |]. split; [lia |]. split; [lia |]. split; [lia |].
    split.
    + intros Hn. rewrite (Hv3 Hn), (Tv3 (Hvn Hn)). lia.
    + intros Hn. rewrite (Hp3 Hn), (Tp3 (Hpn Hn)). lia.
Qed.

Lemma firstn_5_length (A : Type) (l : list A) :
  (Z.of_nat (List.length (firstn 5 l)) <= 5)%Z.
Proof. pose proof (firstn_le_length 5 l). rewrite length_firstn. lia. Qed.

Lemma readLoop_counts (rw : Rewrites) (vanillaPool paradePool : Pool)
      (table : list (string * list string)) :
  forallb Bench.safeEntry table = true ->
  forall done log,
  exists new log',
    fold_left (Bench.runSearchType rw vanillaPool paradePool) table
              (Returned (done, log))
    = Returned ((done ++ new)%list, log') /\
    Forall2
      (fun entry d =>
         let n := Z.of_nat (List.length (firstn 5 (snd entry))) in
         fst d = fst entry /\ (n <= 5)%Z /\
         (0 <= Bench.queries (Bench.vanilla (snd d)) <= n)%Z /\
         (0 <= Bench.queries (Bench.parade (snd d)) <= n)%Z /\
         (0 <= Bench.totalRelevance (Bench.vanilla (snd d)))%Z /\
         (0 <= Bench.totalRelevance (Bench.parade (snd d)))%Z /\
         (neverRejects vanillaPool -> Bench.queries (Bench.vanilla (snd d)) = n) /\
         (neverRejects paradePool -> Bench.queries (Bench.parade (snd d)) = n))
      table new.
Proof.
  induction table as [| [searchType queries] table IH]; intros Hsafe done log.
  - exists [], log. rewrite app_nil_r. split; [reflexivity | constructor].
  - simpl in Hsafe. apply andb_prop in Hsafe as [He Ht].
    unfold Bench.safeEntry in He. simpl in He. apply andb_prop in He as [Hh Hq].
    destruct (queries_loop_counts rw vanillaPool paradePool searchType
                (firstn 5 queries) Hh Hq
                (Bench.mkReadResult (Bench.mkTally 0 0 0) (Bench.mkTally 0 0 0)) log)
      as (rr & log1 & E & Hv1 & Hp1 & Hv2 & Hp2 & Hv3 & Hp3).
    cbn [Bench.vanilla Bench.parade Bench.queries Bench.totalRelevance]
      in Hv1, Hp1, Hv2, Hp2, Hv3, Hp3.
    cbn [fold_left]. unfold Bench.runSearchType at 2. cbn [bind fst snd].
    rewrite E. cbn [bind fst snd].
    destruct (IH Ht (done ++ [(searchType, rr)])%list log1)
      as (new & log' & E' & Hnew).
    exists ((searchType, rr) :: new), log'.
    split; [rewrite E'; now rewrite <- app_assoc |].
    constructor; [| exact Hnew]. cbn [fst snd].
    split; [reflexivity |]. split; [apply firstn_5_length |].
    split; [lia |]. split; [lia |]. split; [lia |]. split; [lia |].
    split; intros Hn; [rewrite (Hv3 Hn) | rewrite (Hp3 Hn)]; lia.
Qed.

(** X13.  For every behaviour of the two engines, the read loop leaves
    for each search type a tally whose [queries] field lies between 0 and
    the number of queries run for that type, which is at most 5 (the
    loop takes [queries.slice(0, 5)]), and whose [totalRelevance] is not
    negative; for an engine that never rejects a statement, [queries] is
    exactly the number of queries run. *)
Theorem X13_tally_counts_the_answered_queries
        (rw : Rewrites) (vanillaPool paradePool : Pool)
        (table : list (string * list string)) :
  forallb Bench.safeEntry table = true ->
  exists done log,
    Bench.readLoop rw vanillaPool paradePool table = Returned (done, log) /\
    Forall2
      (fun entry d =>
         let n := Z.of_nat (List.length (firstn 5 (snd entry))) in
         fst d = fst entry /\ (n <= 5)%Z /\
         (0 <= Bench.queries (Bench.vanilla (snd d)) <= n)%Z /\
         (0 <= Bench.queries (Bench.parade (snd d)) <= n)%Z /\
         (0 <= Bench.totalRelevance (Bench.vanilla (snd d)))%Z /\
         (0 <= Bench.totalRelevance (Bench.parade (snd d)))%Z /\
         (neverRejects vanillaPool -> Bench.queries (Bench.vanilla (snd d)) = n) /\
         (neverRejects paradePool -> Bench.queries (Bench.parade (snd d)) = n))
      table done.
Proof.
  intros Hsafe.
  destruct (readLoop_counts rw vanillaPool paradePool table Hsafe [] [])
    as (new & log & E & Hnew).
  exists new, log. split; assumption.
Qed.

Lemma X13_tally_counts_the_answered_queries_witness :
  exists done log,
    Bench.readLoop Server.noRewrites Server.downPool Server.oneRowPool
      Bench.testQueries
    = Returned (done, log) /\
    Forall2
      (fun entry d =>
         let n := Z.of_nat (List.length (firstn 5 (snd entry))) in
         fst d = fst entry /\ (n <= 5)%Z /\
         (0 <= Bench.queries (Bench.vanilla (snd d)) <= n)%Z /\
         (0 <= Bench.queries (Bench.parade (snd d)) <= n)%Z /\
         (0 <= Bench.totalRelevance (Bench.vanilla (snd d)))%Z /\
         (0 <= Bench.totalRelevance (Bench.parade (snd d)))%Z /\
         (neverRejects Server.downPool ->
          Bench.queries (Bench.vanilla (snd d)) = n) /\
         (neverRejects Server.oneRowPool ->
          Bench.queries (Bench.parade (snd d)) = n))
      Bench.testQueries done.
Proof.
  apply (X13_tally_counts_the_answered_queries
           Server.noRewrites Server.downPool Server.oneRowPool Bench.testQueries).
  vm_compute. reflexivity.
Defined.

(** *** The column name of a field query *)

Lemma splitCharFrom_absent (sep : ascii) (s : string) : forall cur,
  forallChars (fun c => negb (c =? sep)%char) s = true ->
  splitCharFrom sep cur s = [cur ++ s].
Proof.
  induction s as [| c s IH]; intros cur H.
  - cbn. f_equal. clear H. induction cur as [| d cur IHc]; [reflexivity |].
    cbn. now rewrite <- IHc.
  - cbn in H. apply andb_prop in H as [Hc Hs]. apply negb_true_iff in Hc.
    cbn [splitCharFrom]. rewrite Hc, (IH _ Hs). f_equal.
    clear. induction cur as [| d cur IHc]; [reflexivity |].
    cbn. now rewrite IHc.
Qed.

Lemma splitCharFrom_first (sep : ascii) (s rest : string) : forall cur,
  forallChars (fun c => negb (c =? sep)%char) s = true ->
  splitCharFrom sep cur (s ++ String sep rest)
  = (cur ++ s) :: splitCharFrom sep "" rest.
Proof.
  induction s as [| c s IH]; intros cur H.
  - cbn [String.append splitCharFrom]. rewrite Ascii.eqb_refl. f_equal.
    clear. induction cur as [| d cur IHc]; [reflexivity |].
    cbn. now rewrite <- IHc.
  - cbn in H. apply andb_prop in H as [Hc Hs]. apply negb_true_iff in Hc.
    cbn [String.append splitCharFrom]. rewrite Hc, (IH _ Hs). f_equal.
    clear. induction cur as [| d cur IHc]; [reflexivity |].
    cbn. now rewrite IHc.
Qed.

Lemma splitCharFrom_head (sep : ascii) (s cur : string) :
  exists first others, splitCharFrom sep cur s = first :: others.
Proof.
  revert cur. induction s as [| c s IH]; intros cur; cbn [splitCharFrom].
  - eauto.
  - destruct (c =? sep)%char; [eauto | apply IH].
Qed.

(** X14.  In the "field" case of [runVanillaQuery] the column name put
    into the statement text is whatever stands before the first colon of
    the query: it is not compared with the names of the columns.  The
    bound parameter is the text between the first and the second colon;
    what follows a second colon is dropped.  For a query without a colon
    the whole query is used as the column name and the parameter is
    [undefined]. *)
Theorem X14_field_name_comes_from_the_query
        (rw : Rewrites) (field rest : string) :
  forallChars (fun c => negb (c =? ":")%char) field = true ->
  Bench.vanillaSwitch rw field "field"
  = Some (BenchSql.vanillaFieldSQL field, [None]) /\
  Bench.vanillaSwitch rw (field ++ ":" ++ rest) "field"
  = Some (BenchSql.vanillaFieldSQL field,
          [Some (nth 0 (splitChar ":" rest) "")]).
Proof.
  intros H. unfold Bench.vanillaSwitch.
  change ("field" =? "fulltext") with false.
  change ("field" =? "boolean") with false.
  change ("field" =? "field") with true. cbv iota. split.
  - unfold splitChar. rewrite (splitCharFrom_absent ":" field "" H). reflexivity.
  - unfold splitChar. cbn [String.append].
    rewrite (splitCharFrom_first ":" field rest "" H).
    destruct (splitCharFrom_head ":" rest "") as (first & others & ->).
    reflexivity.
Qed.

Lemma X14_field_name_comes_from_the_query_witness :
  Bench.vanillaSwitch Server.noRewrites "price:10:20" "field"
  = Some (BenchSql.vanillaFieldSQL "price", [Some "10"]).
Proof.
  apply (proj2 (X14_field_name_comes_from_the_query
                  Server.noRewrites "price" "10:20" eq_refl)).
Defined.

End Bench_extras.

(* ================================================================== *)
(** ** Further properties of the batch ingestion *)
(* ================================================================== *)

Section Ingest_extras.

Import Ingest IngestNotions DispatchNotions.
Local Open Scope string_scope.
Local Open Scope list_scope.

(** *** [insertBatch]: rows and log lines *)

(** X15.  What a call of [insertBatch] leaves behind, for every store.
    When it returns [nil], the table has gained the rows of exactly the
    records whose [Exec] succeeded, in input order, and every record of
    the batch is accounted for once: as a row or as a log line.  When it
    returns an error ([Begin], [Prepare] or [Commit] failed) the table is
    as it was before the call, also for the records whose [Exec] had
    succeeded.  When [Begin] and [Prepare] succeed on a non-empty batch
    the log lines are those of the refused records, whether or not
    [Commit] then succeeds. *)
Theorem X15_insertBatch_rows_and_log_lines
        (json : Json) (store : Store) (db : list Row) (products : list Product) :
  let r := insertBatch json store db products in
  (returned r = None ->
   table r = db ++ map (rowOf json) (filter (accepts json store) products) /\
   (List.length (table r) + List.length (logLines r)
    = List.length db + List.length products)%nat) /\
  (returned r <> None -> table r = db) /\
  (beginErr store = None -> prepareErr store = None ->
   logLines r = flat_map (failureLine json store) products).
Proof.
  intros r. split; [| split].
  - intros Hr.
    destruct (insertBatch_cases json store db products) as [(_ & Ht & Hn) | (H & _)];
      [split; assumption | contradiction].
  - intros Hr.
    destruct (insertBatch_cases json store db products) as [(H & _) | (_ & Ht & _)];
      [contradiction | exact Ht].
  - intros Hb Hp. subst r. unfold insertBatch.
    destruct products as [| p products]; [reflexivity |].
    cbn [List.length Nat.eqb]. rewrite Hb, Hp, fold_insertProduct.
    destruct (commitErr store); reflexivity.
Qed.

Lemma X15_insertBatch_rows_and_log_lines_witness :
  table (insertBatch toyJson pickyStore [] [book; lamp; desk])
  = [rowOf toyJson book; rowOf toyJson desk] /\
  logLines (insertBatch toyJson pickyStore [] [book; lamp; desk])
  = ["Error inserting product B000000002: value too long"%string].
Proof.
  destruct (X15_insertBatch_rows_and_log_lines
              toyJson pickyStore [] [book; lamp; desk]) as (Hrows & _ & Hlog).
  split.
  - exact (proj1 (Hrows eq_refl)).
  - exact (Hlog eq_refl eq_refl).
Defined.

(** *** The values bound for one record *)

Lemma string_app_assoc (s t u : string) :
  ((s ++ t) ++ u)%string = (s ++ (t ++ u))%string.
Proof. induction s as [| c s IH]; simpl; [reflexivity | now rewrite IH]. Qed.

(** X16.  Whatever the record holds, the row bound by [stmt.Exec] has a
    non-empty brand, a price that is neither empty nor the text "null",
    and a categories text of the form [{...}]; a brand or price that
    needs no default is bound as it is. *)
Theorem X16_row_defaults (json : Json) (p : Product) :
  brand (rowOf json p) <> ""%string /\
  price (rowOf json p) <> ""%string /\
  price (rowOf json p) <> "null"%string /\
  (Brand p <> ""%string -> brand (rowOf json p) = Brand p) /\
  (Price p <> ""%string -> Price p <> "null"%string ->
   price (rowOf json p) = Price p) /\
  exists body, categories (rowOf json p) = ("{" ++ body ++ "}")%string.
Proof.
  unfold rowOf. cbn [brand price categories].
  split; [| split; [| split; [| split; [| split]]]].
  - destruct (Brand p =? "")%string eqn:E; [discriminate |].
    now apply String.eqb_neq.
  - destruct (Price p =? "")%string eqn:E1; [discriminate |].
    destruct (Price p =? "null")%string eqn:E2; [discriminate |].
    now apply String.eqb_neq.
  - destruct (Price p =? "")%string eqn:E1; [discriminate |].
    destruct (Price p =? "null")%string eqn:E2; [discriminate |].
    now apply String.eqb_neq.
  - intros H. apply String.eqb_neq in H. now rewrite H.
  - intros H1 H2. apply String.eqb_neq in H1, H2. now rewrite H1, H2.
  - unfold categoriesArrayOf.
    destruct (0 <? List.length (Categories p))%nat;
      [| exists ""%string; reflexivity].
    destruct (0 <? List.length (categoryStringsOf (Categories p)))%nat;
      [| exists ""%string; reflexivity].
    exists (dq ++ Join (categoryStringsOf (Categories p)) (dq ++ "," ++ dq) ++ dq)%string.
    now rewrite !string_app_assoc.
Qed.

Lemma X16_row_defaults_witness :
  brand (rowOf toyJson lamp) = "Acme"%string /\
  price (rowOf toyJson lamp) = "9.99"%string.
Proof.
  destruct (X16_row_defaults toyJson lamp) as (_ & _ & _ & Hb & Hp & _).
  split; [apply Hb | apply Hp]; discriminate.
Defined.

(** *** Escaping a category *)

Lemma replaceFrom_char (a : ascii) (new : string) (c : ascii) (s : string) :
  replaceFrom (String a "") new 0 (String c s)
  = if (a =? c)%char
    then (new ++ replaceFrom (String a "") new 0 s)%string
    else String c (replaceFrom (String a "") new 0 s).
Proof.
  cbn [replaceFrom prefix String.length Nat.sub].
  destruct (ascii_dec a c) as [-> | Hne].
  - rewrite Ascii.eqb_refl. now destruct s.
  - apply Ascii.eqb_neq in Hne. now rewrite Hne.
Qed.

Lemma escapeCategory_cons (c : ascii) (s : string) :
  escapeCategory (String c s)
  = if (c =? "\")%char then String "\" (String "\" (escapeCategory s))
    else if (c =? ascii_of_nat 34)%char
         then String "\" (String (ascii_of_nat 34) (escapeCategory s))
         else String c (escapeCategory s).
Proof.
  unfold escapeCategory, ReplaceAll, dq.
  rewrite (replaceFrom_char "\" "\\" c s). rewrite (Ascii.eqb_sym "\" c).
  destruct (c =? "\")%char eqn:E1.
  - cbn [String.append]. rewrite !replaceFrom_char. reflexivity.
  - rewrite replaceFrom_char. rewrite (Ascii.eqb_sym (ascii_of_nat 34) c).
    destruct (c =? ascii_of_nat 34)%char; reflexivity.
Qed.

Lemma readEscaped_escapeCategory (s : string) :
  readEscaped (escapeCategory s) = Some s.
Proof.
  induction s as [| c s IH]; [reflexivity |].
  rewrite escapeCategory_cons.
  destruct (c =? "\")%char eqn:E1.
  - apply Ascii.eqb_eq in E1. subst c.
    cbn [readEscaped]. rewrite Ascii.eqb_refl, IH. reflexivity.
  - destruct (c =? ascii_of_nat 34)%char eqn:E2.
    + apply Ascii.eqb_eq in E2. subst c.
      cbn [readEscaped]. rewrite Ascii.eqb_refl, IH. reflexivity.
    + cbn [readEscaped]. rewrite E1, E2, IH. reflexivity.
Qed.

(** X17.  The two [strings.ReplaceAll] passes that escape a category
    lose nothing: read with the rule that a backslash makes the next
    character literal, the escaped text gives back the category, with no
    double quote left outside an escape; so different categories have
    different escaped texts. *)
Theorem X17_escaped_category_reads_back (s t : string) :
  readEscaped (escapeCategory s) = Some s /\
  (s <> t -> escapeCategory s <> escapeCategory t).
Proof.
  split; [apply readEscaped_escapeCategory |].
  intros Hne E. apply Hne.
  pose proof (readEscaped_escapeCategory s) as Hs.
  rewrite E, readEscaped_escapeCategory in Hs. now injection Hs.
Qed.

Lemma X17_escaped_category_reads_back_witness :
  escapeCategory ("\" ++ dq) <> escapeCategory dq.
Proof.
  apply (proj2 (X17_escaped_category_reads_back ("\" ++ dq)%string dq)).
  discriminate.
Defined.

(** *** The sizes of the batches *)

(** X18.  Every batch the producer sends holds between 1 and [BatchSize]
    records (so the test [len(products) == 0] of [insertBatch] never
    holds for a batch coming from the producer), all batches except
    possibly the last hold exactly [BatchSize] records, and the number of
    batches is the number of accepted records divided by [BatchSize],
    rounded up. *)
Theorem X18_batch_sizes (json : Json) (lines : list string) :
  let sent := batchChan (produce json lines) in
  let n := Z.of_nat (List.length (filter forwardable (decoded json lines))) in
  Forall (fun b => (1 <= Z.of_nat (List.length b) <= BatchSize)%Z) sent /\
  (exists full last,
     sent = full ++ last /\
     Forall (fun b => Z.of_nat (List.length b) = BatchSize) full /\
     (List.length last <= 1)%nat) /\
  Z.of_nat (List.length sent) = ((n + BatchSize - 1) / BatchSize)%Z.
Proof.
  intros sent n.
  destruct (produce_spec json lines) as [Hconcat _]. fold sent in Hconcat.
  assert (Hn : n = Z.of_nat (List.length (concat sent)))
    by (subst n; now rewrite Hconcat).
  clearbody n. clear Hconcat. subst sent. unfold produce in *.
  destruct (scanLoop_sizes json lines (mkProducer [] [] 0)) as [Hfull Hlt];
    [constructor | reflexivity |].
  destruct (scanLoop json lines (mkProducer [] [] 0)) as [b chan c].
  cbn [batch batchChan] in *.
  pose proof (length_concat_full BatchSize chan Hfull) as Hlen.
  assert (Hsizes : Forall (fun b => (1 <= Z.of_nat (List.length b) <= BatchSize)%Z) chan).
  { eapply Forall_impl; [| exact Hfull]. cbv beta. intros a Ha. rewrite Ha.
    unfold BatchSize. lia. }
  unfold BatchSize in *.
  destruct b as [| p b]; cbn [List.length Nat.ltb Nat.leb batchChan] in *.
  - split; [exact Hsizes |]. split.
    + exists chan, []. rewrite app_nil_r. repeat split; [exact Hfull | cbn; lia].
    + rewrite Hn, Hlen. apply Z.div_unique with 4999%Z; lia.
  - split; [| split].
    + apply Forall_app. split; [exact Hsizes |]. constructor; [| constructor].
      cbn [List.length]. lia.
    + exists chan, [p :: b]. repeat split; [exact Hfull | cbn; lia].
    + rewrite concat_app, length_app in Hn.
      cbn [concat app] in Hn. rewrite app_nil_r, Nat2Z.inj_add, Hlen in Hn.
      cbn [List.length] in Hn. rewrite length_app. cbn [List.length].
      apply Z.div_unique with (Z.of_nat (S (List.length b)) - 1)%Z; lia.
Qed.

(** *** The rows written and the counter, for every store *)

(** X19.  For every store, whether or not its calls fail, and for every
    order in which the workers commit the batches: the number of rows
    written is at most the final value of the counter, and the rows
    written are the same, up to their order, as when the batches are
    committed in the order they were sent.  (The store answers a call by
    the row it is given, not by what was written before.) *)
Theorem X19_rows_written_at_most_the_counter
        (json : Json) (store : Store) (lines : list string)
        (order : list (list Product)) :
  let n := List.length (filter forwardable (decoded json lines)) in
  (Z.of_nat n < 2 ^ 31)%Z ->
  Permutation order (batchChan (produce json lines)) ->
  (Z.of_nat (List.length (fst (drain json store order [])))
   <= processedCount (produce json lines))%Z /\
  Permutation (fst (drain json store order []))
              (fst (drain json store (batchChan (produce json lines)) [])).
Proof.
  intros n Hn P. destruct (produce_spec json lines) as [Hs Hc].
  unfold drain. rewrite !drain_rows. cbn [app]. split.
  - rewrite Hc, int32_small by (fold n; lia).
    pose proof (committed_total json store order) as Hle.
    rewrite (length_concat_perm _ _ P), Hs in Hle. lia.
  - apply Permutation_flat_map, P.
Qed.

Lemma X19_rows_written_at_most_the_counter_witness :
  (Z.of_nat
     (List.length
        (fst (drain toyJson pickyStore
                (rev (batchChan (produce toyJson ["1"; "2"; "3"]%string))) [])))
   <= processedCount (produce toyJson ["1"; "2"; "3"]%string))%Z.
Proof.
  apply (X19_rows_written_at_most_the_counter
           toyJson pickyStore ["1"; "2"; "3"]%string
           (rev (batchChan (produce toyJson ["1"; "2"; "3"]%string)))).
  - vm_compute. reflexivity.
  - symmetry. apply Permutation_rev.
Defined.

(** *** From Python dict syntax to JSON *)

Lemma forallChars_impl (p q : ascii -> bool) (s : string) :
  (forall c, p c = true -> q c = true) ->
  forallChars p s = true -> forallChars q s = true.
Proof.
  intros Hpq. induction s as [| c s IH]; [reflexivity |].
  cbn. intros H. apply andb_prop in H as [Hc Hs].
  now rewrite (Hpq c Hc), (IH Hs).
Qed.

Lemma replaceFrom_keeps (p : ascii -> bool) (old new : string) (s : string) :
  forallChars p new = true ->
  forall skip, forallChars p s = true ->
  forallChars p (replaceFrom old new skip s) = true.
Proof.
  intros Hnew. induction s as [| c s IH]; intros skip H; [reflexivity |].
  cbn in H. apply andb_prop in H as [Hc Hs]. cbn [replaceFrom].
  destruct skip as [| k]; [| now apply IH].
  destruct (prefix old (String c s)).
  - rewrite forallChars_app, Hnew. now apply IH.
  - cbn. rewrite Hc. now apply IH.
Qed.

Lemma replaceFrom_char_gone (a : ascii) (new : string) (s : string) :
  forallChars (fun c => negb (c =? a)%char) new = true ->
  forallChars (fun c => negb (c =? a)%char)
              (replaceFrom (String a "") new 0 s) = true.
Proof.
  intros Hnew. induction s as [| c s IH]; [reflexivity |].
  rewrite replaceFrom_char. destruct (a =? c)%char eqn:E.
  - now rewrite forallChars_app, Hnew.
  - cbn. rewrite Ascii.eqb_sym, E. exact IH.
Qed.

Lemma replaceFrom_absent (a : ascii) (old' new : string) (s : string) :
  forallChars (fun c => negb (c =? a)%char) s = true ->
  replaceFrom (String a old') new 0 s = s.
Proof.
  induction s as [| c s IH]; intros H; [reflexivity |].
  cbn in H. apply andb_prop in H as [Hc Hs]. apply negb_true_iff in Hc.
  cbn [replaceFrom prefix].
  destruct (ascii_dec a c) as [-> | Hne].
  - now rewrite Ascii.eqb_refl in Hc.
  - now rewrite (IH Hs).
Qed.

(** X20.  The text handed to [json.Unmarshal] never holds an apostrophe:
    every one is turned into a double quote, also inside a value, and
    the three later passes bring none back.  A line that holds no
    apostrophe and none of the capital letters T, F and N is handed on
    as it is. *)
Theorem X20_json_line_has_no_apostrophe (line : string) :
  forallChars (fun c => negb (c =? "'")%char) (jsonLineOf line) = true /\
  (forallChars
     (fun c => negb (c =? "'")%char && negb (c =? "T")%char &&
               negb (c =? "F")%char && negb (c =? "N")%char) line = true ->
   jsonLineOf line = line).
Proof.
  unfold jsonLineOf, ReplaceAll. split.
  - do 3 (apply replaceFrom_keeps; [reflexivity |]).
    apply replaceFrom_char_gone. reflexivity.
  - intros H.
    assert (H1 : forallChars (fun c => negb (c =? "'")%char) line = true).
    { revert H. apply forallChars_impl. intros c Hc.
      now apply andb_prop in Hc as [Hc _]; apply andb_prop in Hc as [Hc _];
        apply andb_prop in Hc as [Hc _]. }
    assert (H2 : forallChars (fun c => negb (c =? "T")%char) line = true).
    { revert H. apply forallChars_impl. intros c Hc.
      now apply andb_prop in Hc as [Hc _]; apply andb_prop in Hc as [Hc _];
        apply andb_prop in Hc as [_ Hc]. }
    assert (H3 : forallChars (fun c => negb (c =? "F")%char) line = true).
    { revert H. apply forallChars_impl. intros c Hc.
      now apply andb_prop in Hc as [Hc _]; apply andb_prop in Hc as [_ Hc]. }
    assert (H4 : forallChars (fun c => negb (c =? "N")%char) line = true).
    { revert H. apply forallChars_impl. intros c Hc.
      now apply andb_prop in Hc as [_ Hc]. }
    unfold dq.
    rewrite (replaceFrom_absent "'" "" _ line H1).
    rewrite (replaceFrom_absent "T" "rue" _ line H2).
    rewrite (replaceFrom_absent "F" "alse" _ line H3).
    apply (replaceFrom_absent "N" "one" _ line H4).
Qed.

Lemma X20_json_line_has_no_apostrophe_witness :
  jsonLineOf ("{" ++ dq ++ "asin" ++ dq ++ ": 1}") = ("{" ++ dq ++ "asin" ++ dq ++ ": 1}")%string.
Proof.
  apply (proj2 (X20_json_line_has_no_apostrophe
                  ("{" ++ dq ++ "asin" ++ dq ++ ": 1}")%string)).
  reflexivity.
Defined.

End Ingest_extras.

(* ================================================================== *)
(** ** Properties of the table and index set-up *)
(* ================================================================== *)

Section Setup_extras.

Import Setup.
Local Open Scope string_scope.
Local Open Scope list_scope.

Lemma statements_bind {A B : Type} (m : Trace A) (k : A -> Trace B) :
  statements (fst (bind m k)) = statements (fst m) ++ statements (fst (k (snd m))).
Proof. unfold bind, statements. cbn [fst]. apply flat_map_app. Qed.

Lemma warnings_bind {A B : Type} (m : Trace A) (k : A -> Trace B) :
  warnings (fst (bind m k)) = warnings (fst m) ++ warnings (fst (k (snd m))).
Proof. unfold bind, warnings. cbn [fst]. apply flat_map_app. Qed.

Lemma snd_bind {A B : Type} (m : Trace A) (k : A -> Trace B) :
  snd (bind m k) = snd (k (snd m)).
Proof. reflexivity. Qed.

Lemma statements_warnIf (prefix : string) (err : option string) :
  statements (fst (warnIf prefix err)) = [].
Proof. now destruct err. Qed.

Lemma warnings_warnIf (prefix : string) (err : option string) :
  List.length (warnings (fst (warnIf prefix err)))
  = match err with Some _ => 1%nat | None => 0%nat end.
Proof. now destruct err. Qed.

Lemma forRange_statements (db : Db) (l : list string) :
  statements (fst (forRange db l)) = l.
Proof.
  induction l as [| idx l IH]; [reflexivity |].
  cbn [forRange]. rewrite !statements_bind, statements_warnIf, IH. reflexivity.
Qed.

Lemma forRange_warnings (db : Db) (l : list string) :
  List.length (warnings (fst (forRange db l)))
  = List.length (filter (fails db) l).
Proof.
  induction l as [| idx l IH]; [reflexivity |].
  cbn [forRange filter]. rewrite !warnings_bind, !length_app, warnings_warnIf, IH.
  assert (Hf : fails db idx = match db idx with Some _ => true | None => false end)
    by reflexivity.
  rewrite Hf. cbn [exec snd fst warnings flat_map List.length].
  destruct (db idx); cbn [List.length app]; lia.
Qed.

(** X21.  Which failures stop the set-up.  [setupTables] returns an
    error exactly when [DROP TABLE] or [CREATE TABLE] fails: a failure to
    create the extension is logged and the set-up goes on.
    [createIndexesAfterLoad] never returns an error for the plain
    database, whichever of its statements fail; for ParadeDB it returns
    one exactly when both the optimized and the fallback [CREATE INDEX]
    fail, and the error carries the message of the fallback. *)
Theorem X21_failures_that_stop_the_setup (db : Db) (isParadeDB : bool) :
  (snd (setupTables db isParadeDB) = None <->
   db dropTableSQL = None /\ db createTableSQL = None) /\
  (db dropTableSQL = None -> db createTableSQL = None ->
   statements (fst (setupTables db isParadeDB))
   = [dropTableSQL; createTableSQL;
      if isParadeDB then createPgSearchSQL else createPgTrgmSQL]) /\
  snd (createIndexesAfterLoad db false) = None /\
  (forall e,
     snd (createIndexesAfterLoad db true) = Some e <->
     exists e1 e2,
       db bm25IndexSQL = Some e1 /\ db bm25FallbackSQL = Some e2 /\
       e = ("could not create BM25 index: " ++ e2)%string).
Proof.
  split; [| split; [| split]].
  - unfold setupTables. rewrite snd_bind. cbn [exec snd].
    destruct (db dropTableSQL) as [e |].
    { split; [discriminate | intros [H _]; discriminate H]. }
    rewrite snd_bind. cbn [exec snd].
    destruct (db createTableSQL) as [e |].
    { split; [discriminate | intros [_ H]; discriminate H]. }
    rewrite snd_bind. cbn [ret snd]. split; [now split | reflexivity].
  - intros Hd Hc. unfold setupTables.
    rewrite statements_bind. cbn [exec snd fst]. rewrite Hd.
    rewrite statements_bind. cbn [exec snd fst]. rewrite Hc.
    rewrite statements_bind.
    destruct isParadeDB; rewrite statements_bind, statements_warnIf; reflexivity.
  - reflexivity.
  - intros e. unfold createIndexesAfterLoad. rewrite snd_bind. cbn [exec snd].
    destruct (db bm25IndexSQL) as [e1 |].
    + rewrite !snd_bind. cbn [exec snd].
      destruct (db bm25FallbackSQL) as [e2 |]; cbn [ret snd].
      * split.
        -- intros H. injection H as <-. now exists e1, e2.
        -- intros (e1' & e2' & _ & H2 & ->). now injection H2 as <-.
      * split; [discriminate | intros (e1' & e2' & _ & H2 & _); discriminate H2].
    + cbn [ret snd].
      split; [discriminate | intros (e1' & e2' & H1 & _); discriminate H1].
Qed.

Lemma X21_failures_that_stop_the_setup_witness :
  statements (fst (setupTables noIndexes true))
  = [dropTableSQL; createTableSQL; createPgSearchSQL].
Proof.
  apply (proj1 (proj2 (X21_failures_that_stop_the_setup noIndexes true)));
    reflexivity.
Defined.

(** X22.  The statements sent once the load is over.  For the plain
    database they are always the same thirteen, in the same order,
    whichever of them fail: [SET LOGGED], the nine indexes, the unique
    constraint, [ANALYZE] and the count; each failing statement before
    the count leaves one warning and stops nothing.  For ParadeDB the
    fallback index statement is sent exactly when the optimized one
    fails, and [ANALYZE] and the count are sent even when no index could
    be created. *)
Theorem X22_statements_after_the_load (db : Db) :
  statements (fst (afterLoad db false))
  = setLoggedSQL :: indexes ++ [uniqueConstraintSQL; analyzeSQL; countSQL] /\
  List.length (warnings (fst (afterLoad db false)))
  = List.length
      (filter (fails db)
              (setLoggedSQL :: indexes ++ [uniqueConstraintSQL; analyzeSQL])) /\
  statements (fst (afterLoad db true))
  = setLoggedSQL :: bm25IndexSQL ::
      (if fails db bm25IndexSQL then [bm25FallbackSQL] else []) ++
      [analyzeSQL; countSQL].
Proof.
  split; [| split].
  - unfold afterLoad, createIndexesAfterLoad.
    rewrite !statements_bind, !statements_warnIf, forRange_statements.
    cbn [exec fst statements flat_map ret app].
    rewrite <- app_assoc. reflexivity.
  - unfold afterLoad, createIndexesAfterLoad.
    rewrite !warnings_bind, !length_app, !warnings_warnIf, forRange_warnings.
    rewrite !snd_bind.
    cbn [exec fst snd warnings flat_map ret app List.length].
    change (setLoggedSQL :: indexes ++ [uniqueConstraintSQL; analyzeSQL])
      with ([setLoggedSQL] ++ indexes ++ [uniqueConstraintSQL; analyzeSQL]).
    rewrite !filter_app, !length_app. cbn [filter].
    assert (Hf : forall t, fails db t
                           = match db t with Some _ => true | None => false end)
      by reflexivity.
    rewrite !Hf.
    destruct (db setLoggedSQL), (db uniqueConstraintSQL), (db analyzeSQL);
      cbn [List.length app]; lia.
  - unfold afterLoad, createIndexesAfterLoad, fails.
    rewrite !statements_bind, !statements_warnIf.
    cbn [exec fst snd statements flat_map app].
    destruct (db bm25IndexSQL) as [e1 |].
    + rewrite !statements_bind, statements_warnIf.
      cbn [exec fst snd statements flat_map app].
      destruct (db bm25FallbackSQL); reflexivity.
    + reflexivity.
Qed.

End Setup_extras.

(* ================================================================== *)
(** ** Properties of the write tests *)
(* ================================================================== *)

Section Writes_extras.

Import Runtime Writes.
Local Open Scope string_scope.
Local Open Scope list_scope.

(** *** The statement built for a batch *)

Lemma fold_pushProduct (batch : list Product) : forall b,
  fold_left pushProduct batch b
  = mkBuilder
      (values b ++ flat_map valuesOf batch)
      (placeholders b
       ++ map (fun k => placeholderOf (paramIndex b + 8 * k))
              (seq 0 (List.length batch)))
      (paramIndex b + 8 * List.length batch).
Proof.
  induction batch as [| p batch IH]; intros [v ph n].
  - cbn. now rewrite !app_nil_r, Nat.add_0_r.
  - cbn [fold_left]. rewrite IH.
    cbn [pushProduct values placeholders paramIndex]. f_equal.
    + cbn [flat_map]. now rewrite <- app_assoc.
    + cbn [List.length seq map]. rewrite <- app_assoc. cbn [app].
      f_equal. f_equal; [f_equal; lia |].
      rewrite <- seq_shift, map_map. apply map_ext. intros k. f_equal. lia.
    + cbn [List.length]. lia.
Qed.

(** X23.  The statement [testWrites] builds for a batch of [n] products
    has [n] placeholder groups, the group of the product at position [k]
    (from 0) naming the parameters [$8k+1] to [$8k+8], and binds [8n]
    values: the eight values of each product, in the order of the batch.
    So every parameter named in the text has a value and every value is
    named once. *)
Theorem X23_batch_statement_shape (batch : list Product) :
  statementOf batch
  = (insertBatchSQL
       (map (fun k => placeholderOf (8 * k + 1)) (seq 0 (List.length batch))),
     flat_map valuesOf batch) /\
  List.length (snd (statementOf batch)) = (8 * List.length batch)%nat.
Proof.
  assert (E : statementOf batch
              = (insertBatchSQL
                   (map (fun k => placeholderOf (8 * k + 1))
                        (seq 0 (List.length batch))),
                 flat_map valuesOf batch)).
  { unfold statementOf. rewrite fold_pushProduct.
    cbn [values placeholders paramIndex app]. do 2 f_equal.
    apply map_ext. intros k. f_equal. lia. }
  split; [exact E |]. rewrite E. cbn [snd]. clear E.
  induction batch as [| p batch IH]; [reflexivity |].
  cbn [flat_map List.length]. rewrite length_app, IH. cbn [valuesOf List.length]. lia.
Qed.

(** *** The batch loop *)

Lemma send_spec (pool : Pool) (run : Run) (request : string * list Param) :
  sent (send pool run request) = sent run ++ [request] /\
  List.length (errors (send pool run request))
  = (List.length (errors run) + if rejected pool request then 1 else 0)%nat.
Proof.
  unfold send, rejected.
  destruct (pool (fst request) (snd request)); cbn [sent errors];
    split; try reflexivity; [lia |].
  rewrite length_app. reflexivity.
Qed.

Lemma batchLoop_spec (pool : Pool) (products : list Product) (batchSize : nat) :
  (1 <= batchSize)%nat ->
  forall fuel i run,
  (List.length products - i <= fuel)%nat ->
  exists chunks run',
    batchLoop fuel pool products batchSize i run = Some run' /\
    sent run' = sent run ++ map statementOf chunks /\
    concat chunks = skipn i products /\
    Forall (fun c => (1 <= List.length c <= batchSize)%nat) chunks /\
    (List.length products - i <= List.length chunks * batchSize
     < List.length products - i + batchSize)%nat /\
    List.length (errors run')
    = (List.length (errors run)
       + List.length (filter (rejected pool) (map statementOf chunks)))%nat.
Proof.
  intros Hbs. induction fuel as [| fuel IH]; intros i run Hfuel.
  - exists [], run. cbn [batchLoop].
    destruct (Nat.ltb_spec i (List.length products)) as [Hlt | Hge]; [lia |].
    cbn [map concat List.length filter]. rewrite app_nil_r, skipn_all2 by lia.
    repeat split; try constructor; lia.
  - cbn [batchLoop].
    destruct (Nat.ltb_spec i (List.length products)) as [Hlt | Hge].
    + set (batch := slice products i (i + batchSize)).
      assert (Ebatch : batch = firstn batchSize (skipn i products)).
      { subst batch. unfold slice. f_equal. lia. }
      assert (Hlen : List.length batch
                     = Nat.min batchSize (List.length products - i)).
      { rewrite Ebatch, length_firstn, length_skipn. reflexivity. }
      destruct (send_spec pool run (statementOf batch)) as [Hs He].
      destruct (IH (i + batchSize)%nat (send pool run (statementOf batch)))
        as (chunks & run' & E & Hsent & Hconcat & Hsizes & Hcount & Herr);
        [lia |].
      exists (batch :: chunks), run'. split; [exact E |].
      split; [rewrite Hsent, Hs, <- app_assoc; reflexivity |].
      split.
      { cbn [concat]. rewrite Hconcat, Ebatch.
        replace (i + batchSize)%nat with (batchSize + i)%nat by lia.
        rewrite <- skipn_skipn. apply firstn_skipn. }
      split; [constructor; [lia | exact Hsizes] |].
      split.
      { cbn [List.length].
        remember (List.length chunks) as k eqn:Ek. clear Ek.
        assert (Hk : (S k * batchSize = batchSize + k * batchSize)%nat) by lia.
        rewrite Hk.
        destruct (le_lt_dec batchSize (List.length products - i)) as [Hfull | Hpart].
        - lia.
        - assert (Hr : (List.length products - (i + batchSize) = 0)%nat) by lia.
          rewrite Hr in Hcount.
          destruct k as [| k']; [lia |]. exfalso. cbn [Nat.mul] in Hcount. lia. }
      rewrite Herr, He. cbn [map filter].
      destruct (rejected pool (statementOf batch)); cbn [List.length]; lia.
    + exists [], run. cbn [map concat List.length filter].
      rewrite app_nil_r, skipn_all2 by lia.
      repeat split; try constructor; lia.
Qed.

(** X24.  With a batch size of at least 1, [testWrites] ends after
    sending every batch, whichever of them the pool rejects: the batches
    hold between 1 and [batchSize] products, put end to end they are the
    products in order, their number is the number of products divided by
    [batchSize] rounded up, and one message is printed per rejected
    batch.  With a batch size of 0 and at least one product the loop
    never ends. *)
Theorem X24_every_batch_is_sent
        (pool : Pool) (products : list Product) (batchSize fuel : nat) :
  ((1 <= batchSize)%nat -> (List.length products <= fuel)%nat ->
   exists chunks run,
     testWrites fuel pool products batchSize = Some run /\
     sent run = map statementOf chunks /\
     concat chunks = products /\
     Forall (fun c => (1 <= List.length c <= batchSize)%nat) chunks /\
     (List.length products <= List.length chunks * batchSize
      < List.length products + batchSize)%nat /\
     List.length (errors run)
     = List.length (filter (rejected pool) (sent run))) /\
  (batchSize = 0%nat -> products <> [] ->
   testWrites fuel pool products batchSize = None).
Proof.
  split.
  - intros Hbs Hfuel.
    destruct (batchLoop_spec pool products batchSize Hbs fuel 0 (mkRun [] []))
      as (chunks & run & E & Hsent & Hconcat & Hsizes & Hcount & Herr); [lia |].
    cbn [sent errors app List.length skipn] in *.
    rewrite Nat.sub_0_r in Hcount.
    exists chunks, run. rewrite Hsent. repeat split; try assumption; lia.
  - intros -> Hne. unfold testWrites. generalize (mkRun [] []).
    induction fuel as [| fuel IH]; intros run; cbn [batchLoop];
      destruct products as [| p products]; try contradiction;
      cbn [List.length Nat.ltb Nat.leb]; [reflexivity |].
    cbn [Nat.add]. apply IH.
Qed.

Lemma X24_every_batch_is_sent_witness :
  exists chunks run,
    testWrites 3 noSecond [radio 1; radio 2; radio 3] 1 = Some run /\
    sent run = map statementOf chunks /\
    concat chunks = [radio 1; radio 2; radio 3] /\
    Forall (fun c => (1 <= List.length c <= 1)%nat) chunks /\
    (3 <= List.length chunks * 1 < 3 + 1)%nat /\
    List.length (errors run)
    = List.length (filter (rejected noSecond) (sent run)).
Proof.
  apply (proj1 (X24_every_batch_is_sent noSecond [radio 1; radio 2; radio 3] 1 3));
    cbn; lia.
Defined.

(** *** Single inserts *)

Lemma insertEach_accepted (pool : Pool) (products : list Product) :
  (forall p, In p products -> rejected pool (insertOneSQL, valuesOf p) = false) ->
  forall rest run,
  insertEach pool (products ++ rest) run
  = insertEach pool rest
      (mkRun (sent run ++ map (fun p => (insertOneSQL, valuesOf p)) products)
             (errors run)).
Proof.
  induction products as [| p products IH]; intros Hok rest run.
  - cbn. rewrite app_nil_r. now destruct run.
  - cbn [app insertEach map].
    pose proof (Hok p (or_introl eq_refl)) as Hp. unfold rejected in Hp.
    cbn [fst snd] in Hp.
    destruct (pool insertOneSQL (valuesOf p)); [| discriminate].
    rewrite IH by (intros q Hq; apply Hok; now right).
    cbn [sent errors]. now rewrite <- app_assoc.
Qed.

(** X25.  [testSingleInserts] stops at the first product the pool
    rejects: the products before it and the rejected one are sent, one
    message is printed, and none of the products after it is sent.  When
    no product is rejected all are sent, in order. *)
Theorem X25_single_inserts_stop_at_the_first_rejection
        (pool : Pool) (before after : list Product) (bad : Product) (err : Error) :
  (forall p, In p before -> rejected pool (insertOneSQL, valuesOf p) = false) ->
  (pool insertOneSQL (valuesOf bad) = Rejected err ->
   testSingleInserts pool (before ++ bad :: after)
   = mkRun (map (fun p => (insertOneSQL, valuesOf p)) (before ++ [bad]))
           [message err]) /\
  testSingleInserts pool before
  = mkRun (map (fun p => (insertOneSQL, valuesOf p)) before) [].
Proof.
  intros Hok. unfold testSingleInserts. split.
  - intros Hbad. rewrite (insertEach_accepted pool before Hok).
    cbn [insertEach sent errors app]. rewrite Hbad, map_app. reflexivity.
  - rewrite <- (app_nil_r before) at 1.
    rewrite (insertEach_accepted pool before Hok). reflexivity.
Qed.

Lemma X25_single_inserts_stop_at_the_first_rejection_witness :
  testSingleInserts noSecond [radio 1; radio 2; radio 3]
  = mkRun [(insertOneSQL, valuesOf (radio 1)); (insertOneSQL, valuesOf (radio 2))]
          ["duplicate key"%string].
Proof.
  apply (proj1 (X25_single_inserts_stop_at_the_first_rejection
                  noSecond [radio 1] [radio 3] (radio 2)
                  (mkError "duplicate key")
                  ltac:(intros p [<- | []]; reflexivity)));
    reflexivity.
Defined.

End Writes_extras.
